(** * SCXML static code generator: parser and feature classifier

    A shallow embedding of [tools/codegen/scxml_parser.py] and
    [tools/codegen/codegen.py].

    Conventions of the embedding.
    - A Python [str] is a [string]; a character is a code point below 256
      (the Latin-1 range), so the character classes of [str.isspace],
      [str.isalnum] and of the [re] module are the Latin-1 part of the
      Unicode tables Python uses.
    - A Python [set] of strings is a [gset string]; a [dict] whose iteration
      order the code relies on is an association list in insertion order.
    - [None] for an absent XML attribute is [option]; [elem.text or ''] is
      the text itself, the empty string standing for [None].
    - Mutation is explicit state passing.  Objects that the code shares
      between two containers are stored once and referred to by index. *)

From stdpp Require Import base option list gmap strings pretty.
From Stdlib Require Import Ascii String Lia.

Set Warnings "-register-all".
Open Scope string_scope.
Open Scope list_scope.

(** ** Python string operations *)

Module PyStr.

Definition squote : ascii := "'"%char.
Definition dquote : ascii := "034"%char.
Definition backslash : ascii := "\"%char.
Definition newline : ascii := "010"%char.

Definition code (c : ascii) : nat := nat_of_ascii c.

Definition in_range (lo hi : nat) (c : ascii) : bool :=
  (lo <=? code c)%nat && (code c <=? hi)%nat.

(** [str.isspace] on one character: U+0009..U+000D, U+001C..U+001F, U+0020,
    U+0085, U+00A0.  The class [\s] of [re] is the same set. *)
Definition isspace (c : ascii) : bool :=
  in_range 9 13 c || in_range 28 32 c
  || (code c =? 133)%nat || (code c =? 160)%nat.

(** The decimal, digit and numeric characters of Latin-1. *)
Definition isdigit (c : ascii) : bool :=
  in_range 48 57 c || (code c =? 178)%nat || (code c =? 179)%nat
  || (code c =? 185)%nat.

Definition isnumeric (c : ascii) : bool :=
  isdigit c || in_range 188 190 c.

(** The alphabetic characters of Latin-1. *)
Definition isalpha (c : ascii) : bool :=
  in_range 65 90 c || in_range 97 122 c
  || (code c =? 170)%nat || (code c =? 181)%nat || (code c =? 186)%nat
  || in_range 192 214 c || in_range 216 246 c || in_range 248 255 c.

(** [str.isalnum] on one character. *)
Definition isalnum (c : ascii) : bool := isalpha c || isnumeric c.

(** The class [\w] of [re] on [str] patterns. *)
Definition isword (c : ascii) : bool := isalnum c || Ascii.eqb c "_"%char.

(** [[a-zA-Z]] *)
Definition is_ascii_letter (c : ascii) : bool :=
  in_range 65 90 c || in_range 97 122 c.

Definition is_empty (s : string) : bool :=
  match s with EmptyString => true | String _ _ => false end.

(** Truthiness of a [str]. *)
Definition truthy (s : string) : bool := negb (is_empty s).

Definition startswith (s pre : string) : bool := String.prefix pre s.

Fixpoint endswith (s suf : string) : bool :=
  String.eqb suf s ||
  match s with
  | EmptyString => false
  | String _ s' => endswith s' suf
  end.

(** [sub in s] *)
Fixpoint contains (sub s : string) : bool :=
  String.prefix sub s ||
  match s with
  | EmptyString => false
  | String _ s' => contains sub s'
  end.

Fixpoint all_chars (p : ascii -> bool) (s : string) : bool :=
  match s with
  | EmptyString => true
  | String c s' => p c && all_chars p s'
  end.

Fixpoint any_char (p : ascii -> bool) (s : string) : bool :=
  match s with
  | EmptyString => false
  | String c s' => p c || any_char p s'
  end.

(** [s.isdigit()]: non-empty and every character a digit. *)
Definition str_isdigit (s : string) : bool :=
  truthy s && all_chars isdigit s.

Fixpoint lstrip (s : string) : string :=
  match s with
  | EmptyString => EmptyString
  | String c s' => if isspace c then lstrip s' else s
  end.

Fixpoint rstrip (s : string) : string :=
  match s with
  | EmptyString => EmptyString
  | String c s' =>
      let r := rstrip s' in
      if is_empty r && isspace c then EmptyString else String c r
  end.

(** [s.strip()] *)
Definition strip (s : string) : string := rstrip (lstrip s).

(** [s.split()]: the maximal runs of non-whitespace characters. *)
Fixpoint split (s : string) : list string :=
  match s with
  | EmptyString => []
  | String c s' =>
      if isspace c then split s'
      else
        match s' with
        | EmptyString => [String c EmptyString]
        | String c' _ =>
            if isspace c' then String c EmptyString :: split s'
            else
              match split s' with
              | w :: ws => String c w :: ws
              | [] => [String c EmptyString]
              end
        end
  end.

(** [s.replace(old, new)] for a non-empty [old]: occurrences are found from
    left to right and do not overlap.  [skip] counts the characters of the
    occurrence just replaced that are still to be passed over. *)
Fixpoint replace_from (old new : string) (skip : nat) (s : string) : string :=
  match s with
  | EmptyString => EmptyString
  | String c s' =>
      match skip with
      | S k => replace_from old new k s'
      | O =>
          if String.prefix old s
          then new +:+ replace_from old new (String.length old - 1) s'
          else String c (replace_from old new 0 s')
      end
  end.

Definition replace (old new s : string) : string := replace_from old new 0 s.

(** Membership of a string in a list literal: [x in ['a', 'b']]. *)
Definition in_list (x : string) (l : list string) : bool :=
  existsb (String.eqb x) l.

(** The character at index [n], if any. *)
Fixpoint char_at (n : nat) (s : string) : option ascii :=
  match s, n with
  | EmptyString, _ => None
  | String c _, O => Some c
  | String _ s', S k => char_at k s'
  end.

End PyStr.

(** ** Regular expressions

    The patterns the parser passes to [re.match] use character classes,
    concatenation and repetition only.  For such a pattern, anchored with
    [^] and [$], [re.match] finds a match exactly when the subject (or the
    subject without one final newline, which [$] tolerates) belongs to the
    language of the pattern.  Membership is decided with derivatives. *)

Module Regex.

Inductive regex : Type :=
| Void
| Eps
| Class (p : ascii -> bool)
| Cat (r1 r2 : regex)
| Alt (r1 r2 : regex)
| Star (r : regex).

Definition Plus (r : regex) : regex := Cat r (Star r).

Definition Lit (c : ascii) : regex := Class (Ascii.eqb c).

Fixpoint Word (s : string) : regex :=
  match s with
  | EmptyString => Eps
  | String c s' => Cat (Lit c) (Word s')
  end.

(** The language of a pattern. *)
Inductive matches : regex -> string -> Prop :=
| m_eps : matches Eps EmptyString
| m_class p c : p c = true -> matches (Class p) (String c EmptyString)
| m_cat r1 r2 s1 s2 :
    matches r1 s1 -> matches r2 s2 -> matches (Cat r1 r2) (s1 +:+ s2)
| m_alt_l r1 r2 s : matches r1 s -> matches (Alt r1 r2) s
| m_alt_r r1 r2 s : matches r2 s -> matches (Alt r1 r2) s
| m_star_nil r : matches (Star r) EmptyString
| m_star_app r s1 s2 :
    matches r s1 -> matches (Star r) s2 -> matches (Star r) (s1 +:+ s2).

Fixpoint nullable (r : regex) : bool :=
  match r with
  | Void => false
  | Eps => true
  | Class _ => false
  | Cat r1 r2 => nullable r1 && nullable r2
  | Alt r1 r2 => nullable r1 || nullable r2
  | Star _ => true
  end.

Fixpoint deriv (c : ascii) (r : regex) : regex :=
  match r with
  | Void => Void
  | Eps => Void
  | Class p => if p c then Eps else Void
  | Cat r1 r2 =>
      if nullable r1
      then Alt (Cat (deriv c r1) r2) (deriv c r2)
      else Cat (deriv c r1) r2
  | Alt r1 r2 => Alt (deriv c r1) (deriv c r2)
  | Star r1 => Cat (deriv c r1) (Star r1)
  end.

Fixpoint accepts (r : regex) (s : string) : bool :=
  match s with
  | EmptyString => nullable r
  | String c s' => accepts (deriv c r) s'
  end.

(** [s] without its last character. *)
Fixpoint drop_last (s : string) : string :=
  match s with
  | EmptyString => EmptyString
  | String c EmptyString => EmptyString
  | String c s' => String c (drop_last s')
  end.

(** [re.match('^' + r + '$', s) is not None] *)
Definition re_match_anchored (r : regex) (s : string) : bool :=
  accepts r s ||
  (PyStr.endswith s (String PyStr.newline EmptyString)
   && accepts r (drop_last s)).

End Regex.

(** ** XML documents as [lxml] presents them *)

Module Xml.

(** An element has a namespace URI, a local name, attributes, the text
    before its first child, and children.  [Special] is a comment or a
    processing instruction: a child whose [tag] is not a [str]. *)
Inductive node : Type :=
| Element (ns tag : string) (attrs : list (string * string)) (text : string)
    (children : list node)
| Special (text : string).

Definition SCXML_NS : string := "http://www.w3.org/2005/07/scxml".

Fixpoint assoc {A : Type} (k : string) (l : list (string * A)) : option A :=
  match l with
  | [] => None
  | (k', v) :: l' => if String.eqb k k' then Some v else assoc k l'
  end.

Definition attrs_of (e : node) : list (string * string) :=
  match e with Element _ _ a _ _ => a | Special _ => [] end.

Definition children_of (e : node) : list node :=
  match e with Element _ _ _ _ c => c | Special _ => [] end.

Definition text_of (e : node) : string :=
  match e with Element _ _ _ t _ => t | Special _ => EmptyString end.

(** [elem.get(name)] *)
Definition get_opt (e : node) (name : string) : option string :=
  assoc name (attrs_of e).

(** [elem.get(name, default)] *)
Definition get (e : node) (name dflt : string) : string :=
  default dflt (get_opt e name).

(** [isinstance(child.tag, str)] *)
Definition is_element (e : node) : bool :=
  match e with Element _ _ _ _ _ => true | Special _ => false end.

(** [etree.QName(child).localname] *)
Definition localname (e : node) : string :=
  match e with Element _ t _ _ _ => t | Special _ => EmptyString end.

(** The child is the element [sc:tag] of the SCXML namespace. *)
Definition is_sc (tag : string) (e : node) : bool :=
  match e with
  | Element ns t _ _ _ => String.eqb ns SCXML_NS && String.eqb t tag
  | Special _ => false
  end.

(** [ns_findall(elem, tag)], also [elem.findall('./sc:tag', SCXML_NS)] *)
Definition ns_findall (e : node) (tag : string) : list node :=
  filter (fun c => is_sc tag c = true) (children_of e).

(** [ns_find(elem, tag)] *)
Definition ns_find (e : node) (tag : string) : option node :=
  head (ns_findall e tag).

End Xml.

(** ** The expression classifier ([scxml_parser.py], pure part) *)

Module Classifier.
Import PyStr Regex.

(** The class [[\s()&|]] *)
Definition sep_class (c : ascii) : bool :=
  isspace c || Ascii.eqb c "("%char || Ascii.eqb c ")"%char
  || Ascii.eqb c "&"%char || Ascii.eqb c "|"%char.

(** The class [[^']] *)
Definition not_squote (c : ascii) : bool := negb (Ascii.eqb c squote).

(** [In\('[^']+'\)] *)
Definition in_atom : regex :=
  Cat (Word "In('") (Cat (Plus (Class not_squote)) (Word "')")).

(** The body of the pattern of [_is_pure_in_predicate]: any number of
    characters of [[\s()&|]], then one or more times an [In] atom followed
    by any number of characters of [[\s()&|]]. *)
Definition pure_in_pattern : regex :=
  Cat (Star (Class sep_class)) (Plus (Cat in_atom (Star (Class sep_class)))).

Definition ecma_keywords : list string :=
  ["typeof"; "_event"; "function"; "var"; "let"; "const"; "return"].

(** [expr.replace('&amp;&amp;', '&&').replace('&amp;|', '||').strip()] *)
Definition clean_expr (expr : string) : string :=
  strip (replace "&amp;|" "||" (replace "&amp;&amp;" "&&" expr)).

Definition _is_pure_in_predicate (expr : string) : bool :=
  if negb (truthy expr) || negb (contains "In(" expr) then false
  else
    let clean := clean_expr expr in
    if negb (re_match_anchored pure_in_pattern clean) then false
    else if existsb (fun keyword => contains keyword clean) ecma_keywords
         then false
         else true.

(** The class [[^q\\]] for a quote character [q]. *)
Definition plain_char (q : ascii) (c : ascii) : bool :=
  negb (Ascii.eqb c q) && negb (Ascii.eqb c backslash).

(** The body of the pattern of a quoted literal: the quote [q], any number
    of characters other than [q] and the backslash (group 1), the quote. *)
Definition quoted_pattern (q : ascii) : regex :=
  Cat (Lit q) (Cat (Star (Class (plain_char q))) (Lit q)).

Definition _is_static_string_literal (expr : string) : bool :=
  if negb (truthy expr) then false
  else
    let expr_stripped := strip expr in
    if re_match_anchored (quoted_pattern squote) expr_stripped
       || re_match_anchored (quoted_pattern dquote) expr_stripped
    then true
    else false.

(** Group 1 of [re.match] on the quoted-literal pattern, read after
    its opening quote: the characters up to the next [q], which must end
    the subject (a final newline apart); a backslash on the way is no match.
    The class excludes [q], so the repetition can stop nowhere else. *)
Fixpoint quoted_group (q : ascii) (s : string) : option string :=
  match s with
  | EmptyString => None
  | String c s' =>
      if Ascii.eqb c q then
        if is_empty s' || String.eqb s' (String newline EmptyString)
        then Some EmptyString else None
      else if Ascii.eqb c backslash then None
      else
        match quoted_group q s' with
        | Some g => Some (String c g)
        | None => None
        end
  end.

(** [m = re.match(pattern, s)] for the quoted-literal pattern of [q];
    [m.group(1)] when [m] is a match. *)
Definition match_quoted (q : ascii) (s : string) : option string :=
  match s with
  | EmptyString => None
  | String c s' => if Ascii.eqb c q then quoted_group q s' else None
  end.

Definition _extract_static_string_literal (expr : string) : string :=
  let expr_stripped := strip expr in
  match match_quoted squote expr_stripped with
  | Some g => g
  | None =>
      match match_quoted dquote expr_stripped with
      | Some g => g
      | None => expr_stripped
      end
  end.

(** [re.search(r'\b_[a-zA-Z]\w*\b', s)]: an underscore that follows no word
    character and is followed by an ASCII letter.  The run of word
    characters after the letter, taken whole, ends at a word boundary.
    [prev_word] tells whether the character before [s] is a word character. *)
Fixpoint search_system_identifier (prev_word : bool) (s : string) : bool :=
  match s with
  | EmptyString => false
  | String c s' =>
      (negb prev_word && Ascii.eqb c "_"%char &&
       match s' with
       | String d _ => is_ascii_letter d
       | EmptyString => false
       end)
      || search_system_identifier (isword c) s'
  end.

(** [re.search] for a single or a double quote. *)
Definition search_quote (s : string) : bool :=
  any_char (fun c => Ascii.eqb c squote || Ascii.eqb c dquote) s.

Definition js_features : list string :=
  ["typeof"; "_event."; "function"; "var "; "let "; "const "].

Definition ecmascript_operators : list string :=
  ["=="; "!="; "==="; "!=="; "&&"; "||"; "<="; ">="; "<"; ">"].

Definition EVENT_METADATA_FIELDS : list string :=
  ["_event.origin"; "_event.origintype"; "_event.sendid"; "_event.invokeid";
   "_event.type"].

Definition cpp_reserved : list string :=
  ["return"; "break"; "continue"; "goto"; "switch"; "case"; "default";
   "if"; "else"; "while"; "do"; "for"; "class"; "struct"; "typedef";
   "using"; "namespace"; "template"; "typename"; "static"; "extern";
   "inline"; "virtual"; "operator"; "new"; "delete"; "this"; "throw";
   "try"; "catch"; "public"; "private"; "protected"].

(** The test of one reserved word in [_requires_jsengine]: the stripped
    expression is the word, or starts with it and goes on with a character
    that is neither alphanumeric nor an underscore. *)
Definition reserved_hit (expr_stripped keyword : string) : bool :=
  String.eqb expr_stripped keyword ||
  (startswith expr_stripped keyword
   && (String.length keyword <? String.length expr_stripped)%nat
   && match char_at (String.length keyword) expr_stripped with
      | Some c => negb (isalnum c) && negb (Ascii.eqb c "_"%char)
      | None => false
      end).

End Classifier.


(** ** The model the parser builds *)

Module Model.
Import Xml.

(** The values the action dictionaries hold.  A dictionary is an association
    list in insertion order: assignment to a present key keeps its place. *)
Inductive pyval : Type :=
| PNone
| PStr (s : string)
| PBool (b : bool)
| PList (l : list pyval)
| PDict (d : list (string * pyval)).

Definition dict : Type := list (string * pyval).

(** [d[k] = v] on an insertion-ordered dictionary. *)
Fixpoint dict_set {A : Type} (k : string) (v : A) (d : list (string * A))
  : list (string * A) :=
  match d with
  | [] => [(k, v)]
  | (k', v') :: d' =>
      if String.eqb k k' then (k, v) :: d' else (k', v') :: dict_set k v d'
  end.

(** [k in d] *)
Definition dict_mem {A : Type} (k : string) (d : list (string * A)) : bool :=
  match assoc k d with Some _ => true | None => false end.

(** [d.update({k1: v1, ...})] *)
Definition dict_update (kvs : dict) (d : dict) : dict :=
  fold_left (fun acc kv => dict_set (fst kv) (snd kv) acc) kvs d.

(** [', '.join(l)] and friends. *)
Fixpoint join (sep : string) (l : list string) : string :=
  match l with
  | [] => EmptyString
  | [x] => x
  | x :: l' => x +:+ sep +:+ join sep l'
  end.

(** [d.get(k)] *)
Definition dict_get (k : string) (d : dict) : pyval :=
  default PNone (assoc k d).

(** Truthiness of a value. *)
Definition py_truthy (v : pyval) : bool :=
  match v with
  | PNone => false
  | PStr s => PyStr.truthy s
  | PBool b => b
  | PList l => negb (bool_decide (l = []))
  | PDict d => negb (bool_decide (d = []))
  end.

(** [d.get(k, '')] read as a string; a value that is no string reads as the
    empty string, which is how every comparison of the code treats it. *)
Definition dict_str (k : string) (d : dict) : string :=
  match dict_get k d with PStr s => s | _ => EmptyString end.

(** [d.get(k, [])] read as a list of dictionaries. *)
Definition dict_actions (k : string) (d : dict) : list dict :=
  match dict_get k d with
  | PList l =>
      omap (fun v => match v with PDict a => Some a | _ => None end) l
  | _ => []
  end.

(** [v == s] for a string [s]. *)
Definition is_str (v : pyval) (s : string) : bool :=
  match v with PStr x => String.eqb x s | _ => false end.

Definition opt_str (o : option string) : pyval :=
  match o with Some s => PStr s | None => PNone end.

Record Transition : Type := mkTransition {
  tr_event : string;
  tr_target : string;
  tr_cond : string;
  tr_is_pure_in_predicate : bool;
  tr_type : string;
  tr_actions : list dict;
  (* attributes set after construction; [None] while unset *)
  tr_prefix_matching_events : option (list string);
  tr_history_target : option string
}.

Definition set_tr_prefix_matching_events (v : option (list string))
  (t : Transition) : Transition :=
  mkTransition (tr_event t) (tr_target t) (tr_cond t)
    (tr_is_pure_in_predicate t) (tr_type t) (tr_actions t) v
    (tr_history_target t).

Definition set_tr_history_target (v : option string) (t : Transition)
  : Transition :=
  mkTransition (tr_event t) (tr_target t) (tr_cond t)
    (tr_is_pure_in_predicate t) (tr_type t) (tr_actions t)
    (tr_prefix_matching_events t) v.

(** A [<data>] declaration; [dv_type] is set by the code generator. *)
Record DataVar : Type := mkDataVar {
  dv_id : option string;
  dv_expr : string;
  dv_src : string;
  dv_content : string;
  dv_type : option string
}.

(** The dictionary [_parse_invoke] returns. *)
Record Invoke : Type := mkInvoke {
  iv_type : string;
  iv_src : string;
  iv_srcexpr : string;
  iv_id : string;
  iv_idlocation : string;
  iv_autoforward : string;
  iv_namelist : string;
  iv_params : list dict;
  iv_finalize : list dict;
  iv_content : string;
  iv_contentexpr : string;
  iv_content_scxml : option node;
  iv_has_inline_scxml : option bool;
  iv_is_static : bool;
  iv_is_hybrid : bool;
  iv_is_dynamic_file : bool
}.

(** The static-invoke dictionary, shared by the state and the model. *)
Record StaticInvoke : Type := mkStaticInvoke {
  si_invoke_id : string;
  si_child_name : string;
  si_state_name : string;
  si_autoforward : bool;
  si_src : string;
  si_params : list dict;
  si_idlocation : string;
  si_namelist : string;
  si_child_needs_jsengine : option bool;
  si_child_datamodel_vars : option (list (option string));
  si_use_specific_event : option bool
}.

(** The hybrid-invoke dictionary, shared by the state and the model. *)
Record HybridInvoke : Type := mkHybridInvoke {
  hi_invoke_id : string;
  hi_state_name : string;
  hi_srcexpr : string;
  hi_contentexpr : string;
  hi_autoforward : bool;
  hi_params : list dict;
  hi_idlocation : string;
  hi_use_specific_event : option bool
}.

Record DoneData : Type := mkDoneData {
  dd_params : list dict;
  dd_content : string;
  dd_contentexpr : string
}.

Record HistoryInfo : Type := mkHistoryInfo {
  h_parent : option string;
  h_type : string;
  h_default_target : string;
  h_default_actions : list dict;
  h_leaf_target : option string
}.

Record State : Type := mkState {
  st_id : string;
  st_initial : string;
  st_initial_children : list string;
  st_is_final : bool;
  st_is_parallel : bool;
  st_parent : option string;
  st_transitions : list Transition;
  st_on_entry : list dict;
  st_on_exit : list dict;
  st_datamodel : list DataVar;
  st_invokes : list Invoke;
  (* indices into the model's [static_invokes] and [hybrid_invokes] *)
  st_static_invokes : list nat;
  st_hybrid_invokes : list nat;
  st_donedata : option DoneData;
  st_document_order : nat;
  st_initial_transition_actions : list dict;
  st_initial_history_id : string;
  st_initial_history_default_target : string;
  st_initial_history_default_actions : list dict
}.

Definition set_st_initial (v : string) (s : State) : State :=
  mkState (st_id s) v (st_initial_children s) (st_is_final s)
    (st_is_parallel s) (st_parent s) (st_transitions s) (st_on_entry s)
    (st_on_exit s) (st_datamodel s) (st_invokes s) (st_static_invokes s)
    (st_hybrid_invokes s) (st_donedata s) (st_document_order s)
    (st_initial_transition_actions s) (st_initial_history_id s)
    (st_initial_history_default_target s)
    (st_initial_history_default_actions s).

Definition set_st_initial_children (v : list string) (s : State) : State :=
  mkState (st_id s) (st_initial s) v (st_is_final s)
    (st_is_parallel s) (st_parent s) (st_transitions s) (st_on_entry s)
    (st_on_exit s) (st_datamodel s) (st_invokes s) (st_static_invokes s)
    (st_hybrid_invokes s) (st_donedata s) (st_document_order s)
    (st_initial_transition_actions s) (st_initial_history_id s)
    (st_initial_history_default_target s)
    (st_initial_history_default_actions s).

Definition set_st_transitions (v : list Transition) (s : State) : State :=
  mkState (st_id s) (st_initial s) (st_initial_children s) (st_is_final s)
    (st_is_parallel s) (st_parent s) v (st_on_entry s)
    (st_on_exit s) (st_datamodel s) (st_invokes s) (st_static_invokes s)
    (st_hybrid_invokes s) (st_donedata s) (st_document_order s)
    (st_initial_transition_actions s) (st_initial_history_id s)
    (st_initial_history_default_target s)
    (st_initial_history_default_actions s).

(** The three [initial_history_*] fields and [initial], set together by
    [_resolve_history_targets]. *)
Definition set_st_initial_history (hid leaf : string) (acts : list dict)
  (s : State) : State :=
  mkState (st_id s) leaf (st_initial_children s) (st_is_final s)
    (st_is_parallel s) (st_parent s) (st_transitions s) (st_on_entry s)
    (st_on_exit s) (st_datamodel s) (st_invokes s) (st_static_invokes s)
    (st_hybrid_invokes s) (st_donedata s) (st_document_order s)
    (st_initial_transition_actions s) hid leaf acts.

(** The boolean attributes of [SCXMLModel] and the helper flags the code
    generator adds.  The per-field [needs_event_*] flags, [needs_external_flag]
    and the constant [needs_transition_helper] steer the templates only and
    are left out. *)
Inductive flag : Type :=
| has_dynamic_expressions | has_parallel_states | has_history_states
| has_invoke | has_hybrid_invoke | has_dynamic_file_invoke
| has_event_metadata | has_parent_communication | has_child_communication
| needs_jsengine | uses_in_predicate | has_transition_actions
| needs_event_type_helper | needs_assign_helper | needs_foreach
| needs_guard_helper | needs_send_helper | needs_event_data_helper
| needs_donedata_helper | needs_event_scheduler.

#[export] Instance flag_eq_dec : EqDecision flag.
Proof. solve_decision. Defined.

Definition flags : Type := flag -> bool.

(** Every attribute defaults to [False]. *)
Definition no_flags : flags := fun _ => false.

Definition set_flag (f : flag) (b : bool) (fl : flags) : flags :=
  fun g => if decide (g = f) then b else fl g.

Record SCXMLModel : Type := mkModel {
  name : string;
  initial : string;
  initial_leaf : string;
  binding : string;
  datamodel_type : string;
  states : list (string * State);
  events : gset string;
  history_default_targets : list (string * string);
  history_states : list (string * HistoryInfo);
  flag_of : flags;
  variables : list DataVar;
  global_scripts : list dict;
  static_invokes : list StaticInvoke;
  hybrid_invokes : list HybridInvoke;
  parallel_regions : list (string * list string)
}.

Definition set_initial (v : string) (m : SCXMLModel) : SCXMLModel :=
  mkModel (name m) v (initial_leaf m) (binding m) (datamodel_type m)
    (states m) (events m) (history_default_targets m) (history_states m)
    (flag_of m) (variables m) (global_scripts m) (static_invokes m)
    (hybrid_invokes m) (parallel_regions m).

Definition set_initial_leaf (v : string) (m : SCXMLModel) : SCXMLModel :=
  mkModel (name m) (initial m) v (binding m) (datamodel_type m)
    (states m) (events m) (history_default_targets m) (history_states m)
    (flag_of m) (variables m) (global_scripts m) (static_invokes m)
    (hybrid_invokes m) (parallel_regions m).

Definition set_states (v : list (string * State)) (m : SCXMLModel)
  : SCXMLModel :=
  mkModel (name m) (initial m) (initial_leaf m) (binding m)
    (datamodel_type m) v (events m) (history_default_targets m)
    (history_states m) (flag_of m) (variables m) (global_scripts m)
    (static_invokes m) (hybrid_invokes m) (parallel_regions m).

Definition set_events (v : gset string) (m : SCXMLModel) : SCXMLModel :=
  mkModel (name m) (initial m) (initial_leaf m) (binding m)
    (datamodel_type m) (states m) v (history_default_targets m)
    (history_states m) (flag_of m) (variables m) (global_scripts m)
    (static_invokes m) (hybrid_invokes m) (parallel_regions m).

Definition set_history_default_targets (v : list (string * string))
  (m : SCXMLModel) : SCXMLModel :=
  mkModel (name m) (initial m) (initial_leaf m) (binding m)
    (datamodel_type m) (states m) (events m) v
    (history_states m) (flag_of m) (variables m) (global_scripts m)
    (static_invokes m) (hybrid_invokes m) (parallel_regions m).

Definition set_history_states (v : list (string * HistoryInfo))
  (m : SCXMLModel) : SCXMLModel :=
  mkModel (name m) (initial m) (initial_leaf m) (binding m)
    (datamodel_type m) (states m) (events m) (history_default_targets m)
    v (flag_of m) (variables m) (global_scripts m)
    (static_invokes m) (hybrid_invokes m) (parallel_regions m).

Definition set_flag_of (v : flags) (m : SCXMLModel) : SCXMLModel :=
  mkModel (name m) (initial m) (initial_leaf m) (binding m)
    (datamodel_type m) (states m) (events m) (history_default_targets m)
    (history_states m) v (variables m) (global_scripts m)
    (static_invokes m) (hybrid_invokes m) (parallel_regions m).

Definition set_variables (v : list DataVar) (m : SCXMLModel) : SCXMLModel :=
  mkModel (name m) (initial m) (initial_leaf m) (binding m)
    (datamodel_type m) (states m) (events m) (history_default_targets m)
    (history_states m) (flag_of m) v (global_scripts m)
    (static_invokes m) (hybrid_invokes m) (parallel_regions m).

Definition set_global_scripts (v : list dict) (m : SCXMLModel)
  : SCXMLModel :=
  mkModel (name m) (initial m) (initial_leaf m) (binding m)
    (datamodel_type m) (states m) (events m) (history_default_targets m)
    (history_states m) (flag_of m) (variables m) v
    (static_invokes m) (hybrid_invokes m) (parallel_regions m).

Definition set_static_invokes (v : list StaticInvoke) (m : SCXMLModel)
  : SCXMLModel :=
  mkModel (name m) (initial m) (initial_leaf m) (binding m)
    (datamodel_type m) (states m) (events m) (history_default_targets m)
    (history_states m) (flag_of m) (variables m) (global_scripts m)
    v (hybrid_invokes m) (parallel_regions m).

Definition set_hybrid_invokes (v : list HybridInvoke) (m : SCXMLModel)
  : SCXMLModel :=
  mkModel (name m) (initial m) (initial_leaf m) (binding m)
    (datamodel_type m) (states m) (events m) (history_default_targets m)
    (history_states m) (flag_of m) (variables m) (global_scripts m)
    (static_invokes m) v (parallel_regions m).

Definition set_parallel_regions (v : list (string * list string))
  (m : SCXMLModel) : SCXMLModel :=
  mkModel (name m) (initial m) (initial_leaf m) (binding m)
    (datamodel_type m) (states m) (events m) (history_default_targets m)
    (history_states m) (flag_of m) (variables m) (global_scripts m)
    (static_invokes m) (hybrid_invokes m) v.

(** [model.<flag> = True] *)
Definition raise_flag (f : flag) (m : SCXMLModel) : SCXMLModel :=
  set_flag_of (set_flag f true (flag_of m)) m.

(** [model.<flag> = False] *)
Definition clear_flag (f : flag) (m : SCXMLModel) : SCXMLModel :=
  set_flag_of (set_flag f false (flag_of m)) m.

(** [model.events.add(e)] *)
Definition add_event (e : string) (m : SCXMLModel) : SCXMLModel :=
  set_events ({[ e ]} ∪ events m) m.

(** [id in model.states] *)
Definition has_state (m : SCXMLModel) (id : string) : bool :=
  dict_mem id (states m).

(** [model.states[id]] where the key is present. *)
Definition state_of (m : SCXMLModel) (id : string) : option State :=
  assoc id (states m).

(** An attribute assignment to a [State] object reached through the
    dictionary entry [id]. *)
Definition update_state (id : string) (f : State -> State) (m : SCXMLModel)
  : SCXMLModel :=
  match state_of m id with
  | Some s => set_states (dict_set id (f s) (states m)) m
  | None => m
  end.

(** [SCXMLModel(name=..., initial=..., binding=..., datamodel_type=...)] *)
Definition new_model (nm init bind dm : string) : SCXMLModel :=
  mkModel nm init EmptyString bind dm [] ∅ [] [] no_flags [] [] [] [] [].

End Model.

(** ** The parser ([scxml_parser.py]) *)

Module Parser.
Import PyStr Xml Model Classifier.

(** What a run can raise. *)
Inductive py_error : Type :=
| ValueError (msg : string)
| IndexError
| UnboundLocalError
| OSError
| XMLSyntaxError
| RecursionError.

Inductive result (A : Type) : Type :=
| Ok (a : A)
| Raise (e : py_error).
Arguments Ok {A} a.
Arguments Raise {A} e.

(** A file of the input directory: a well-formed XML document, given by its
    root, or anything else. *)
Inductive file : Type :=
| XmlFile (root : node)
| OtherFile.

Definition filesystem : Type := gmap string file.

Section WithEnvironment.

(** [etree.tostring(node, encoding='unicode', method='xml')] and
    [etree.tostring(node, method='c14n').decode('utf-8')]: the serializers of
    [lxml], left abstract. *)
Variable tostring : node -> string.
Variable tostring_c14n : node -> string.

(** [Path(p).stem] *)
Variable path_stem : string -> string.

(** [str(Path(scxml_path).parent / filename)] *)
Variable sibling_path : string -> string -> string.

(** The body of the [try] block of [_parse_global_scripts] for a script with
    a [src]: the text of the file, or [None] when the block raises (the file
    is missing, unreadable or outside the directory of the document). *)
Variable load_external_script : string -> string -> option string.

(** The tree [etree.parse] reads back from the file that
    [_process_static_invokes] writes for an inline child. *)
Variable reread : node -> node.

Definition _requires_jsengine (expr : string) (m : SCXMLModel)
  : bool * SCXMLModel :=
  if negb (truthy expr) then (false, m)
  else if contains "In(" expr then
    let m := raise_flag uses_in_predicate m in
    if _is_pure_in_predicate expr then (false, m) else (true, m)
  else if existsb (fun feature => contains feature expr) js_features
  then (true, m)
  else if search_system_identifier false expr then (true, m)
  else if existsb (fun op => contains op expr) ecmascript_operators
  then (true, m)
  else if search_quote expr then (true, m)
  else if existsb (fun field => contains field expr) EVENT_METADATA_FIELDS
  then (true, raise_flag has_event_metadata m)
  else
    let expr_stripped := strip expr in
    if existsb (reserved_hit expr_stripped) cpp_reserved then (true, m)
    else (false, m).

(** [if self._requires_jsengine(expr): self.model.needs_jsengine = True] *)
Definition flag_if_requires_jsengine (expr : string) (m : SCXMLModel)
  : SCXMLModel :=
  let '(r, m) := _requires_jsengine expr m in
  if r then raise_flag needs_jsengine m else m.

(** [cond and self._is_pure_in_predicate(cond)] *)
Definition pure_in_flag (cond : string) : bool :=
  truthy cond && _is_pure_in_predicate cond.

(** The text of a [<content>] or [<data>] element: its children serialized
    when it has any, its text otherwise. *)
Definition inline_content (e : node) : string :=
  match children_of e with
  | [] => text_of e
  | cs => String.concat EmptyString (map tostring cs)
  end.

(** One [<param>] of a top-level [<send>]: its dictionary and the effect on
    the script-engine flag. *)
Definition parse_send_param (param : node) (m : SCXMLModel)
  : dict * SCXMLModel :=
  let param_expr := get param "expr" EmptyString in
  let is_static_literal :=
    truthy param_expr && _is_static_string_literal param_expr in
  let static_value :=
    if is_static_literal then _extract_static_string_literal param_expr
    else EmptyString in
  let d := [("name", opt_str (get_opt param "name"));
            ("expr", PStr param_expr);
            ("location", PStr (get param "location" EmptyString));
            ("is_static_literal", PBool is_static_literal);
            ("static_value", PStr static_value)] in
  let m := if truthy param_expr && negb is_static_literal
           then raise_flag needs_jsengine m else m in
  (d, m).

Fixpoint parse_send_params (ps : list node) (m : SCXMLModel)
  : list dict * SCXMLModel :=
  match ps with
  | [] => ([], m)
  | p :: ps' =>
      let '(d, m) := parse_send_param p m in
      let '(ds, m) := parse_send_params ps' m in
      (d :: ds, m)
  end.

(** The [tag == 'send'] branch of [_parse_executable_content]. *)
Definition parse_send (child : node) (m : SCXMLModel) : dict * SCXMLModel :=
  let a_event := get child "event" EmptyString in
  let a_eventexpr := get child "eventexpr" EmptyString in
  let a_target := get child "target" EmptyString in
  let a_targetexpr := get child "targetexpr" EmptyString in
  let m := if String.eqb a_target "#_parent"
           then raise_flag has_parent_communication m
           else if String.eqb a_target "#_child"
                then raise_flag has_child_communication m
                else m in
  let a_delay := get child "delay" EmptyString in
  let a_delayexpr := get child "delayexpr" EmptyString in
  let a_namelist := get child "namelist" EmptyString in
  let m := if truthy a_namelist then raise_flag needs_jsengine m else m in
  let '(params, m) := parse_send_params (ns_findall child "param") m in
  let '(a_content, a_contentexpr) :=
    match ns_findall child "content" with
    | content_elem :: _ =>
        (strip (inline_content content_elem),
         get content_elem "expr" EmptyString)
    | [] => (EmptyString, EmptyString)
    end in
  let m := if truthy a_eventexpr || truthy a_targetexpr || truthy a_delayexpr
           then raise_flag needs_jsengine
                  (raise_flag has_dynamic_expressions m)
           else m in
  let m := if truthy a_targetexpr then add_event "error.communication" m
           else m in
  let m := if truthy a_event then add_event a_event m
           else if truthy a_content && negb (truthy a_eventexpr)
                then add_event EmptyString m
                else m in
  ([("type", PStr "send");
    ("event", PStr a_event);
    ("eventexpr", PStr a_eventexpr);
    ("target", PStr a_target);
    ("targetexpr", PStr a_targetexpr);
    ("send_type", PStr (get child "type" EmptyString));
    ("delay", PStr a_delay);
    ("delayexpr", PStr a_delayexpr);
    ("id", PStr (get child "id" EmptyString));
    ("idlocation", PStr (get child "idlocation" EmptyString));
    ("namelist", PStr a_namelist);
    ("params", PList (map PDict params));
    ("contentexpr", PStr a_contentexpr);
    ("content", PStr a_content)], m).

(** The [tag == 'assign'] branch: the child elements, canonically
    serialized on one line each, become the content. *)
Definition parse_assign (child : node) (m : SCXMLModel) : dict * SCXMLModel :=
  let base := [("type", PStr "assign");
               ("location", PStr (get child "location" EmptyString));
               ("expr", PStr (get child "expr" EmptyString))] in
  let a :=
    match children_of child with
    | [] => dict_set "content" (PStr EmptyString) base
    | cs =>
        let children_xml :=
          String.concat EmptyString
            (map (fun c => join " " (split (tostring_c14n c)))
                 (filter (fun c => is_element c = true) cs)) in
        if truthy children_xml
        then dict_set "content" (PStr children_xml) base
        else base
    end in
  (a, raise_flag needs_jsengine m).

(** Which list the walk over the children of an [<if>] is appending to. *)
Inductive branch : Type := InThen | InElseif | InElse.

(** The dictionary built for an action inside an [<if>].  [update] runs on
    a dictionary that already holds ['type'], so the [<send>] case
    overwrites that key with the element's [type] attribute. *)
Definition parse_branch_action (elem : node) (m : SCXMLModel)
  : dict * SCXMLModel :=
  let elem_tag := localname elem in
  let base := [("type", PStr elem_tag)] in
  if String.eqb elem_tag "raise" then
    let ev := get elem "event" EmptyString in
    (dict_set "event" (PStr ev) base,
     if truthy ev then add_event ev m else m)
  else if String.eqb elem_tag "send" then
    let params :=
      map (fun param =>
             PDict [("name", opt_str (get_opt param "name"));
                    ("expr", PStr (get param "expr" EmptyString));
                    ("location", PStr (get param "location" EmptyString))])
          (ns_findall elem "param") in
    let a := dict_update
      [("event", PStr (get elem "event" EmptyString));
       ("target", PStr (get elem "target" EmptyString));
       ("targetexpr", PStr (get elem "targetexpr" EmptyString));
       ("type", PStr (get elem "type" EmptyString));
       ("id", PStr (get elem "id" EmptyString));
       ("idlocation", PStr (get elem "idlocation" EmptyString));
       ("delay", PStr (get elem "delay" EmptyString));
       ("delayexpr", PStr (get elem "delayexpr" EmptyString));
       ("namelist", PStr (get elem "namelist" EmptyString));
       ("params", PList params);
       ("content", PStr EmptyString)] base in
    let a := match ns_findall elem "content" with
             | content_elem :: _ =>
                 dict_set "content" (PStr (text_of content_elem)) a
             | [] => a
             end in
    (a, m)
  else if String.eqb elem_tag "assign" then
    (dict_update [("location", PStr (get elem "location" EmptyString));
                  ("expr", PStr (get elem "expr" EmptyString))] base,
     raise_flag needs_jsengine m)
  else if String.eqb elem_tag "log" then
    (dict_update [("label", PStr (get elem "label" EmptyString));
                  ("expr", PStr (get elem "expr" EmptyString))] base, m)
  else if String.eqb elem_tag "script" then
    (dict_update [("src", PStr (get elem "src" EmptyString));
                  ("content", PStr (text_of elem))] base,
     raise_flag needs_jsengine m)
  else (base, m).

(** The state of the walk: the then-actions, the elseif branches (condition,
    pure-predicate flag, actions), the else-actions, and the current list. *)
Record if_walk : Type := mkIfWalk {
  w_then : list dict;
  w_elseif : list (string * bool * list dict);
  w_else : list dict;
  w_current : branch
}.

(** [current_branch.append(branch_action)] *)
Definition walk_append (a : dict) (w : if_walk) : if_walk :=
  match w_current w with
  | InThen => mkIfWalk (w_then w ++ [a]) (w_elseif w) (w_else w) InThen
  | InElse => mkIfWalk (w_then w) (w_elseif w) (w_else w ++ [a]) InElse
  | InElseif =>
      match reverse (w_elseif w) with
      | (c, p, acts) :: older =>
          mkIfWalk (w_then w) (reverse older ++ [(c, p, acts ++ [a])])
            (w_else w) InElseif
      | [] => w
      end
  end.

(** The [while i < len(children)] loop of the [tag == 'if'] branch. *)
Fixpoint walk_if_children (children : list node) (w : if_walk)
  (m : SCXMLModel) : if_walk * SCXMLModel :=
  match children with
  | [] => (w, m)
  | elem :: rest =>
      if negb (is_element elem) then walk_if_children rest w m
      else
        let elem_tag := localname elem in
        if String.eqb elem_tag "elseif" then
          let elseif_cond := get elem "cond" EmptyString in
          walk_if_children rest
            (mkIfWalk (w_then w)
               (w_elseif w ++ [(elseif_cond, pure_in_flag elseif_cond, [])])
               (w_else w) InElseif) m
        else if String.eqb elem_tag "else" then
          walk_if_children rest
            (mkIfWalk (w_then w) (w_elseif w) (w_else w) InElse) m
        else
          let '(a, m) := parse_branch_action elem m in
          walk_if_children rest (walk_append a w) m
  end.

Definition elseif_dict (b : string * bool * list dict) : pyval :=
  let '(c, p, acts) := b in
  PDict [("cond", PStr c);
         ("is_pure_in_predicate", PBool p);
         ("actions", PList (map PDict acts))].

(** The [tag == 'if'] branch. *)
Definition parse_if (child : node) (m : SCXMLModel) : dict * SCXMLModel :=
  let cond := get child "cond" EmptyString in
  let '(w, m) :=
    walk_if_children (children_of child) (mkIfWalk [] [] [] InThen) m in
  let m := flag_if_requires_jsengine cond m in
  ([("type", PStr "if");
    ("cond", PStr cond);
    ("is_pure_in_predicate", PBool (pure_in_flag cond));
    ("elseif_branches", PList (map elseif_dict (w_elseif w)));
    ("else_actions", PList (map PDict (w_else w)));
    ("then_actions", PList (map PDict (w_then w)))], m).

(** The branches of [_parse_executable_content] that do not recurse. *)
Definition parse_flat_action (tag : string) (child : node) (m : SCXMLModel)
  : dict * SCXMLModel :=
  if String.eqb tag "raise" then
    let ev := get child "event" EmptyString in
    ([("type", PStr tag); ("event", PStr ev)], add_event ev m)
  else if String.eqb tag "send" then parse_send child m
  else if String.eqb tag "assign" then parse_assign child m
  else if String.eqb tag "if" then parse_if child m
  else if String.eqb tag "log" then
    let expr := get child "expr" EmptyString in
    ([("type", PStr tag);
      ("label", PStr (get child "label" EmptyString));
      ("expr", PStr expr)],
     if truthy expr then raise_flag needs_jsengine m else m)
  else if String.eqb tag "script" then
    ([("type", PStr tag);
      ("src", PStr (get child "src" EmptyString));
      ("content", PStr (text_of child))],
     raise_flag needs_jsengine m)
  else if String.eqb tag "cancel" then
    ([("type", PStr tag);
      ("sendid", PStr (get child "sendid" EmptyString));
      ("sendidexpr", PStr (get child "sendidexpr" EmptyString))], m)
  else ([("type", PStr tag)], m).

Fixpoint _parse_executable_content (parent_elem : node) (m : SCXMLModel)
  {struct parent_elem} : list dict * SCXMLModel :=
  match parent_elem with
  | Special _ => ([], m)
  | Element _ _ _ _ children =>
      (fix each (cs : list node) (m : SCXMLModel) {struct cs}
         : list dict * SCXMLModel :=
         match cs with
         | [] => ([], m)
         | child :: cs' =>
             if negb (is_element child) then each cs' m
             else
               let tag := localname child in
               let '(action, m) :=
                 if String.eqb tag "foreach" then
                   let '(body, m) := _parse_executable_content child m in
                   ([("type", PStr tag);
                     ("array", PStr (get child "array" EmptyString));
                     ("item", PStr (get child "item" EmptyString));
                     ("index", PStr (get child "index" EmptyString));
                     ("actions", PList (map PDict body))],
                    raise_flag needs_jsengine m)
                 else parse_flat_action tag child m in
               let '(actions, m) := each cs' m in
               (action :: actions, m)
         end) children m
  end.

(** [_parse_donedata] *)
Definition _parse_donedata (donedata_elem : node) : DoneData :=
  let params :=
    map (fun param_elem =>
           [("name", PStr (get param_elem "name" EmptyString));
            ("expr", PStr (get param_elem "expr" EmptyString));
            ("location", PStr (get param_elem "location" EmptyString))])
        (ns_findall donedata_elem "param") in
  match ns_find donedata_elem "content" with
  | Some content_elem =>
      mkDoneData params
        (if truthy (text_of content_elem) then strip (text_of content_elem)
         else EmptyString)
        (get content_elem "expr" EmptyString)
  | None => mkDoneData params EmptyString EmptyString
  end.

(** The parser object: the model under construction and its two counters. *)
Record parser : Type := mkParser {
  model : SCXMLModel;
  document_order_counter : nat;
  invoke_counter : nat
}.

Definition with_model (f : SCXMLModel -> SCXMLModel) (ps : parser) : parser :=
  mkParser (f (model ps)) (document_order_counter ps) (invoke_counter ps).

Definition is_scxml_type (t : string) (with_bare_uri : bool) : bool :=
  String.eqb t EmptyString || String.eqb t "scxml"
  || (with_bare_uri && String.eqb t "http://www.w3.org/TR/scxml")
  || String.eqb t "http://www.w3.org/TR/scxml/".

Definition _parse_invoke (invoke_elem : node) (ps : parser)
  : Invoke * parser :=
  let '(invoke_id, ps) :=
    let given := get invoke_elem "id" EmptyString in
    if truthy given then (given, ps)
    else ("_invoke_" +:+ pretty (invoke_counter ps),
          mkParser (model ps) (document_order_counter ps)
            (S (invoke_counter ps))) in
  let i_type := get invoke_elem "type" EmptyString in
  let i_src := get invoke_elem "src" EmptyString in
  let i_srcexpr := get invoke_elem "srcexpr" EmptyString in
  let i_namelist := get invoke_elem "namelist" EmptyString in
  let '(i_contentexpr, i_content, i_scxml, i_has_inline) :=
    match ns_find invoke_elem "content" with
    | Some content_elem =>
        let contentexpr := get content_elem "expr" EmptyString in
        match ns_find content_elem "scxml" with
        | Some child_scxml =>
            (contentexpr, EmptyString, Some child_scxml, Some true)
        | None => (contentexpr, contentexpr, None, Some false)
        end
    | None => (EmptyString, EmptyString, None, None)
    end in
  let params :=
    map (fun param =>
           [("name", opt_str (get_opt param "name"));
            ("expr", PStr (get param "expr" EmptyString));
            ("location", PStr (get param "location" EmptyString))])
        (ns_findall invoke_elem "param") in
  let '(finalize, ps) :=
    match ns_find invoke_elem "finalize" with
    | Some finalize_elem =>
        let '(acts, m) :=
          _parse_executable_content finalize_elem
            (model ps) in
        (acts, with_model (fun _ => m) ps)
    | None => ([], ps)
    end in
  let has_static_child :=
    negb (String.eqb i_src EmptyString) || default false i_has_inline in
  let is_static_invoke :=
    is_scxml_type i_type false
    && String.eqb i_srcexpr EmptyString
    && String.eqb i_contentexpr EmptyString
    && has_static_child in
  let is_hybrid_invoke :=
    is_scxml_type i_type true
    && (negb (String.eqb i_srcexpr EmptyString)
        || negb (String.eqb i_contentexpr EmptyString)) in
  let is_dynamic_file_invoke := false in
  let ps :=
    if is_hybrid_invoke
    then with_model (fun m => raise_flag needs_jsengine
                                (raise_flag has_hybrid_invoke m)) ps
    else ps in
  let ps :=
    if is_static_invoke && truthy i_namelist
    then with_model (raise_flag needs_jsengine) ps else ps in
  let ps :=
    if is_dynamic_file_invoke
    then with_model (fun m => raise_flag has_dynamic_expressions
                                (raise_flag has_dynamic_file_invoke m)) ps
    else ps in
  (mkInvoke i_type i_src i_srcexpr invoke_id
     (get invoke_elem "idlocation" EmptyString)
     (get invoke_elem "autoforward" "false")
     i_namelist params finalize i_content i_contentexpr i_scxml i_has_inline
     is_static_invoke is_hybrid_invoke is_dynamic_file_invoke, ps).

Definition _parse_transition (trans_elem : node) (m : SCXMLModel)
  : Transition * SCXMLModel :=
  let cond :=
    let c := get trans_elem "cond" EmptyString in
    if truthy c then c else get trans_elem "expr" EmptyString in
  let is_pure_in := pure_in_flag cond in
  let '(actions, m) :=
    _parse_executable_content trans_elem m in
  let m := if truthy cond then flag_if_requires_jsengine cond m else m in
  (mkTransition (get trans_elem "event" EmptyString)
     (get trans_elem "target" EmptyString) cond is_pure_in
     (get trans_elem "type" "external") actions None None, m).

Definition wildcards : list string := ["*"; ".*"; "_*"].

(** The event names a transition contributes to [model.events]. *)
Definition collect_transition_events (t : Transition) (m : SCXMLModel)
  : SCXMLModel :=
  if truthy (tr_event t) && negb (in_list (tr_event t) wildcards) then
    fold_left
      (fun m event =>
         if negb (in_list event wildcards) && negb (endswith event ".*")
         then add_event event m else m)
      (split (tr_event t)) m
  else m.

(** The loop over the [<transition>] children of a state or parallel. *)
Fixpoint parse_transitions (elems : list node) (m : SCXMLModel)
  : list Transition * SCXMLModel :=
  match elems with
  | [] => ([], m)
  | trans_elem :: rest =>
      let '(t, m) := _parse_transition trans_elem m in
      let m := collect_transition_events t m in
      let '(ts, m) := parse_transitions rest m in
      (t :: ts, m)
  end.

(** [for e in ns_findall(elem, tag): acc.extend(_parse_executable_content(e))] *)
Fixpoint parse_blocks (elems : list node) (m : SCXMLModel)
  : list dict * SCXMLModel :=
  match elems with
  | [] => ([], m)
  | e :: rest =>
      let '(acts, m) := _parse_executable_content e m in
      let '(more, m) := parse_blocks rest m in
      (acts ++ more, m)
  end.

Definition _parse_datamodel (root : node) (m : SCXMLModel) : SCXMLModel :=
  fold_left
    (fun m data =>
       let src := get data "src" EmptyString in
       let content :=
         if negb (truthy src) then inline_content data
         else EmptyString in
       raise_flag needs_jsengine
         (set_variables
            (variables m ++
             [mkDataVar (get_opt data "id") (get data "expr" EmptyString) src
                (strip content) None]) m))
    (List.concat (map (fun datamodel => ns_findall datamodel "data")
                 (ns_findall root "datamodel"))) m.

Definition _parse_global_scripts (scxml_path : string) (root : node)
  (m : SCXMLModel) : result SCXMLModel :=
  fold_left
    (fun (r : result SCXMLModel) script_elem =>
       match r with
       | Raise e => Raise e
       | Ok m =>
           let src := get script_elem "src" EmptyString in
           let loaded :=
             if truthy src then load_external_script scxml_path src
             else Some (text_of script_elem) in
           match loaded with
           | None =>
               Raise (ValueError "W3C SCXML 5.8: external script not loaded")
           | Some content =>
               Ok (raise_flag needs_jsengine
                     (set_global_scripts
                        (global_scripts m ++
                         [[("type", PStr "script"); ("src", PStr src);
                           ("content", PStr (strip content))]]) m))
           end
       end)
    (ns_findall root "script") (Ok m).


(** The loop over the [<invoke>] children of a state: the invoke
    dictionaries, and the indices of the static and hybrid records appended
    to the model's lists (the state's lists hold the same objects). *)
Fixpoint parse_invokes (state_id : string) (elems : list node) (ps : parser)
  : list Invoke * list nat * list nat * parser :=
  match elems with
  | [] => ([], [], [], ps)
  | invoke_elem :: rest =>
      let '(invoke, ps) := _parse_invoke invoke_elem ps in
      let ps := with_model (raise_flag has_invoke) ps in
      let autoforward := String.eqb (iv_autoforward invoke) "true" in
      let '(si, hi, ps) :=
        if iv_is_hybrid invoke then
          let h := mkHybridInvoke (iv_id invoke) state_id (iv_srcexpr invoke)
                     (iv_contentexpr invoke) autoforward (iv_params invoke)
                     (iv_idlocation invoke) None in
          ([], [List.length (hybrid_invokes (model ps))],
           with_model (fun m => set_hybrid_invokes (hybrid_invokes m ++ [h]) m)
             ps)
        else if iv_is_dynamic_file invoke then ([], [], ps)
        else if iv_is_static invoke then
          let s := mkStaticInvoke (iv_id invoke) EmptyString state_id
                     autoforward (iv_src invoke) (iv_params invoke)
                     (iv_idlocation invoke) (iv_namelist invoke)
                     None None None in
          ([List.length (static_invokes (model ps))], [],
           with_model (fun m => set_static_invokes (static_invokes m ++ [s]) m)
             ps)
        else ([], [], ps) in
      let '(invokes, sis, his, ps) := parse_invokes state_id rest ps in
      (invoke :: invokes, si ++ sis, hi ++ his, ps)
  end.

(** [self.document_order_counter += 1], giving the value before. *)
Definition next_document_order (ps : parser) : nat * parser :=
  (document_order_counter ps,
   mkParser (model ps) (S (document_order_counter ps)) (invoke_counter ps)).

(** Lift a step on the model to the parser. *)
Definition on_model {A : Type} (f : SCXMLModel -> A * SCXMLModel)
  (ps : parser) : A * parser :=
  let '(a, m) := f (model ps) in (a, with_model (fun _ => m) ps).

(** The body of the [<state>] loop of [_parse_states] up to the point where
    the state is stored in [model.states]. *)
Definition parse_state_elem (state_elem : node) (state_id : string)
  (parent_id : option string) (ps : parser) : State * parser :=
  let '(order, ps) := next_document_order ps in
  let '(transitions, ps) :=
    on_model (parse_transitions (ns_findall state_elem "transition")) ps in
  let '(on_entry, ps) :=
    on_model (parse_blocks (ns_findall state_elem "onentry")) ps in
  let '(on_exit, ps) :=
    on_model (parse_blocks (ns_findall state_elem "onexit")) ps in
  let attr_initial := get state_elem "initial" EmptyString in
  let '(initial_actions, st_init, ps) :=
    match ns_find state_elem "initial" with
    | Some initial_elem =>
        match ns_find initial_elem "transition" with
        | Some initial_trans_elem =>
            let '(acts, ps) :=
              on_model (_parse_executable_content initial_trans_elem) ps in
            let initial_target := get initial_trans_elem "target" EmptyString in
            (acts,
             if negb (truthy attr_initial) && truthy initial_target
             then initial_target else attr_initial,
             ps)
        | None => ([], attr_initial, ps)
        end
    | None => ([], attr_initial, ps)
    end in
  let datamodel :=
    map (fun data =>
           mkDataVar (get_opt data "id") (get data "expr" EmptyString)
             (get data "src" EmptyString) (strip (text_of data)) None)
        (List.concat (map (fun dm => ns_findall dm "data")
                          (ns_findall state_elem "datamodel"))) in
  let '(invokes, sis, his, ps) :=
    parse_invokes state_id (ns_findall state_elem "invoke") ps in
  (mkState state_id st_init [] false false parent_id transitions on_entry
     on_exit datamodel invokes sis his None order initial_actions
     EmptyString EmptyString [], ps).

(** [self.model.states[id] = state] *)
Definition store_state (s : State) (ps : parser) : parser :=
  with_model (fun m => set_states (dict_set (st_id s) s (states m)) m) ps.

(** The child of [state_id] with the least document order among the entries
    of [model.states] that are not keys of [model.history_states]. *)
Definition first_child_of (state_id : string) (m : SCXMLModel)
  : option State :=
  fold_left
    (fun (first_child : option State) (kv : string * State) =>
       let '(child_id, child_state) := kv in
       if bool_decide (st_parent child_state = Some state_id) then
         if dict_mem child_id (history_states m) then first_child
         else
           match first_child with
           | None => Some child_state
           | Some fc =>
               if (st_document_order child_state <? st_document_order fc)%nat
               then Some child_state else first_child
           end
       else first_child)
    (states m) None.

(** An assignment to an attribute of the object [state].  The dictionary
    shows it when it still holds that object under the state's id; a later
    state with the same id has replaced it otherwise.  Objects are told
    apart by their document order, which no two states of a run share. *)
Definition mutate_state (state : State) (f : State -> State) (m : SCXMLModel)
  : SCXMLModel :=
  match state_of m (st_id state) with
  | Some s =>
      if (st_document_order s =? st_document_order state)%nat
      then set_states (dict_set (st_id state) (f s) (states m)) m
      else m
  | None => m
  end.

(** The end of the [<state>] loop body: a state with no [initial] takes its
    first child. *)
Definition fill_default_initial (state : State) (m : SCXMLModel)
  : SCXMLModel :=
  if negb (truthy (st_initial state)) then
    match first_child_of (st_id state) m with
    | Some first_child =>
        mutate_state state (set_st_initial (st_id first_child)) m
    | None => m
    end
  else m.

(** The body of the [<final>] loop. *)
Definition parse_final_elem (final_elem : node) (final_id : string)
  (parent_id : option string) (ps : parser) : parser :=
  let '(order, ps) := next_document_order ps in
  let '(on_entry, ps) :=
    on_model (parse_blocks (ns_findall final_elem "onentry")) ps in
  let '(on_exit, ps) :=
    on_model (parse_blocks (ns_findall final_elem "onexit")) ps in
  let donedata := option_map _parse_donedata (ns_find final_elem "donedata") in
  store_state
    (mkState final_id EmptyString [] true false parent_id [] on_entry on_exit
       [] [] [] [] donedata order [] EmptyString EmptyString []) ps.

(** The body of the [<parallel>] loop up to the recursive call. *)
Definition parse_parallel_elem (parallel_elem : node) (parallel_id : string)
  (parent_id : option string) (ps : parser) : parser :=
  let '(order, ps) := next_document_order ps in
  let '(transitions, ps) :=
    on_model (parse_transitions (ns_findall parallel_elem "transition")) ps in
  let '(on_entry, ps) :=
    on_model (parse_blocks (ns_findall parallel_elem "onentry")) ps in
  let '(on_exit, ps) :=
    on_model (parse_blocks (ns_findall parallel_elem "onexit")) ps in
  with_model (raise_flag has_parallel_states)
    (store_state
       (mkState parallel_id EmptyString [] false true parent_id transitions
          on_entry on_exit [] [] [] [] None order [] EmptyString EmptyString
          []) ps).

(** The first [<transition>] of a history element that has a target, with
    its parsed content. *)
Fixpoint history_default (elems : list node) (m : SCXMLModel)
  : option (string * list dict) * SCXMLModel :=
  match elems with
  | [] => (None, m)
  | trans_elem :: rest =>
      match get_opt trans_elem "target" with
      | Some target =>
          if truthy target then
            let '(acts, m) := _parse_executable_content trans_elem m in
            (Some (target, acts), m)
          else history_default rest m
      | None => history_default rest m
      end
  end.

(** The body of the [<history>] loop. *)
Definition parse_history_elem (history_elem : node) (history_id : string)
  (parent_id : option string) (m : SCXMLModel) : SCXMLModel :=
  let history_type := get history_elem "type" "shallow" in
  let '(dflt, m) :=
    history_default (ns_findall history_elem "transition") m in
  match dflt with
  | Some (default_target, default_actions) =>
      raise_flag has_history_states
        (set_history_states
           (dict_set history_id
              (mkHistoryInfo parent_id history_type default_target
                 default_actions None) (history_states m))
           (set_history_default_targets
              (dict_set history_id default_target (history_default_targets m))
              m))
  | None => m
  end.

(** [elem.get('id')] when it is there and not empty. *)
Definition element_id (e : node) : option string :=
  match get_opt e "id" with
  | Some i => if truthy i then Some i else None
  | None => None
  end.

(** [_parse_states(parent_elem, parent_id)]: the four loops over the
    children named [state], [final], [parallel] and [history]. *)
Fixpoint _parse_states (parent_elem : node) (parent_id : option string)
  (ps : parser) {struct parent_elem} : parser :=
  match parent_elem with
  | Special _ => ps
  | Element _ _ _ _ children =>
      let ps :=
        (fix each_state (cs : list node) (ps : parser) {struct cs} : parser :=
           match cs with
           | [] => ps
           | state_elem :: cs' =>
               if is_sc "state" state_elem then
                 match element_id state_elem with
                 | Some state_id =>
                     let '(state, ps) :=
                       parse_state_elem state_elem state_id parent_id ps in
                     let ps := store_state state ps in
                     let ps := _parse_states state_elem (Some state_id) ps in
                     let ps := with_model (fill_default_initial state) ps in
                     each_state cs' ps
                 | None => each_state cs' ps
                 end
               else each_state cs' ps
           end) children ps in
      let ps :=
        fold_left
          (fun ps final_elem =>
             match element_id final_elem with
             | Some final_id =>
                 parse_final_elem final_elem final_id parent_id ps
             | None => ps
             end)
          (ns_findall parent_elem "final") ps in
      let ps :=
        (fix each_parallel (cs : list node) (ps : parser) {struct cs}
           : parser :=
           match cs with
           | [] => ps
           | parallel_elem :: cs' =>
               if is_sc "parallel" parallel_elem then
                 match element_id parallel_elem with
                 | Some parallel_id =>
                     let ps :=
                       parse_parallel_elem parallel_elem parallel_id
                         parent_id ps in
                     let ps :=
                       _parse_states parallel_elem (Some parallel_id) ps in
                     each_parallel cs' ps
                 | None => each_parallel cs' ps
                 end
               else each_parallel cs' ps
           end) children ps in
      fold_left
        (fun ps history_elem =>
           match element_id history_elem with
           | Some history_id =>
               with_model
                 (parse_history_elem history_elem history_id parent_id) ps
           | None => ps
           end)
        (ns_findall parent_elem "history") ps
  end.

(** [_detect_features]: event metadata in guards. *)
Definition _detect_features (m : SCXMLModel) : SCXMLModel :=
  if existsb
       (fun kv : string * State =>
          existsb
            (fun t =>
               truthy (tr_cond t) &&
               existsb (fun field => contains field (tr_cond t))
                 EVENT_METADATA_FIELDS)
            (st_transitions (snd kv)))
       (states m)
  then raise_flag needs_jsengine (raise_flag has_event_metadata m)
  else m.


(** *** Normalization phases *)

Definition MAX_DEPTH : nat := 20.

(** The [while depth < MAX_DEPTH] loop of [_resolve_deep_initial], [n] being
    the hops still allowed: [None] when the loop leaves the function through
    [return] (the current state is not in the model), the state the loop
    ends at otherwise. *)
Fixpoint deep_initial_loop (n : nat) (m : SCXMLModel) (current : string)
  : option string :=
  match n with
  | O => Some current
  | S n' =>
      match state_of m current with
      | None => None
      | Some state =>
          if truthy (st_initial state) && has_state m (st_initial state)
          then deep_initial_loop n' m (st_initial state)
          else Some current
      end
  end.

Definition _resolve_deep_initial (m : SCXMLModel) : result SCXMLModel :=
  if negb (truthy (initial m)) then Ok m
  else
    let initial_states := split (initial m) in
    let resolve (initial_states : list string) :=
      match initial_states with
      | [] => Raise IndexError
      | current :: _ =>
          match deep_initial_loop MAX_DEPTH m current with
          | None => Ok m
          | Some leaf => Ok (set_initial leaf m)
          end
      end in
    if (1 <? List.length initial_states)%nat then
      if forallb (has_state m) initial_states then Ok m
      else resolve [initial m]
    else resolve initial_states.

(** One turn of the loop of [_apply_parallel_initial_overrides]. *)
Definition override_parent_initial (m : SCXMLModel) (state_id : string)
  : SCXMLModel :=
  match state_of m state_id with
  | None => m
  | Some state =>
      match st_parent state with
      | None => m
      | Some parent_id =>
          if negb (truthy parent_id) || negb (has_state m parent_id) then m
          else update_state parent_id (set_st_initial state_id) m
      end
  end.

Definition _apply_parallel_initial_overrides (m : SCXMLModel) : SCXMLModel :=
  if negb (truthy (initial m)) then m
  else
    let initial_states := split (initial m) in
    match initial_states with
    | first :: _ :: _ =>
        set_initial first (fold_left override_parent_initial initial_states m)
    | _ => m
    end.

(** The loop of [_resolve_to_leaf_state]. *)
Fixpoint leaf_loop (n : nat) (m : SCXMLModel) (current : string) : string :=
  match n with
  | O => current
  | S n' =>
      match state_of m current with
      | None => current
      | Some state =>
          if truthy (st_initial state) && has_state m (st_initial state)
          then leaf_loop n' m (st_initial state)
          else current
      end
  end.

Definition _resolve_to_leaf_state (m : SCXMLModel) (state_id : string)
  : string :=
  leaf_loop MAX_DEPTH m state_id.

Definition map_states (f : State -> State) (m : SCXMLModel) : SCXMLModel :=
  set_states (map (fun kv : string * State => (fst kv, f (snd kv))) (states m))
    m.

(** [_resolve_history_targets].  The two history dictionaries have the same
    keys, so the lookup in the third loop finds its entry. *)
Definition _resolve_history_targets (m : SCXMLModel) : SCXMLModel :=
  match history_default_targets m with
  | [] => m
  | _ =>
      let m :=
        set_history_states
          (map (fun kv : string * HistoryInfo =>
                  let info := snd kv in
                  (fst kv,
                   mkHistoryInfo (h_parent info) (h_type info)
                     (h_default_target info) (h_default_actions info)
                     (Some (_resolve_to_leaf_state m (h_default_target info)))))
               (history_states m)) m in
      let m :=
        map_states
          (fun state =>
             set_st_transitions
               (map (fun t =>
                       if dict_mem (tr_target t) (history_default_targets m)
                       then match tr_history_target t with
                            | None => set_tr_history_target
                                        (Some (tr_target t)) t
                            | Some _ => t
                            end
                       else t)
                    (st_transitions state)) state) m in
      map_states
        (fun state =>
           if dict_mem (st_initial state) (history_default_targets m) then
             match assoc (st_initial state) (history_states m) with
             | Some history_info =>
                 set_st_initial_history (st_initial state)
                   (default EmptyString (h_leaf_target history_info))
                   (h_default_actions history_info) state
             | None => state
             end
           else state) m
  end.

Definition _compute_parallel_regions (m : SCXMLModel) : SCXMLModel :=
  fold_left
    (fun m (kv : string * State) =>
       let '(state_id, state) := kv in
       if st_is_parallel state then
         let child_regions :=
           map fst
             (filter (fun kv' : string * State =>
                        st_parent (snd kv') = Some state_id) (states m)) in
         set_parallel_regions
           (dict_set state_id child_regions (parallel_regions m)) m
       else m)
    (states m) m.

Definition _detect_transition_actions (m : SCXMLModel) : SCXMLModel :=
  if existsb
       (fun kv : string * State =>
          existsb (fun t => negb (bool_decide (tr_actions t = [])))
            (st_transitions (snd kv)))
       (states m)
  then raise_flag has_transition_actions m
  else clear_flag has_transition_actions m.

Definition _add_done_state_events (m : SCXMLModel) : SCXMLModel :=
  fold_left
    (fun acc (kv : string * State) =>
       let '(state_id, state) := kv in
       if st_is_parallel state then acc
       else if existsb
                 (fun kv' : string * State =>
                    bool_decide (st_parent (snd kv') = Some state_id)
                    && st_is_final (snd kv'))
                 (states m)
            then add_event ("done.state." +:+ state_id) acc
            else acc)
    (states m) m.

(** [list[i] = f(list[i])], nothing when [i] is out of range. *)
Definition update_nth {A : Type} (i : nat) (f : A -> A) (l : list A)
  : list A :=
  match l !! i with
  | Some x => <[ i := f x ]> l
  | None => l
  end.

Definition set_si_use_specific_event (b : bool) (s : StaticInvoke)
  : StaticInvoke :=
  mkStaticInvoke (si_invoke_id s) (si_child_name s) (si_state_name s)
    (si_autoforward s) (si_src s) (si_params s) (si_idlocation s)
    (si_namelist s) (si_child_needs_jsengine s) (si_child_datamodel_vars s)
    (Some b).

Definition set_hi_use_specific_event (b : bool) (h : HybridInvoke)
  : HybridInvoke :=
  mkHybridInvoke (hi_invoke_id h) (hi_state_name h) (hi_srcexpr h)
    (hi_contentexpr h) (hi_autoforward h) (hi_params h) (hi_idlocation h)
    (Some b).

Definition _set_invoke_event_flags (m : SCXMLModel) : SCXMLModel :=
  let used_done_invoke_events : list string :=
    List.concat
      (map (fun kv : string * State =>
              map tr_event
                (filter (fun t => truthy (tr_event t)
                                  && startswith (tr_event t) "done.invoke."
                                  = true)
                        (st_transitions (snd kv))))
           (states m)) in
  let uses (invoke_id : string) : bool :=
    in_list ("done.invoke." +:+ invoke_id) used_done_invoke_events in
  fold_left
    (fun m (kv : string * State) =>
       let m :=
         fold_left
           (fun m i =>
              set_static_invokes
                (update_nth i
                   (fun s => set_si_use_specific_event
                               (uses (si_invoke_id s)) s)
                   (static_invokes m)) m)
           (st_static_invokes (snd kv)) m in
       fold_left
         (fun m i =>
            set_hybrid_invokes
              (update_nth i
                 (fun h => set_hi_use_specific_event (uses (hi_invoke_id h)) h)
                 (hybrid_invokes m)) m)
         (st_hybrid_invokes (snd kv)) m)
    (states m) m.

(** The first target of [state.initial] that is no state of the model. *)
Definition invalid_initial_target (m : SCXMLModel) (state : State)
  : option string :=
  if truthy (st_initial state)
  then head (filter (fun child_id => has_state m child_id = false)
               (split (st_initial state)))
  else None.

(** [_parse_initial_children]: the first state, in the order of
    [model.states], with an invalid target raises; with none, every state
    gets its list. *)
Definition _parse_initial_children (m : SCXMLModel) : result SCXMLModel :=
  match
    omap (fun kv : string * State =>
            match invalid_initial_target m (snd kv) with
            | Some child_id => Some (snd kv, child_id)
            | None => None
            end) (states m)
  with
  | (state, child_id) :: _ =>
      Raise (ValueError
        ("W3C SCXML 3.6: Invalid initial target '" +:+ child_id
         +:+ "' in state '" +:+ st_id state +:+ "'. "
         +:+ "Initial attribute references non-existent state."))
  | [] =>
      Ok (map_states
            (fun state =>
               set_st_initial_children
                 (if truthy (st_initial state) then split (st_initial state)
                  else []) state) m)
  end.

(** *** Invoked children *)

Section WithChildParser.

(** [SCXMLParser().parse_file(path)] for a child document. *)
Variable parse_child : filesystem -> string -> filesystem * result SCXMLModel.

(** [path.exists()] *)
Definition exists_file (fs : filesystem) (path : string) : bool :=
  bool_decide (is_Some (fs !! path)).

Definition set_si_child (src child_name : string) (s : StaticInvoke)
  : StaticInvoke :=
  mkStaticInvoke (si_invoke_id s) child_name (si_state_name s)
    (si_autoforward s) src (si_params s) (si_idlocation s)
    (si_namelist s) (si_child_needs_jsengine s) (si_child_datamodel_vars s)
    (si_use_specific_event s).

Definition set_si_child_info (needs : bool) (vars : list (option string))
  (s : StaticInvoke) : StaticInvoke :=
  mkStaticInvoke (si_invoke_id s) (si_child_name s) (si_state_name s)
    (si_autoforward s) (si_src s) (si_params s) (si_idlocation s)
    (si_namelist s) (Some needs) (Some vars) (si_use_specific_event s).

Definition set_si_invoke_id (v : string) (s : StaticInvoke) : StaticInvoke :=
  mkStaticInvoke v (si_child_name s) (si_state_name s)
    (si_autoforward s) (si_src s) (si_params s) (si_idlocation s)
    (si_namelist s) (si_child_needs_jsengine s) (si_child_datamodel_vars s)
    (si_use_specific_event s).

(** The local variables of [_process_static_invokes], the model and the
    files.  [child_datamodel_vars] is unbound until the external-source
    branch first assigns it, and keeps its value from one invoke to the
    next. *)
Record static_pass : Type := mkStaticPass {
  sp_fs : filesystem;
  sp_model : SCXMLModel;
  sp_invoke_count : list (string * nat);
  sp_inline_child_count : nat;
  sp_child_datamodel_vars : option (list (option string))
}.

Definition sp_update_invoke (i : nat) (f : StaticInvoke -> StaticInvoke)
  (m : SCXMLModel) : SCXMLModel :=
  set_static_invokes (update_nth i f (static_invokes m)) m.

(** [src[5:]] and the like. *)
Fixpoint str_drop (n : nat) (s : string) : string :=
  match n, s with
  | O, _ => s
  | S k, String _ s' => str_drop k s'
  | S _, EmptyString => EmptyString
  end.

(** The end of the loop body: an id for a static invoke that has none. *)
Definition generate_invoke_id (i : nat) (sp : static_pass) : static_pass :=
  match static_invokes (sp_model sp) !! i with
  | Some matching_static =>
      if negb (truthy (si_invoke_id matching_static)) then
        let state_name := si_state_name matching_static in
        let n := default O (assoc state_name (sp_invoke_count sp)) in
        mkStaticPass (sp_fs sp)
          (sp_update_invoke i
             (set_si_invoke_id (state_name +:+ "_invoke_" +:+ pretty n))
             (sp_model sp))
          (dict_set state_name (S n) (sp_invoke_count sp))
          (sp_inline_child_count sp) (sp_child_datamodel_vars sp)
      else sp
  | None => sp
  end.

(** The body of the loop of [_process_static_invokes] for one invoke of one
    state. *)
Definition process_static_invoke (scxml_path : string) (state : State)
  (invoke : Invoke) (sp : static_pass) : result static_pass :=
  if negb (iv_is_static invoke) then Ok sp
  else
    let m := sp_model sp in
    let matching :=
      head (filter
              (fun i => match static_invokes m !! i with
                        | Some si => String.eqb (si_src si) (iv_src invoke)
                        | None => false
                        end = true)
              (st_static_invokes state)) in
    match matching with
    | None => Ok sp
    | Some i =>
        if default false (iv_has_inline_scxml invoke) then
          match iv_content_scxml invoke with
          | None => Ok sp
          | Some child_scxml_elem =>
              let original_child_name :=
                get child_scxml_elem "name" EmptyString in
              let '(child_name, count) :=
                if truthy original_child_name
                then (name m +:+ "_" +:+ original_child_name,
                      sp_inline_child_count sp)
                else (name m +:+ "_child" +:+ pretty (sp_inline_child_count sp),
                      S (sp_inline_child_count sp)) in
              let child_scxml_path :=
                sibling_path scxml_path (child_name +:+ ".scxml") in
              let fs :=
                <[ child_scxml_path := XmlFile (reread child_scxml_elem) ]>
                  (sp_fs sp) in
              let m :=
                sp_update_invoke i
                  (set_si_child (child_name +:+ ".scxml") child_name) m in
              let '(fs, r) := parse_child fs child_scxml_path in
              let m :=
                match r with
                | Ok child_model =>
                    sp_update_invoke i
                      (set_si_child_info
                         (flag_of child_model needs_jsengine)
                         (map dv_id (variables child_model))) m
                | Raise _ => sp_update_invoke i (set_si_child_info true []) m
                end in
              Ok (generate_invoke_id i
                    (mkStaticPass fs m (sp_invoke_count sp) count
                       (sp_child_datamodel_vars sp)))
          end
        else if truthy (iv_src invoke) then
          let src :=
            if startswith (iv_src invoke) "file:"
            then str_drop 5 (iv_src invoke) else iv_src invoke in
          let child_name := path_stem src in
          let m :=
            sp_update_invoke i
              (fun si => set_si_child (si_src si) child_name si) m in
          let child_scxml_path :=
            sibling_path scxml_path (child_name +:+ ".scxml") in
          let '(fs, child_needs_jsengine, vars) :=
            if exists_file (sp_fs sp) child_scxml_path then
              let '(fs, r) := parse_child (sp_fs sp) child_scxml_path in
              match r with
              | Ok child_model =>
                  (fs, flag_of child_model needs_jsengine,
                   Some (map dv_id (variables child_model)))
              | Raise _ => (fs, true, Some [])
              end
            else (sp_fs sp, false, sp_child_datamodel_vars sp) in
          match vars with
          | None => Raise UnboundLocalError
          | Some child_datamodel_vars =>
              Ok (generate_invoke_id i
                    (mkStaticPass fs
                       (sp_update_invoke i
                          (set_si_child_info child_needs_jsengine
                             child_datamodel_vars) m)
                       (sp_invoke_count sp) (sp_inline_child_count sp)
                       (Some child_datamodel_vars)))
          end
        else Ok (generate_invoke_id i sp)
    end.

Definition _process_static_invokes (scxml_path : string) (fs : filesystem)
  (m : SCXMLModel) : filesystem * result SCXMLModel :=
  let work : list (State * Invoke) :=
    List.concat
      (map (fun kv : string * State =>
              map (fun invoke => (snd kv, invoke)) (st_invokes (snd kv)))
           (states m)) in
  let '(fs, r) :=
    fold_left
      (fun (acc : filesystem * result static_pass) (w : State * Invoke) =>
         match snd acc with
         | Raise e => acc
         | Ok sp =>
             match process_static_invoke scxml_path (fst w) (snd w) sp with
             | Ok sp' => (sp_fs sp', Ok sp')
             | Raise e => (sp_fs sp, Raise e)
             end
         end)
      work (fs, Ok (mkStaticPass fs m [] 0 None)) in
  (fs, match r with Ok sp => Ok (sp_model sp) | Raise e => Raise e end).

(** The events of the [<send target="#_parent">] actions of a list. *)
Definition parent_events_of (actions : list dict) : list string :=
  omap (fun action =>
          if is_str (dict_get "type" action) "send"
             && is_str (dict_get "target" action) "#_parent"
          then
            let event := dict_str "event" action in
            if truthy event then Some event else None
          else None) actions.

(** The scan of [_collect_child_to_parent_events] over a child model. *)
Definition child_parent_events (child_model : SCXMLModel) : list string :=
  List.concat
    (map (fun kv : string * State =>
            let child_state := snd kv in
            parent_events_of (st_on_entry child_state ++ st_on_exit child_state)
            ++ List.concat (map (fun t => parent_events_of (tr_actions t))
                                (st_transitions child_state))
            ++ parent_events_of (st_initial_transition_actions child_state))
         (states child_model)).

Definition _collect_child_to_parent_events (scxml_path : string)
  (fs : filesystem) (m : SCXMLModel) : filesystem * SCXMLModel :=
  match static_invokes m with
  | [] => (fs, m)
  | invokes =>
      let '(fs, m, _) :=
        fold_left
          (fun (acc : filesystem * SCXMLModel * list string) static_invoke =>
             let '(fs, m, parsed_children) := acc in
             let child_name := si_child_name static_invoke in
             if negb (truthy child_name) then acc
             else if in_list child_name parsed_children then acc
             else
               let child_scxml_path :=
                 sibling_path scxml_path (child_name +:+ ".scxml") in
               if negb (exists_file fs child_scxml_path) then acc
               else
                 let '(fs, r) := parse_child fs child_scxml_path in
                 match r with
                 | Ok child_model =>
                     (fs,
                      fold_left (fun m event => add_event event m)
                        (child_parent_events child_model) m,
                      parsed_children ++ [child_name])
                 | Raise _ => (fs, m, parsed_children)
                 end)
          invokes (fs, m, []) in
      (fs, m)
  end.

(** Sequencing of steps that may raise, the files being kept either way. *)
Definition and_then {A B : Type} (x : filesystem * result A)
  (k : filesystem -> A -> filesystem * result B) : filesystem * result B :=
  match snd x with
  | Ok a => k (fst x) a
  | Raise e => (fst x, Raise e)
  end.

(** [parse_file] from the root that [etree.parse] returned. *)
Definition parse_root (scxml_path : string) (fs : filesystem) (root : node)
  : filesystem * result SCXMLModel :=
  let attr_initial := get root "initial" EmptyString in
  let document_initial :=
    if negb (truthy attr_initial) then
      let first_state :=
        match ns_find root "state" with
        | Some e => Some e
        | None =>
            match ns_find root "parallel" with
            | Some e => Some e
            | None => ns_find root "final"
            end
        end in
      match first_state with
      | Some e => get e "id" EmptyString
      | None => attr_initial
      end
    else attr_initial in
  let m := new_model (path_stem scxml_path) document_initial
             (get root "binding" "early")
             (get root "datamodel" "ecmascript") in
  let m := _parse_datamodel root m in
  and_then (fs, _parse_global_scripts scxml_path root m) (fun fs m =>
  let m := model (_parse_states root None (mkParser m 0 0)) in
  let m := _detect_features m in
  and_then (_process_static_invokes scxml_path fs m) (fun fs m =>
  and_then (fs, _resolve_deep_initial m) (fun fs m =>
  let m := _apply_parallel_initial_overrides m in
  let m := _resolve_history_targets m in
  let m := if truthy (initial m)
           then set_initial_leaf (_resolve_to_leaf_state m (initial m)) m
           else m in
  let m := _compute_parallel_regions m in
  let m := _detect_transition_actions m in
  let m := _add_done_state_events m in
  let m := _set_invoke_event_flags m in
  let '(fs, m) := _collect_child_to_parent_events scxml_path fs m in
  (fs, _parse_initial_children m)))).

End WithChildParser.

(** [SCXMLParser().parse_file(scxml_path)].  [fuel] bounds the nesting of
    parsers, as the interpreter's recursion limit does: a document that
    invokes itself ends in [RecursionError] at the innermost parser. *)
Fixpoint parse_file (fuel : nat) (fs : filesystem) (scxml_path : string)
  : filesystem * result SCXMLModel :=
  match fuel with
  | O => (fs, Raise RecursionError)
  | S fuel' =>
      match fs !! scxml_path with
      | None => (fs, Raise OSError)
      | Some OtherFile => (fs, Raise XMLSyntaxError)
      | Some (XmlFile root) =>
          parse_root (parse_file fuel') scxml_path fs root
      end
  end.

End WithEnvironment.
End Parser.

(** ** The code generator ([codegen.py]) *)

Module CodeGen.
Import PyStr Xml Model Classifier Parser.

(** Fold [f] over the actions stored in a list value. *)
Definition over_actions (f : pyval -> SCXMLModel -> SCXMLModel) (v : pyval)
  (m : SCXMLModel) : SCXMLModel :=
  match v with
  | PList l => fold_left (fun m a => f a m) l m
  | _ => m
  end.

(** The part of [_analyze_action] that does not recurse. *)
Definition analyze_flat (action : dict) (m : SCXMLModel) : SCXMLModel :=
  let action_type := dict_str "type" action in
  if String.eqb action_type "send" then
    let m := add_event "error.execution" (raise_flag needs_send_helper m) in
    let m := if py_truthy (dict_get "params" action)
             then raise_flag needs_event_data_helper m else m in
    if py_truthy (dict_get "delay" action)
       || py_truthy (dict_get "delayexpr" action)
    then raise_flag needs_event_scheduler m else m
  else if String.eqb action_type "cancel" then
    raise_flag needs_event_scheduler m
  else if String.eqb action_type "assign" then
    raise_flag needs_assign_helper m
  else if String.eqb action_type "foreach" then
    raise_flag needs_foreach m
  else if String.eqb action_type "if" && py_truthy (dict_get "cond" action)
  then raise_flag needs_guard_helper m
  else m.

Fixpoint _analyze_action (action : pyval) (m : SCXMLModel) {struct action}
  : SCXMLModel :=
  match action with
  | PDict d =>
      let m := analyze_flat d m in
      if String.eqb (dict_str "type" d) "if" && py_truthy (dict_get "cond" d)
      then
        let nested (key : string) (m : SCXMLModel) : SCXMLModel :=
          (fix find (entries : list (string * pyval)) (m : SCXMLModel)
             {struct entries} : SCXMLModel :=
             match entries with
             | [] => m
             | (k, v) :: rest =>
                 if String.eqb key k then
                   match v with
                   | PList l =>
                       (fix each (l : list pyval) (m : SCXMLModel)
                          {struct l} : SCXMLModel :=
                          match l with
                          | [] => m
                          | a :: l' => each l' (_analyze_action a m)
                          end) l m
                   | _ => m
                   end
                 else find rest m
             end) d m in
        let m := nested "then_actions" m in
        let m :=
          (fix find (entries : list (string * pyval)) (m : SCXMLModel)
             {struct entries} : SCXMLModel :=
             match entries with
             | [] => m
             | (k, v) :: rest =>
                 if String.eqb "elseif_branches" k then
                   match v with
                   | PList branches =>
                       (fix each_branch (bs : list pyval) (m : SCXMLModel)
                          {struct bs} : SCXMLModel :=
                          match bs with
                          | [] => m
                          | PDict b :: bs' =>
                              each_branch bs'
                                ((fix find_actions
                                    (entries : list (string * pyval))
                                    (m : SCXMLModel) {struct entries}
                                    : SCXMLModel :=
                                    match entries with
                                    | [] => m
                                    | (k', v') :: rest' =>
                                        if String.eqb "actions" k' then
                                          match v' with
                                          | PList l =>
                                              (fix each (l : list pyval)
                                                 (m : SCXMLModel) {struct l}
                                                 : SCXMLModel :=
                                                 match l with
                                                 | [] => m
                                                 | a :: l' =>
                                                     each l'
                                                       (_analyze_action a m)
                                                 end) l m
                                          | _ => m
                                          end
                                        else find_actions rest' m
                                    end) b m)
                          | _ :: bs' => each_branch bs' m
                          end) branches m
                   | _ => m
                   end
                 else find rest m
             end) d m in
        nested "else_actions" m
      else m
  | _ => m
  end.

Definition set_dv_type (t : string) (v : DataVar) : DataVar :=
  mkDataVar (dv_id v) (dv_expr v) (dv_src v) (dv_content v) (Some t).

(** The type [_classify_variables] gives a variable, and whether its branch
    sets [needs_jsengine]. *)
Definition classify_variable (v : DataVar) : string * bool :=
  let expr := dv_expr v in
  let content := dv_content v in
  if negb (truthy expr) && negb (truthy content) then ("runtime", false)
  else if String.eqb expr "0" || (truthy expr && str_isdigit expr)
  then ("int", false)
  else if startswith expr (String dquote EmptyString)
          && endswith expr (String dquote EmptyString)
  then ("string", false)
  else if in_list expr ["true"; "false"] then ("bool", false)
  else ("runtime", true).

Definition _classify_variables (m : SCXMLModel) : SCXMLModel :=
  let m' :=
    set_variables
      (map (fun v => set_dv_type (fst (classify_variable v)) v) (variables m))
      m in
  if existsb (fun v => snd (classify_variable v)) (variables m)
  then raise_flag needs_jsengine m' else m'.

(** The scan of [_analyze_model_features] over one state. *)
Definition analyze_state (state : State) (m : SCXMLModel) : SCXMLModel :=
  let m :=
    fold_left
      (fun m transition =>
         let m := if truthy (tr_cond transition)
                  then raise_flag needs_guard_helper m else m in
         fold_left (fun m action => _analyze_action (PDict action) m)
           (tr_actions transition) m)
      (st_transitions state) m in
  fold_left (fun m action => _analyze_action (PDict action) m)
    (st_on_entry state ++ st_on_exit state) m.

(** The last loop of [_analyze_model_features]: it stops at the first final
    state that has a [<donedata>]. *)
Definition analyze_donedata (m : SCXMLModel) : SCXMLModel :=
  match
    omap (fun kv : string * State =>
            if st_is_final (snd kv) then st_donedata (snd kv) else None)
         (states m)
  with
  | donedata :: _ =>
      let m :=
        add_event "error.execution" (raise_flag needs_donedata_helper m) in
      if negb (bool_decide (dd_params donedata = []))
         || truthy (dd_contentexpr donedata)
      then raise_flag needs_jsengine m else m
  | [] => m
  end.

Definition _analyze_model_features (m : SCXMLModel) : SCXMLModel :=
  let m :=
    fold_left (fun m f => clear_flag f m)
      [needs_event_type_helper; needs_assign_helper; needs_foreach;
       needs_guard_helper; needs_send_helper; needs_event_data_helper;
       needs_donedata_helper] m in
  let m :=
    fold_left (fun m (kv : string * State) => analyze_state (snd kv) m)
      (states m) m in
  let m :=
    if flag_of m needs_jsengine then
      fold_left (fun m f => raise_flag f m)
        [needs_event_type_helper; needs_assign_helper; needs_foreach;
         needs_guard_helper]
        (add_event "error.execution" m)
    else m in
  analyze_donedata m.

Definition is_wildcard (event : string) : bool :=
  in_list event ["*"; ".*"; "_*"].

(** [event_name == D or event_name.startswith(D + '.')] *)
Definition prefix_match (descriptor event_name : string) : bool :=
  String.eqb event_name descriptor
  || startswith event_name (descriptor +:+ ".").

Definition invoke_events : list string :=
  ["done.invoke"; "cancel.invoke"; "error.execution"].

(** [all_events] of [_build_prefix_matching] *)
Definition all_events (m : SCXMLModel) : list string :=
  elements (events m) ++
  match static_invokes m with [] => [] | _ => invoke_events end.

Definition _build_prefix_matching (m : SCXMLModel) : SCXMLModel :=
  map_states
    (fun state =>
       set_st_transitions
         (map (fun transition =>
                 if negb (truthy (tr_event transition))
                    || is_wildcard (tr_event transition)
                 then transition
                 else
                   set_tr_prefix_matching_events
                     (Some (filter
                              (fun event_name =>
                                 prefix_match (tr_event transition) event_name
                                 = true)
                              (all_events m))) transition)
              (st_transitions state)) state) m.

(** [len(var_names) != len(set(var_names))] *)
Definition has_duplicates (l : list (option string)) : bool :=
  negb (bool_decide (NoDup l)).

Definition _needs_interpreter_wrapper (m : SCXMLModel) : bool :=
  if negb (truthy (initial m)) then true
  else
    let initial_states := split (initial m) in
    if (if (1 <? List.length initial_states)%nat
        then negb (forallb (has_state m) initial_states)
        else negb (has_state m (initial m)))
    then true
    else if has_duplicates (map dv_id (variables m)) then true
    else if flag_of m has_dynamic_file_invoke then true
    else false.

(** The emission path [generate] takes. *)
Inductive track : Type := InterpreterWrapper | StaticTemplate.

Section WithEnvironment.

Variable tostring : node -> string.
Variable tostring_c14n : node -> string.
Variable path_stem : string -> string.
Variable sibling_path : string -> string -> string.
Variable load_external_script : string -> string -> option string.
Variable reread : node -> node.

(** The model [generate] hands to the emitter: the parsed model after the
    feature analysis and the event additions. *)
Definition prepare (as_child : bool) (m : SCXMLModel) : SCXMLModel :=
  let m := if as_child then raise_flag has_parent_communication m else m in
  let m := _classify_variables m in
  let m := _analyze_model_features m in
  let has_wildcard :=
    existsb
      (fun kv : string * State =>
         existsb (fun t => String.eqb (tr_event t) "*"
                           || String.eqb (tr_event t) ".*")
           (st_transitions (snd kv)))
      (states m) in
  let m := if has_wildcard then add_event "Wildcard" m else m in
  let m :=
    match static_invokes m with
    | [] => m
    | _ => fold_left (fun m e => add_event e m) invoke_events m
    end in
  _build_prefix_matching m.

(** [generate] up to the choice of the emission path; rendering and writing
    the output are the emitter's.  [None] is the [except] branch: the run
    fails. *)
Definition generate (fuel : nat) (fs : filesystem) (scxml_path : string)
  (as_child : bool) : option (track * SCXMLModel) :=
  match
    snd (parse_file tostring tostring_c14n path_stem sibling_path
           load_external_script reread fuel fs scxml_path)
  with
  | Raise _ => None
  | Ok m =>
      let m := prepare as_child m in
      Some (if _needs_interpreter_wrapper m then InterpreterWrapper
            else StaticTemplate, m)
  end.

End WithEnvironment.
End CodeGen.

(** ** Scenarios: the pipeline on concrete documents *)

Module Scenarios.
Import PyStr Xml Model Classifier Parser CodeGen.

(** A flat input directory: a path is a file name, its stem the name without
    the extension [.scxml], and a sibling of a file is named by its file
    name alone. *)
Fixpoint flat_stem (p : string) : string :=
  match p with
  | EmptyString => EmptyString
  | String c p' =>
      if String.eqb p ".scxml" then EmptyString else String c (flat_stem p')
  end.

Definition flat_sibling (scxml_path filename : string) : string := filename.

(** A serializer for the scenarios: the local name in angle brackets. *)
Definition tag_only (n : node) : string :=
  match n with
  | Element _ t _ _ _ => "<" +:+ t +:+ "/>"
  | Special _ => "<!---->"
  end.

Definition no_script (scxml_path src : string) : option string := None.

Definition parse (fs : filesystem) (scxml_path : string)
  : result SCXMLModel :=
  snd (parse_file tag_only tag_only flat_stem flat_sibling no_script id 8 fs
         scxml_path).

Definition run (fs : filesystem) (scxml_path : string)
  : option (track * SCXMLModel) :=
  generate tag_only tag_only flat_stem flat_sibling no_script id 8 fs
    scxml_path false.

(** [s] between double quotes. *)
Definition dq (s : string) : string :=
  String dquote s +:+ String dquote EmptyString.

(** An element of the SCXML namespace without text. *)
Definition sc (tag : string) (attrs : list (string * string))
  (children : list node) : node :=
  Element SCXML_NS tag attrs EmptyString children.

Definition one_file (path : string) (root : node) : filesystem :=
  {[ path := XmlFile root ]}.

(** What the scenarios read off a result. *)
Definition initial_of (r : result SCXMLModel) : option string :=
  match r with Ok m => Some (initial m) | Raise _ => None end.

Definition initial_leaf_of (r : result SCXMLModel) : option string :=
  match r with Ok m => Some (initial_leaf m) | Raise _ => None end.

Definition state_initial_of (r : result SCXMLModel) (id : string)
  : option string :=
  match r with
  | Ok m => option_map st_initial (state_of m id)
  | Raise _ => None
  end.

Definition has_event (r : result SCXMLModel) (e : string) : bool :=
  match r with
  | Ok m => bool_decide (e ∈ events m)
  | Raise _ => false
  end.

Definition flag_in (r : result SCXMLModel) (f : flag) : option bool :=
  match r with Ok m => Some (flag_of m f) | Raise _ => None end.

(** Deep initial: [s0] is compound with initial [s01], which is compound
    with initial [s01a]. *)
Definition deep_initial_doc : node :=
  sc "scxml" [("initial", "s0")]
    [sc "state" [("id", "s0"); ("initial", "s01")]
       [sc "state" [("id", "s01"); ("initial", "s01a")]
          [sc "state" [("id", "s01a")] []]]].

(** Parallel initial override. *)
Definition parallel_initial_doc : node :=
  sc "scxml" [("initial", "s2p112 s2p122")]
    [sc "parallel" [("id", "s2p1")]
       [sc "state" [("id", "s2p11"); ("initial", "s2p111")]
          [sc "state" [("id", "s2p111")] [];
           sc "state" [("id", "s2p112")] []];
        sc "state" [("id", "s2p12"); ("initial", "s2p121")]
          [sc "state" [("id", "s2p121")] [];
           sc "state" [("id", "s2p122")] []]]].

(** History restore: the initial of [s1] targets the deep history [h1],
    whose default transition targets [s11a]. *)
Definition history_doc : node :=
  sc "scxml" [("initial", "s1")]
    [sc "state" [("id", "s1"); ("initial", "h1")]
       [sc "history" [("id", "h1"); ("type", "deep")]
          [sc "transition" [("target", "s11a")] []];
        sc "state" [("id", "s11")]
          [sc "state" [("id", "s11a")] []]]].

(** Event closure: the child sends [failure] to its parent, which catches
    it with a wildcard only. *)
Definition closure_child : node :=
  sc "scxml" [("initial", "c0")]
    [sc "state" [("id", "c0")]
       [sc "onentry" []
          [sc "send" [("target", "#_parent"); ("event", "failure")] []]]].

Definition closure_parent : node :=
  sc "scxml" [("initial", "p0")]
    [sc "state" [("id", "p0")]
       [sc "invoke" [("type", "scxml"); ("src", "c.scxml")] [];
        sc "transition" [("event", "*"); ("target", "fail")] []];
     sc "final" [("id", "fail")] []].

Definition closure_files : filesystem :=
  <[ "c.scxml" := XmlFile closure_child ]> (one_file "p.scxml" closure_parent).

(** Pure [In()] guard, written with XML-escaped ampersands. *)
Definition pure_in_doc : node :=
  sc "scxml" [("initial", "s1")]
    [sc "state" [("id", "s1")]
       [sc "transition"
          [("cond", "In('s1') &amp;&amp; In('s2')"); ("target", "s2")] []];
     sc "state" [("id", "s2")] []].

(** The states of the result, by id, in the order of [model.states]. *)
Definition state_ids_of (r : result SCXMLModel) : option (list string) :=
  match r with Ok m => Some (map fst (states m)) | Raise _ => None end.

(** The leaf recorded for a history state. *)
Definition history_leaf_of (r : result SCXMLModel) (id : string)
  : option string :=
  match r with
  | Ok m =>
      match assoc id (history_states m) with
      | Some info => h_leaf_target info
      | None => None
      end
  | Raise _ => None
  end.

Definition track_of (r : option (track * SCXMLModel)) : option track :=
  option_map fst r.

Definition final_flag (r : option (track * SCXMLModel)) (f : flag)
  : option bool :=
  option_map (fun tm => flag_of (snd tm) f) r.

Definition final_has_event (r : option (track * SCXMLModel)) (e : string)
  : option bool :=
  option_map (fun tm => bool_decide (e ∈ events (snd tm))) r.

(** A [<foreach>] inside the [<if>] of an entry block; the guard is a pure
    [In()] predicate and the document declares no data. *)
Definition nested_foreach_doc : node :=
  sc "scxml" [("initial", "s")]
    [sc "state" [("id", "s")]
       [sc "onentry" []
          [sc "if" [("cond", "In('s')")]
             [sc "foreach" [("array", "[1,2,3]"); ("item", "i")] []]]]].

(** The same [<foreach>] directly in the entry block. *)
Definition plain_foreach_doc : node :=
  sc "scxml" [("initial", "s")]
    [sc "state" [("id", "s")]
       [sc "onentry" []
          [sc "foreach" [("array", "[1,2,3]"); ("item", "i")] []]]].

(** A document-level initial that lists a state the document does not
    have. *)
Definition missing_initial_doc : node :=
  sc "scxml" [("initial", "a b")] [sc "state" [("id", "a")] []].

(** A child that sends to its parent from inside a [<foreach>], and from
    inside an [<if>]. *)
Definition nested_send_child : node :=
  sc "scxml" [("initial", "c0")]
    [sc "state" [("id", "c0")]
       [sc "onentry" []
          [sc "foreach" [("array", "[1]"); ("item", "i")]
             [sc "send" [("target", "#_parent"); ("event", "childDone")] []];
           sc "if" [("cond", "In('c0')")]
             [sc "send" [("target", "#_parent"); ("event", "childReady")]
                []]]]].

Definition nested_send_files : filesystem :=
  <[ "c.scxml" := XmlFile nested_send_child ]>
    (one_file "p.scxml" closure_parent).

(** A root that is no [<scxml>] and in no namespace. *)
Definition foreign_root_doc : node :=
  Element EmptyString "html" [] EmptyString
    [Element EmptyString "body" [] EmptyString []].

(** A cyclic initial chain: [s0] starts in its child [s1], whose initial
    names [s0] again; the history [h] defaults to [s0]. *)
Definition cyclic_initial_doc : node :=
  sc "scxml" [("initial", "s0")]
    [sc "state" [("id", "s0"); ("initial", "s1")]
       [sc "state" [("id", "s1"); ("initial", "s0")] [];
        sc "history" [("id", "h")]
          [sc "transition" [("target", "s0")] []]]].

(** A chain of [n] compound states around a leaf: [x], [xx], ... each the
    only child of the one before. *)
Fixpoint nested_states (n : nat) (id : string) : node :=
  match n with
  | O => sc "state" [("id", id)] []
  | S k => sc "state" [("id", id)] [nested_states k (id +:+ "x")]
  end.

Definition deep_chain_doc : node :=
  sc "scxml" [("initial", "x")] [nested_states 25 "x"].

(** The model of the prefix-match scenario: events [error],
    [error.execution] and [foo], and a transition on [error]. *)
Definition prefix_model : SCXMLModel :=
  set_events {[ "error"; "error.execution"; "foo" ]}
    (set_states
       [("s", mkState "s" EmptyString [] false false None
                [mkTransition "error" "t" EmptyString false "external" []
                   None None]
                [] [] [] [] [] [] None 0 [] EmptyString EmptyString [])]
       (new_model "m" "s" "early" "ecmascript")).

Definition prefix_state : State :=
  default (mkState EmptyString EmptyString [] false false None [] [] [] []
             [] [] [] None 0 [] EmptyString EmptyString [])
    (state_of (prepare false prefix_model) "s").

Definition prefix_transition : Transition :=
  default (mkTransition EmptyString EmptyString EmptyString false
             EmptyString [] None None)
    (head (st_transitions prefix_state)).

(** A model with a parallel state [p] whose regions [r1] and [r2] have two
    children each; the initial lists one child of each region. *)
Definition region_state (id parent init : string) : string * State :=
  (id, mkState id init [] false false (Some parent) [] [] [] [] [] [] []
         None 0 [] EmptyString EmptyString []).

Definition regions_model : SCXMLModel :=
  set_states
    [("p", mkState "p" EmptyString [] false true None [] [] [] [] [] [] []
             None 0 [] EmptyString EmptyString []);
     region_state "r1" "p" "a1"; region_state "a1" "r1" EmptyString;
     region_state "a2" "r1" EmptyString;
     region_state "r2" "p" "b1"; region_state "b1" "r2" EmptyString;
     region_state "b2" "r2" EmptyString]
    (new_model "m" "a2 b2" "early" "ecmascript").


(** A guard that is a bare identifier, in a document without data. *)
Definition bare_guard_doc : node :=
  sc "scxml" [("initial", "s")]
    [sc "state" [("id", "s")]
       [sc "transition" [("cond", "Var1"); ("target", "t")] []];
     sc "state" [("id", "t")] []].

End Scenarios.

(** ** Conversions to C++ and JavaScript text

    [CodeGenerator._escape_cpp_string] of [codegen.py], and
    [SCXMLParser._convert_in_to_cpp] and [SCXMLParser._actions_to_javascript]
    of [scxml_parser.py]. *)

Module Conversions.
Import PyStr Xml Model Classifier Parser.

(** *** [CodeGenerator._escape_cpp_string] *)

Definition carriage_return : ascii := "013"%char.
Definition tab : ascii := "009"%char.

(** The one-character string of [c], and [c] after a backslash. *)
Definition char_str (c : ascii) : string := String c EmptyString.
Definition escaped (c : ascii) : string :=
  String backslash (String c EmptyString).

Definition _escape_cpp_string (text : string) : string :=
  if negb (truthy text) then EmptyString
  else
    let text := replace (char_str backslash) (escaped backslash) text in
    let text := replace (char_str dquote) (escaped dquote) text in
    let text := replace (char_str newline) (escaped "n") text in
    let text := replace (char_str carriage_return) (escaped "r") text in
    replace (char_str tab) (escaped "t") text.

(** *** [SCXMLParser._convert_in_to_cpp] *)

(** The characters up to the next single quote, and what follows it. *)
Fixpoint until_squote (s : string) : option (string * string) :=
  match s with
  | EmptyString => None
  | String c s' =>
      if Ascii.eqb c squote then Some (EmptyString, s')
      else
        match until_squote s' with
        | Some (g, rest) => Some (String c g, rest)
        | None => None
        end
  end.

(** Group 1 of a match of the atom pattern at the head of [s]: after the
    opening of the atom, one or more characters other than the single
    quote, then the quote and the closing parenthesis.  The class excludes
    the quote, so the repetition can stop nowhere else. *)
Definition match_in_atom (s : string) : option string :=
  if startswith s "In('" then
    match until_squote (str_drop 4 s) with
    | Some (g, String c _) =>
        if truthy g && Ascii.eqb c ")"%char then Some g else None
    | _ => None
    end
  else None.

(** The replacement template with group 1 filled in. *)
Definition is_state_active (g : string) : string :=
  "this->isStateActive(" +:+ String dquote (g +:+ String dquote ")").

(** [re.sub] of the atom pattern by the template: matches are found from
    left to right and do not overlap.  [skip] counts the characters of the
    match just replaced that are still to be passed over. *)
Fixpoint sub_in_from (skip : nat) (s : string) : string :=
  match s with
  | EmptyString => EmptyString
  | String c s' =>
      match skip with
      | S k => sub_in_from k s'
      | O =>
          match match_in_atom s with
          | Some g =>
              is_state_active g +:+ sub_in_from (String.length g + 5) s'
          | None => String c (sub_in_from 0 s')
          end
      end
  end.

Definition _convert_in_to_cpp (expr : string) : string :=
  let cpp_expr := replace "&amp;|" "||" (replace "&amp;&amp;" "&&" expr) in
  sub_in_from 0 cpp_expr.

(** *** [SCXMLParser._actions_to_javascript]

    The function formats the values of an action into JavaScript text.  The
    parser stores strings under the keys it reads, and lists of dictionaries
    for nested actions.  [None] stands for the runs on other values, which
    are not followed here: Python raises on most of them (a value without
    [get], a value that cannot be iterated or joined) and formats the rest
    with their [repr]. *)

Definition as_text (v : pyval) : option string :=
  match v with PStr s => Some s | _ => None end.

(** The lines of an action that is no [if]. *)
Definition js_flat (action : dict) : option (list string) :=
  let action_type := dict_get "type" action in
  if is_str action_type "assign" then
    let location := dict_get "location" action in
    let expr := dict_get "expr" action in
    if py_truthy location && py_truthy expr then
      l ← as_text location; e ← as_text expr;
      Some [l +:+ " = " +:+ e +:+ ";"]
    else Some []
  else if is_str action_type "script" then
    let content := dict_get "content" action in
    if py_truthy content then c ← as_text content; Some [c] else Some []
  else if is_str action_type "log" then
    let expr := dict_get "expr" action in
    let label := dict_get "label" action in
    if py_truthy expr then
      e ← as_text expr;
      log_msg ← (if py_truthy label
                 then l ← as_text label;
                      Some (String dquote (l +:+ ": " +:+ String dquote (" + "
                          +:+ e)))
                 else Some e);
      Some ["console.log(" +:+ log_msg +:+ ");"]
    else Some []
  else Some [].

(** The body of a branch: the lines of its actions joined, indented by two
    spaces when there are any. *)
Definition indented (lines : list string) : list string :=
  let js := join " " lines in
  if truthy js then ["  " +:+ js] else [].

Fixpoint action_js (action : pyval) {struct action} : option (list string) :=
  match action with
  | PDict d =>
      if is_str (dict_get "type" d) "if" then
        if py_truthy (dict_get "cond" d) then
          let body (v : pyval) : option (list string) :=
            match v with
            | PList l =>
                option_map indented
                  ((fix each (l : list pyval) {struct l} : option (list
                      string) :=
                      match l with
                      | [] => Some []
                      | a :: l' =>
                          lines ← action_js a; more ← each l';
                          Some (lines ++ more)
                      end) l)
            | _ => None
            end in
          let branch_lines (b : list (string * pyval))
            : option (list string) :=
            if py_truthy (dict_get "cond" b) then
              elseif_cond ← as_text (dict_get "cond" b);
              body_lines ←
                (fix find (entries : list (string * pyval))
                   : option (list string) :=
                   match entries with
                   | [] => Some []
                   | (k, v) :: rest =>
                       if String.eqb "actions" k then
                         if py_truthy v then body v else Some []
                       else find rest
                   end) b;
              Some (["else if (" +:+ elseif_cond +:+ ") {"] ++ body_lines
                    ++ ["}"])
            else Some [] in
          cond ← as_text (dict_get "cond" d);
          then_lines ←
            (fix find (entries : list (string * pyval))
               : option (list string) :=
               match entries with
               | [] => Some []
               | (k, v) :: rest =>
                   if String.eqb "then" k then
                     if py_truthy v then body v else Some []
                   else find rest
               end) d;
          elseif_lines ←
            (fix find (entries : list (string * pyval))
               : option (list string) :=
               match entries with
               | [] => Some []
               | (k, v) :: rest =>
                   if String.eqb "elseif" k then
                     match v with
                     | PList branches =>
                         (fix each_branch (bs : list pyval)
                            : option (list string) :=
                            match bs with
                            | [] => Some []
                            | PDict b :: bs' =>
                                lines ← branch_lines b;
                                more ← each_branch bs';
                                Some (lines ++ more)
                            | _ :: _ => None
                            end) branches
                     | PStr EmptyString | PDict [] => Some []
                     | _ => None
                     end
                   else find rest
               end) d;
          else_lines ←
            (fix find (entries : list (string * pyval))
               : option (list string) :=
               match entries with
               | [] => Some []
               | (k, v) :: rest =>
                   if String.eqb "else" k then
                     if py_truthy v then
                       body_lines ← body v;
                       Some (["else {"] ++ body_lines ++ ["}"])
                     else Some []
                   else find rest
               end) d;
          Some (["if (" +:+ cond +:+ ") {"] ++ then_lines ++ ["}"]
                ++ elseif_lines ++ else_lines)
        else Some []
      else js_flat d
  | _ => None
  end.

Definition _actions_to_javascript (actions : list dict) : option string :=
  match actions with
  | [] => Some EmptyString
  | _ =>
      option_map (join " ")
        (fold_right
           (fun action rest =>
              lines ← action_js (PDict action); more ← rest;
              Some (lines ++ more))
           (Some []) actions)
  end.

End Conversions.

(** ** Statements: the notions the theorems are stated with *)

Module Spec.
Import PyStr Regex Xml Classifier Model Parser CodeGen.

(** *** Static string literals *)

(** [q + s + q] *)
Definition quote_with (q : ascii) (s : string) : string :=
  String q (s +:+ String q EmptyString).

(** *** Pure [In()] predicates *)

(** Concatenation of a list of strings. *)
Definition flatten (l : list string) : string :=
  fold_right String.append EmptyString l.

Definition in_atom_text (id : string) : string := "In('" +:+ id +:+ "')".

(** A literal state id: one or more characters other than the single
    quote. *)
Definition literal_id (id : string) : Prop :=
  id <> EmptyString /\ all_chars not_squote id = true.

(** A run of separator characters: whitespace, parentheses, [&], [|]. *)
Definition separators (s : string) : Prop := all_chars sep_class s = true.

(** An atom and the separators after it. *)
Definition part_text (p : string * string) : string :=
  in_atom_text (fst p) +:+ snd p.

Definition part_ok (p : string * string) : Prop :=
  literal_id (fst p) /\ separators (snd p).

(** Separators, then one or more atoms, each followed by separators. *)
Definition pure_in_shape (s : string) : Prop :=
  exists (lead : string) (parts : list (string * string)),
    parts <> []
    /\ separators lead
    /\ Forall part_ok parts
    /\ s = lead +:+ flatten (map part_text parts).

(** None of the words of [ecma_keywords] occurs in the string. *)
Definition free_of_keywords (s : string) : Prop :=
  Forall (fun keyword => contains keyword s = false) ecma_keywords.

(** The predicate as the specification words it: atoms joined by the
    operators [&&] and [||], parentheses and whitespace.  The scanner reads
    one character at a time; [Amp] and [Bar] are the states after the first
    character of an operator. *)
Inductive scan : Type :=
| Outside | Amp | Bar | AtI | AtIn | AtParen | AtQuote | InId | AfterId.

Definition scan_step (st : scan) (c : ascii) : option scan :=
  match st with
  | Outside =>
      if isspace c || Ascii.eqb c "("%char || Ascii.eqb c ")"%char
      then Some Outside
      else if Ascii.eqb c "&"%char then Some Amp
      else if Ascii.eqb c "|"%char then Some Bar
      else if Ascii.eqb c "I"%char then Some AtI
      else None
  | Amp => if Ascii.eqb c "&"%char then Some Outside else None
  | Bar => if Ascii.eqb c "|"%char then Some Outside else None
  | AtI => if Ascii.eqb c "n"%char then Some AtIn else None
  | AtIn => if Ascii.eqb c "("%char then Some AtParen else None
  | AtParen => if Ascii.eqb c squote then Some AtQuote else None
  | AtQuote => if Ascii.eqb c squote then None else Some InId
  | InId => if Ascii.eqb c squote then Some AfterId else Some InId
  | AfterId => if Ascii.eqb c ")"%char then Some Outside else None
  end.

(** [atoms] tells whether an atom has been read. *)
Fixpoint scan_from (st : scan) (atoms : bool) (s : string) : bool :=
  match s with
  | EmptyString => match st with Outside => atoms | _ => false end
  | String c s' =>
      match scan_step st c with
      | Some st' =>
          scan_from st' (match st with AfterId => true | _ => atoms end) s'
      | None => false
      end
  end.

(** Modelled on the words of the specification, for comparison with
    [_is_pure_in_predicate]. *)
Definition claimed_pure_in (expr : string) : bool :=
  scan_from Outside false (clean_expr expr)
  && negb (existsb (fun keyword => contains keyword (clean_expr expr))
             ecma_keywords).

(** Characters that occur in [In(]. *)
Definition in_paren_char (c : ascii) : bool :=
  Ascii.eqb c "I"%char || Ascii.eqb c "n"%char || Ascii.eqb c "("%char.

(** *** Bare identifiers *)

(** A character of an identifier: an ASCII letter, a digit or an
    underscore. *)
Definition identifier_char (c : ascii) : bool :=
  is_ascii_letter c || in_range 48 57 c || Ascii.eqb c "_"%char.

(** A bare identifier: an ASCII letter followed by identifier characters. *)
Definition is_identifier (s : string) : bool :=
  match s with
  | EmptyString => false
  | String c rest => is_ascii_letter c && all_chars identifier_char rest
  end.

(** Case analysis on the 256 characters. *)
Ltac by_cases_on c :=
  destruct c as [[] [] [] [] [] [] [] []]; vm_compute; congruence.

(** *** The chase along [initial] *)

(** One hop: [a] is a state whose [initial] names the state [b]. *)
Definition initial_link (m : SCXMLModel) (a b : string) : Prop :=
  exists s, state_of m a = Some s
            /\ truthy (st_initial s) = true
            /\ has_state m (st_initial s) = true
            /\ b = st_initial s.

(** [b] is reached from [a] by [n] hops. *)
Inductive hops (m : SCXMLModel) : nat -> string -> string -> Prop :=
| hops_here a : hops m 0 a a
| hops_next n a b c : initial_link m a b -> hops m n b c -> hops m (S n) a c.

(** No hop leaves [a]. *)
Definition is_leaf (m : SCXMLModel) (a : string) : Prop :=
  forall b, ~ initial_link m a b.

(** The id the chase of [_resolve_deep_initial] starts from: the single id
    of the document-level initial, or the whole attribute when it lists
    several ids of which one is no state of the model. *)
Definition chase_start (m : SCXMLModel) (start : string) : Prop :=
  truthy (initial m) = true
  /\ (split (initial m) = [start]
      \/ (1 < List.length (split (initial m))
          /\ forallb (has_state m) (split (initial m)) = false
          /\ start = initial m)).

(** *** Parents *)

(** The parent recorded for a state id, if the id is known. *)
Definition parent_of (m : SCXMLModel) (id : string)
  : option (option string) :=
  option_map st_parent (state_of m id).

(** *** Roots *)

(** The node is an element of the SCXML namespace. *)
Definition in_scxml_namespace (c : node) : bool :=
  match c with
  | Element ns _ _ _ _ => String.eqb ns SCXML_NS
  | Special _ => false
  end.

End Spec.

(** ** Further notions the theorems are stated with *)

Module Notions.
Import PyStr Regex Xml Classifier Model Parser CodeGen Conversions Spec.

(** The text [_escape_cpp_string] writes for one character. *)
Definition escape_char (c : ascii) : string :=
  if Ascii.eqb c backslash then escaped backslash
  else if Ascii.eqb c dquote then escaped dquote
  else if Ascii.eqb c newline then escaped "n"
  else if Ascii.eqb c carriage_return then escaped "r"
  else if Ascii.eqb c tab then escaped "t"
  else char_str c.

(** The characters [_escape_cpp_string] rewrites. *)
Definition needs_escape (c : ascii) : bool :=
  Ascii.eqb c backslash || Ascii.eqb c dquote || Ascii.eqb c newline
  || Ascii.eqb c carriage_return || Ascii.eqb c tab.

(** [f] applied to every character, the results concatenated. *)
Fixpoint expand (f : ascii -> string) (s : string) : string :=
  match s with
  | EmptyString => EmptyString
  | String c s' => f c +:+ expand f s'
  end.

(** An atom of a pure predicate in C++, and the separators after it. *)
Definition cpp_part (p : string * string) : string :=
  is_state_active (fst p) +:+ snd p.

(** [m'] is [m] with other [initial] values, of states and of the model. *)
Definition initial_variant (m m' : SCXMLModel) : Prop :=
  map fst (states m') = map fst (states m)
  /\ (forall id s', state_of m' id = Some s' ->
        exists s, state_of m id = Some s
                  /\ s' = set_st_initial (st_initial s') s)
  /\ m' = set_initial (initial m') (set_states (states m') m).

(** Some state of the model is final and has [id] as its parent. *)
Definition has_final_child (m : SCXMLModel) (id : string) : Prop :=
  exists cid child,
    (cid, child) ∈ states m /\ st_parent child = Some id
    /\ st_is_final child = true.

(** What a step of the feature analysis may do to a model: set or clear the
    flags other than [needs_jsengine] and [has_dynamic_file_invoke], and add
    events. *)
Definition analysis_step (m m' : SCXMLModel) : Prop :=
  m' = set_events (events m') (set_flag_of (flag_of m') m)
  /\ flag_of m' needs_jsengine = flag_of m needs_jsengine
  /\ flag_of m' has_dynamic_file_invoke = flag_of m has_dynamic_file_invoke
  /\ events m ⊆ events m'.

(** What the choice between the wrapper and the static track reads. *)
Definition wrapper_view (m : SCXMLModel)
  : string * list string * list (option string) * bool :=
  (initial m, map fst (states m), map dv_id (variables m),
   flag_of m has_dynamic_file_invoke).

(** [A] holds of a value and of every value inside it. *)
Inductive deep (A : pyval -> Prop) : pyval -> Prop :=
| deep_intro (v : pyval) :
    A v ->
    (forall l, v = PList l -> Forall (deep A) l) ->
    (forall d, v = PDict d ->
               Forall (fun kv : string * pyval => deep A (snd kv)) d) ->
    deep A v.

(** One turn of the loop of [_collect_child_to_parent_events], on the
    files, the model and the names of the children parsed so far. *)
Definition collect_step (sibling_path : string -> string -> string)
  (parse_child : filesystem -> string -> filesystem * result SCXMLModel)
  (scxml_path : string)
  (acc : filesystem * SCXMLModel * list string) (static_invoke : StaticInvoke)
  : filesystem * SCXMLModel * list string :=
  let '(fs, m, parsed_children) := acc in
  let child_name := si_child_name static_invoke in
  if negb (truthy child_name) then acc
  else if in_list child_name parsed_children then acc
  else
    let child_scxml_path :=
      sibling_path scxml_path (child_name +:+ ".scxml") in
    if negb (exists_file fs child_scxml_path) then acc
    else
      let '(fs, r) := parse_child fs child_scxml_path in
      match r with
      | Ok child_model =>
          (fs,
           fold_left (fun m event => add_event event m)
             (child_parent_events child_model) m,
           parsed_children ++ [child_name])
      | Raise _ => (fs, m, parsed_children)
      end.

(** An [<if>] element without its children; any other node as it is. *)
Definition prune_if (c : node) : node :=
  match c with
  | Element ns tag attrs text children =>
      if String.eqb tag "if" then Element ns tag attrs text [] else c
  | Special _ => c
  end.

(** What the parser, once the data model is read, may do to four parts of
    the model: it leaves [has_dynamic_file_invoke] and the variables as they
    are, may raise [needs_jsengine] and may add events. *)
Definition parser_step (m m' : SCXMLModel) : Prop :=
  flag_of m' has_dynamic_file_invoke = flag_of m has_dynamic_file_invoke
  /\ (flag_of m needs_jsengine = true -> flag_of m' needs_jsengine = true)
  /\ events m ⊆ events m'
  /\ variables m' = variables m.

(** The [<data>] elements [_parse_datamodel] reads: those of the
    [<datamodel>] children of the root, in document order. *)
Definition root_data (root : node) : list node :=
  List.concat (map (fun datamodel => ns_findall datamodel "data")
                 (ns_findall root "datamodel")).

End Notions.

(** ** Samples: concrete models and documents *)

Module Samples.
Import PyStr Xml Model Classifier Parser CodeGen Conversions Scenarios.

(** The model of a result, or an empty model. *)
Definition model_of (r : result SCXMLModel) : SCXMLModel :=
  match r with
  | Ok m => m
  | Raise _ => new_model EmptyString EmptyString EmptyString EmptyString
  end.

(** The parallel model of the scenarios, entered through its region [r1]. *)
Definition region_entry_model : SCXMLModel := set_initial "r1" regions_model.

(** The parsed deep-initial document. *)
Definition parsed_deep_initial : SCXMLModel :=
  model_of (parse (one_file "d.scxml" deep_initial_doc) "d.scxml").

(** A state that waits for its invoked child, in a model with one static
    invoke. *)
Definition waiting_state : State :=
  mkState "s" EmptyString [] false false None
    [mkTransition "done.invoke" "t" EmptyString false "external" [] None None]
    [] [] [] [] [0] [] None 0 [] EmptyString EmptyString [].

Definition waiting_model : SCXMLModel :=
  set_static_invokes
    [mkStaticInvoke "i" "c" "s" false "c.scxml" [] EmptyString EmptyString
       None None None]
    (set_states [("s", waiting_state)]
       (new_model "m" "s" "early" "ecmascript")).

Definition waiting_prepared_state : State :=
  default waiting_state (state_of (prepare false waiting_model) "s").

Definition waiting_transition : Transition :=
  default (mkTransition EmptyString EmptyString EmptyString false
             EmptyString [] None None)
    (head (st_transitions waiting_prepared_state)).

(** The parser of the scenarios, for a child. *)
Definition scenario_child_parser (fs : filesystem) (path : string)
  : filesystem * result SCXMLModel :=
  parse_file tag_only tag_only flat_stem flat_sibling no_script id 7 fs path.

(** The child of the closure scenario, parsed. *)
Definition closure_child_model : SCXMLModel :=
  model_of (snd (scenario_child_parser closure_files "c.scxml")).

Definition closure_child_state : State :=
  default waiting_state (state_of closure_child_model "c0").

Definition closure_send : dict :=
  default [] (head (st_on_entry closure_child_state)).

(** An invoke of a child file that is not there. *)
Definition absent_child_invoke : Invoke :=
  mkInvoke EmptyString "gone.scxml" EmptyString "i" EmptyString "false"
    EmptyString [] [] EmptyString EmptyString None None true false false.

Definition absent_child_state : State :=
  mkState "s" EmptyString [] false false None [] [] [] []
    [absent_child_invoke] [0] [] None 0 [] EmptyString EmptyString [].

Definition absent_child_entry : StaticInvoke :=
  mkStaticInvoke "i" EmptyString "s" false "gone.scxml" [] EmptyString
    EmptyString None None None.

Definition absent_child_model : SCXMLModel :=
  set_static_invokes [absent_child_entry]
    (set_states [("s", absent_child_state)]
       (new_model "m" "s" "early" "ecmascript")).

(** A document with two variables, one of them without an id, and a global
    script. *)
Definition variables_doc : node :=
  sc "scxml" [("initial", "s")]
    [sc "datamodel" []
       [sc "data" [("id", "x"); ("expr", "1")] []; sc "data" [] []];
     sc "script" [] [];
     sc "state" [("id", "s")] []].

Definition parsed_variables : SCXMLModel :=
  model_of (parse (one_file "v.scxml" variables_doc) "v.scxml").

End Samples.

(** ** Facts about strings, patterns and the model *)

Module StrFacts.
Import PyStr Regex Xml Classifier Model Parser CodeGen Spec.

(** [append] does not unfold under [simpl]; these equations do it. *)
Lemma app_cons (c : ascii) (s t : string) :
  String c s +:+ t = String c (s +:+ t).
Proof. reflexivity. Qed.

Lemma app_nil_l (t : string) : "" +:+ t = t.
Proof. reflexivity. Qed.

Lemma app_nil_r (s : string) : s +:+ "" = s.
Proof.
  induction s as [|c s IH]; [reflexivity | now rewrite app_cons, IH].
Qed.

Lemma app_assoc (a b c : string) : (a +:+ b) +:+ c = a +:+ (b +:+ c).
Proof.
  induction a as [|x a IH]; [reflexivity | now rewrite !app_cons, IH].
Qed.

Lemma app_eq_nil (a b : string) : a +:+ b = "" -> a = "" /\ b = "".
Proof. destruct a; [auto | rewrite app_cons; discriminate]. Qed.

End StrFacts.

Module RegexFacts.
Import PyStr Regex StrFacts.

Lemma nullable_spec (r : regex) : nullable r = true <-> matches r "".
Proof.
  split.
  - induction r; simpl; intros H; try discriminate.
    + constructor.
    + apply andb_prop in H as [H1 H2].
      change "" with ("" +:+ ""). constructor; auto.
    + apply orb_prop in H as [H | H]; [apply m_alt_l | apply m_alt_r]; auto.
    + constructor.
  - intros H. remember "" as s eqn:Es.
    induction H; simpl; subst; try reflexivity; try discriminate.
    + apply app_eq_nil in Es as [-> ->]. rewrite IHmatches1, IHmatches2; auto.
    + rewrite IHmatches; auto.
    + rewrite IHmatches; auto. apply orb_true_r.
Qed.

(** A match of a concatenation that starts with [c]: the character belongs
    to the first part, or the first part is empty. *)
Lemma cat_cons_inv r1 r2 c s :
  matches (Cat r1 r2) (String c s) ->
  (exists s1 s2, s = s1 +:+ s2 /\ matches r1 (String c s1) /\ matches r2 s2)
  \/ (matches r1 "" /\ matches r2 (String c s)).
Proof.
  intros H. inversion H as [| |? ? s1 s2 H1 H2 [Er1 Er2] Es| | | |]; subst.
  destruct s1 as [|c1 s1].
  - right. rewrite app_nil_l in Es. subst. auto.
  - left. rewrite app_cons in Es. injection Es as Ec Es. subst. eauto.
Qed.

Lemma star_cons_inv r c s :
  matches (Star r) (String c s) ->
  exists s1 s2, s = s1 +:+ s2 /\ matches r (String c s1) /\ matches (Star r) s2.
Proof.
  intros H. remember (Star r) as r' eqn:Er. remember (String c s) as w eqn:Ew.
  revert c s Ew.
  induction H; intros; try discriminate.
  injection Er as ->.
  destruct s1 as [|c1 s1].
  - rewrite app_nil_l in Ew. apply IHmatches2; auto.
  - rewrite app_cons in Ew. injection Ew as Ec Ew. subst. eauto.
Qed.

Lemma deriv_spec (r : regex) : forall c s,
  matches (deriv c r) s <-> matches r (String c s).
Proof.
  induction r as [| |p|r1 IH1 r2 IH2|r1 IH1 r2 IH2|r IH]; intros c s; simpl.
  - split; intros H; inversion H.
  - split; intros H; inversion H.
  - destruct (p c) eqn:Ep; split; intros H.
    + inversion H; subst. constructor; auto.
    + inversion H; subst. constructor.
    + inversion H.
    + inversion H; subst. congruence.
  - destruct (nullable r1) eqn:En.
    + split; intros H.
      * inversion H as [| | |? ? ? H'|? ? ? H'| |]; subst.
        -- inversion H' as [| |? ? s1 s2 H1 H2| | | |]; subst.
           apply IH1 in H1. change (String c (s1 +:+ s2)) with (String c s1 +:+ s2).
           constructor; auto.
        -- apply IH2 in H'. apply nullable_spec in En.
           change (String c s) with ("" +:+ String c s). constructor; auto.
      * apply cat_cons_inv in H as [(s1 & s2 & -> & H1 & H2) | [H1 H2]].
        -- apply m_alt_l. constructor; auto. apply IH1; auto.
        -- apply m_alt_r. apply IH2; auto.
    + split; intros H.
      * inversion H as [| |? ? s1 s2 H1 H2| | | |]; subst.
        apply IH1 in H1. change (String c (s1 +:+ s2)) with (String c s1 +:+ s2).
        constructor; auto.
      * apply cat_cons_inv in H as [(s1 & s2 & -> & H1 & H2) | [H1 H2]].
        -- constructor; auto. apply IH1; auto.
        -- apply nullable_spec in H1. congruence.
  - split; intros H.
    + inversion H; subst; [apply m_alt_l | apply m_alt_r]; [apply IH1 | apply IH2]; auto.
    + inversion H; subst; [apply m_alt_l | apply m_alt_r]; [apply IH1 | apply IH2]; auto.
  - split; intros H.
    + inversion H as [| |? ? s1 s2 H1 H2| | | |]; subst.
      apply IH in H1. change (String c (s1 +:+ s2)) with (String c s1 +:+ s2).
      constructor; auto.
    + apply star_cons_inv in H as (s1 & s2 & -> & H1 & H2).
      constructor; auto. apply IH; auto.
Qed.

Lemma accepts_spec (s : string) : forall r,
  accepts r s = true <-> matches r s.
Proof.
  induction s as [|c s IH]; intros r; simpl.
  - apply nullable_spec.
  - rewrite IH. apply deriv_spec.
Qed.

End RegexFacts.

Module LiteralFacts.
Import PyStr Regex Xml Classifier Model Parser CodeGen Spec.
Import StrFacts RegexFacts.

Lemma prefix_cons (a b : ascii) (s1 s2 : string) :
  String.prefix (String a s1) (String b s2)
  = Ascii.eqb a b && String.prefix s1 s2.
Proof.
  simpl. destruct (ascii_dec a b) as [->|Hne].
  - rewrite Ascii.eqb_refl. reflexivity.
  - apply Ascii.eqb_neq in Hne. rewrite Hne. reflexivity.
Qed.

Lemma prefix_nil (s : string) : String.prefix "" s = true.
Proof. destruct s; reflexivity. Qed.

Lemma contains_char (c : ascii) (s : string) :
  contains (String c "") s = false <->
  all_chars (fun x => negb (Ascii.eqb x c)) s = true.
Proof.
  induction s as [|x s IH].
  - split; reflexivity.
  - cbn [contains all_chars]. rewrite prefix_cons, prefix_nil, andb_true_r.
    rewrite (Ascii.eqb_sym x c).
    destruct (Ascii.eqb c x) eqn:E; simpl.
    + split; discriminate.
    + exact IH.
Qed.

Lemma plain_chars (q : ascii) (s : string) :
  contains (String q "") s = false ->
  contains (String backslash "") s = false ->
  all_chars (plain_char q) s = true.
Proof.
  rewrite !contains_char. unfold plain_char.
  induction s as [|x s IH]; simpl; [reflexivity |].
  intros H1 H2. apply andb_prop in H1 as [-> H1], H2 as [-> H2].
  simpl. auto.
Qed.

Lemma rstrip_snoc (q : ascii) (s : string) :
  isspace q = false -> rstrip (s +:+ String q "") = s +:+ String q "".
Proof.
  intros Hq. induction s as [|c s IH].
  - rewrite app_nil_l. simpl. rewrite Hq. reflexivity.
  - rewrite app_cons. simpl. rewrite IH.
    destruct (s +:+ String q "") eqn:E; [| reflexivity].
    apply app_eq_nil in E as [_ E]. discriminate.
Qed.

Lemma strip_quoted (q : ascii) (s : string) :
  isspace q = false -> strip (quote_with q s) = quote_with q s.
Proof.
  intros Hq. unfold strip, quote_with. simpl. rewrite Hq.
  change (String q (s +:+ String q "")) with (String q s +:+ String q "").
  apply rstrip_snoc; assumption.
Qed.

Lemma star_class_matches (p : ascii -> bool) (s : string) :
  all_chars p s = true -> matches (Star (Class p)) s.
Proof.
  induction s as [|c s IH]; simpl; intros H.
  - constructor.
  - apply andb_prop in H as [Hc Hs].
    change (String c s) with (String c "" +:+ s).
    constructor; [constructor; assumption | auto].
Qed.

Lemma quoted_matches (q : ascii) (s : string) :
  all_chars (plain_char q) s = true ->
  matches (quoted_pattern q) (quote_with q s).
Proof.
  intros H. unfold quoted_pattern, quote_with.
  change (String q (s +:+ String q "")) with (String q "" +:+ (s +:+ String q "")).
  constructor.
  - constructor. apply Ascii.eqb_refl.
  - constructor.
    + apply star_class_matches; assumption.
    + constructor. apply Ascii.eqb_refl.
Qed.

Lemma quoted_group_snoc (q : ascii) (s : string) :
  all_chars (plain_char q) s = true ->
  quoted_group q (s +:+ String q "") = Some s.
Proof.
  unfold plain_char. induction s as [|c s IH]; intros H.
  - rewrite app_nil_l. simpl. rewrite Ascii.eqb_refl. reflexivity.
  - simpl in H. apply andb_prop in H as [Hc Hs].
    apply andb_prop in Hc as [Hq Hb].
    rewrite app_cons. simpl.
    apply negb_true_iff in Hq, Hb. rewrite Hq, Hb, (IH Hs). reflexivity.
Qed.

Lemma static_literal_accepted (q : ascii) (s : string) :
  isspace q = false ->
  all_chars (plain_char q) s = true ->
  re_match_anchored (quoted_pattern q) (strip (quote_with q s)) = true.
Proof.
  intros Hq H. rewrite strip_quoted by assumption.
  unfold re_match_anchored. apply orb_true_iff. left.
  apply accepts_spec, quoted_matches; assumption.
Qed.

End LiteralFacts.

Module ShapeFacts.
Import PyStr Regex Xml Classifier Model Parser CodeGen Spec.
Import StrFacts RegexFacts LiteralFacts.

Lemma star_inv (r : regex) (s : string) :
  matches (Star r) s ->
  exists l, Forall (matches r) l /\ s = flatten l.
Proof.
  intros H. remember (Star r) as r' eqn:Er.
  induction H; try discriminate; injection Er as ->.
  - exists []. split; [constructor | reflexivity].
  - destruct (IHmatches2 eq_refl) as (l & Hl & ->).
    exists (s1 :: l). split; [constructor; assumption | reflexivity].
Qed.

Lemma star_intro (r : regex) (l : list string) :
  Forall (matches r) l -> matches (Star r) (flatten l).
Proof.
  induction 1 as [|x l Hx Hl IH]; simpl; constructor; assumption.
Qed.

Lemma class_inv (p : ascii -> bool) (s : string) :
  matches (Class p) s -> exists c, s = String c "" /\ p c = true.
Proof. intros H. inversion H; subst. eauto. Qed.

Lemma star_class_inv (p : ascii -> bool) (s : string) :
  matches (Star (Class p)) s -> all_chars p s = true.
Proof.
  intros H. apply star_inv in H as (l & Hl & ->).
  induction Hl as [|x l Hx Hl IH]; [reflexivity |].
  apply class_inv in Hx as (c & -> & Hc). cbn [flatten fold_right].
  rewrite app_cons, app_nil_l. simpl. rewrite Hc. exact IH.
Qed.

Lemma star_class_iff (p : ascii -> bool) (s : string) :
  matches (Star (Class p)) s <-> all_chars p s = true.
Proof. split; [apply star_class_inv | apply star_class_matches]. Qed.

Lemma cat_inv (r1 r2 : regex) (s : string) :
  matches (Cat r1 r2) s ->
  exists s1 s2, s = s1 +:+ s2 /\ matches r1 s1 /\ matches r2 s2.
Proof. intros H. inversion H; subst. eauto. Qed.

Lemma word_iff (w s : string) : matches (Word w) s <-> s = w.
Proof.
  revert s. induction w as [|c w IH]; intros s; simpl.
  - split; intros H; [inversion H; reflexivity | subst; constructor].
  - split; intros H.
    + apply cat_inv in H as (s1 & s2 & -> & H1 & H2).
      apply class_inv in H1 as (x & -> & Hx). apply Ascii.eqb_eq in Hx.
      apply IH in H2. subst. reflexivity.
    + subst. change (String c w) with (String c "" +:+ w).
      constructor; [constructor; apply Ascii.eqb_refl | apply IH; reflexivity].
Qed.

Lemma all_chars_app (p : ascii -> bool) (a b : string) :
  all_chars p (a +:+ b) = all_chars p a && all_chars p b.
Proof.
  induction a as [|c a IH]; [reflexivity |].
  rewrite app_cons. simpl. rewrite IH. apply andb_assoc.
Qed.

Lemma plus_class_iff (p : ascii -> bool) (s : string) :
  matches (Plus (Class p)) s <-> s <> "" /\ all_chars p s = true.
Proof.
  unfold Plus. split.
  - intros H. apply cat_inv in H as (s1 & s2 & -> & H1 & H2).
    apply class_inv in H1 as (c & -> & Hc). apply star_class_inv in H2.
    rewrite app_cons, app_nil_l. split; [discriminate |].
    simpl. rewrite Hc. exact H2.
  - intros [Hne H]. destruct s as [|c s]; [contradiction |].
    simpl in H. apply andb_prop in H as [Hc Hs].
    change (String c s) with (String c "" +:+ s).
    constructor; [constructor; assumption | apply star_class_matches; assumption].
Qed.

Lemma in_atom_iff (a : string) :
  matches in_atom a <-> exists id, literal_id id /\ a = in_atom_text id.
Proof.
  unfold in_atom, in_atom_text, literal_id. split.
  - intros H. apply cat_inv in H as (s1 & s2 & -> & H1 & H2).
    apply word_iff in H1 as ->.
    apply cat_inv in H2 as (id & s3 & -> & H2 & H3).
    apply word_iff in H3 as ->. apply plus_class_iff in H2.
    exists id. split; [assumption | reflexivity].
  - intros (id & Hid & ->).
    constructor; [apply word_iff; reflexivity |].
    constructor; [apply plus_class_iff; assumption | apply word_iff; reflexivity].
Qed.


Lemma part_iff (s : string) :
  matches (Cat in_atom (Star (Class sep_class))) s <->
  exists p, part_ok p /\ s = part_text p.
Proof.
  unfold part_ok, part_text, separators. split.
  - intros H. apply cat_inv in H as (a & t & -> & Ha & Ht).
    apply in_atom_iff in Ha as (id & Hid & ->). apply star_class_inv in Ht.
    exists (id, t). simpl. auto.
  - intros ([id t] & [Hid Ht] & ->). simpl in *.
    constructor; [apply in_atom_iff; eauto | apply star_class_matches; assumption].
Qed.

Lemma parts_flatten (l : list string) :
  Forall (matches (Cat in_atom (Star (Class sep_class)))) l ->
  exists parts, Forall part_ok parts
                /\ flatten l = flatten (map part_text parts)
                /\ List.length parts = List.length l.
Proof.
  induction 1 as [|x l Hx Hl IH].
  - exists []. repeat split; constructor.
  - destruct IH as (parts & Hp & E & Hlen).
    apply part_iff in Hx as (p & Hpk & ->).
    exists (p :: parts). repeat split.
    + constructor; assumption.
    + simpl. rewrite E. reflexivity.
    + simpl. rewrite Hlen. reflexivity.
Qed.

Lemma pure_in_pattern_shape (s : string) :
  matches pure_in_pattern s <-> pure_in_shape s.
Proof.
  unfold pure_in_pattern, pure_in_shape, Plus. split.
  - intros H. apply cat_inv in H as (lead & rest & -> & Hlead & Hrest).
    apply star_class_inv in Hlead.
    apply cat_inv in Hrest as (x & more & -> & Hx & Hmore).
    apply star_inv in Hmore as (l & Hl & ->).
    apply part_iff in Hx as (p & Hp & ->).
    apply parts_flatten in Hl as (parts & Hparts & E & _).
    exists lead, (p :: parts). repeat split.
    + discriminate.
    + exact Hlead.
    + constructor; assumption.
    + simpl. fold part_text. rewrite E. reflexivity.
  - intros (lead & parts & Hne & Hlead & Hparts & ->).
    destruct parts as [|p parts]; [contradiction |].
    inversion Hparts as [|? ? Hp Hrest]; subst.
    constructor; [apply star_class_matches; exact Hlead |].
    simpl. constructor.
    + apply part_iff. exists p. split; [exact Hp | reflexivity].
    + apply star_intro.
      clear -Hrest. induction Hrest as [|q l Hq Hl IH]; simpl; constructor.
      * apply part_iff. exists q. split; [exact Hq | reflexivity].
      * exact IH.
Qed.

(** Where the first [I] after a run of separators stands is determined. *)
Lemma separators_then_I (l1 l2 r1 r2 : string) :
  separators l1 -> separators l2 ->
  l1 +:+ String "I" r1 = l2 +:+ String "I" r2 -> r1 = r2.
Proof.
  unfold separators. revert l2.
  induction l1 as [|a l1 IH]; intros [|b l2] H1 H2 E.
  - now injection E.
  - rewrite app_nil_l, app_cons in E. injection E as Ec _. subst b.
    discriminate H2.
  - rewrite app_nil_l, app_cons in E. injection E as Ec _. subst a.
    discriminate H1.
  - rewrite !app_cons in E. injection E as _ Es.
    cbn in H1, H2. apply andb_true_iff in H1 as [_ H1].
    apply andb_true_iff in H2 as [_ H2]. eauto.
Qed.

(** The first atom of a pure [In()] predicate opens with a single quote. *)
Lemma shape_first_quote (s lead rest : string) (c : ascii) :
  pure_in_shape s -> separators lead ->
  s = lead +:+ "In(" +:+ String c rest -> c = squote.
Proof.
  intros (lead' & parts & Hne & Hlead' & Hparts & ->) Hlead E.
  destruct parts as [|[id sep] parts]; [congruence |].
  cbn [map flatten fold_right] in E. unfold part_text, in_atom_text in E.
  cbn [fst snd] in E. rewrite !app_assoc in E.
  rewrite !app_cons, !app_nil_l in E.
  apply separators_then_I in E; [| assumption ..].
  now injection E.
Qed.

End ShapeFacts.

Module CleanFacts.
Import PyStr Regex Xml Classifier Model Parser CodeGen Spec.
Import StrFacts RegexFacts LiteralFacts ShapeFacts.

Lemma contains_cons (sub : string) (c : ascii) (s : string) :
  contains sub s = true -> contains sub (String c s) = true.
Proof. intros H. cbn [contains]. rewrite H. apply orb_true_r. Qed.

Lemma contains_nonempty (sub s : string) :
  sub <> "" -> contains sub s = true -> s <> "".
Proof.
  intros Hsub H ->. destruct sub; [contradiction | discriminate].
Qed.

Lemma prefix_app (sub a t : string) :
  String.prefix sub a = true -> String.prefix sub (a +:+ t) = true.
Proof.
  revert a. induction sub as [|x sub IH]; intros a H.
  - apply prefix_nil.
  - destruct a as [|y a]; [discriminate |].
    rewrite app_cons. rewrite prefix_cons in *.
    apply andb_prop in H as [-> H]. simpl. auto.
Qed.

Lemma contains_app_l (sub a t : string) :
  contains sub a = true -> contains sub (a +:+ t) = true.
Proof.
  induction a as [|c a IH]; intros H.
  - cbn [contains] in H. rewrite orb_false_r in H.
    destruct sub; [| discriminate]. destruct t; reflexivity.
  - rewrite app_cons. cbn [contains] in *.
    apply orb_prop in H as [H | H].
    + rewrite <- app_cons, (prefix_app _ _ _ H). reflexivity.
    + rewrite (IH H). apply orb_true_r.
Qed.

Lemma contains_app_r (sub a t : string) :
  contains sub t = true -> contains sub (a +:+ t) = true.
Proof.
  intros H. induction a as [|c a IH]; [exact H |].
  rewrite app_cons. apply contains_cons. exact IH.
Qed.

Lemma contains_lstrip (sub s : string) :
  contains sub (lstrip s) = true -> contains sub s = true.
Proof.
  induction s as [|c s IH]; simpl; [auto |].
  destruct (isspace c); [| auto].
  intros H. rewrite (IH H). apply orb_true_r.
Qed.

Lemma rstrip_prefix (s : string) : exists t, s = rstrip s +:+ t.
Proof.
  induction s as [|c s [t IH]]; [exists ""; reflexivity |].
  simpl. destruct (is_empty (rstrip s) && isspace c).
  - exists (String c s). reflexivity.
  - exists t. rewrite app_cons. congruence.
Qed.

Lemma contains_rstrip (sub s : string) :
  contains sub (rstrip s) = true -> contains sub s = true.
Proof.
  intros H. destruct (rstrip_prefix s) as [t E]. rewrite E.
  apply contains_app_l. exact H.
Qed.

Lemma contains_strip (sub s : string) :
  contains sub (strip s) = true -> contains sub s = true.
Proof. intros H. apply contains_lstrip, contains_rstrip. exact H. Qed.

(** The stripped string does not end with a whitespace character. *)
Lemma rstrip_last (c : ascii) (s : string) :
  endswith (rstrip s) (String c "") = true -> isspace c = false.
Proof.
  induction s as [|a s IH]; [discriminate |].
  simpl. destruct (rstrip s) as [|b r] eqn:Er; simpl.
  - destruct (isspace a) eqn:Ea; [discriminate |].
    simpl. rewrite orb_false_r. intros H.
    destruct (Ascii.eqb_spec c a); [subst; assumption | discriminate].
  - intros H. apply IH.
    cbn [endswith]. cbn [endswith] in H.
    apply orb_prop in H as [H | H]; [| exact H].
    simpl in H. destruct (Ascii.eqb c a); discriminate.
Qed.

Lemma strip_no_final_newline (s : string) :
  endswith (strip s) (String newline "") = false.
Proof.
  destruct (endswith (strip s) (String newline "")) eqn:E; [| reflexivity].
  apply rstrip_last in E. discriminate.
Qed.


Section Replace.

Variables old new : string.
Hypothesis new_nonempty : new <> "".
Hypothesis new_chars : all_chars (fun c => negb (in_paren_char c)) new = true.

Lemma new_head : exists a new', new = String a new' /\ in_paren_char a = false.
Proof using new_nonempty new_chars.
  destruct new as [|a new']; [contradiction |].
  simpl in new_chars. apply andb_prop in new_chars as [Ha _].
  apply negb_true_iff in Ha. eauto.
Qed.

(** The first character of a replacement result starts the replacement text
    or is copied from the subject. *)
Lemma replace_head (s : string) (x : ascii) (r : string) :
  replace_from old new 0 s = String x r ->
  in_paren_char x = true ->
  exists s', s = String x s' /\ r = replace_from old new 0 s'.
Proof using new_nonempty new_chars.
  intros E Hx. destruct s as [|c s']; [discriminate |].
  cbn [replace_from] in E. destruct (String.prefix old (String c s')).
  - destruct new_head as (a & new' & -> & Ha).
    rewrite app_cons in E. injection E as -> _. congruence.
  - injection E as -> <-. eauto.
Qed.

Lemma prefix_through_replace (s : string) :
  String.prefix "n(" (replace_from old new 0 s) = true ->
  String.prefix "n(" s = true.
Proof using new_nonempty new_chars.
  intros H.
  destruct (replace_from old new 0 s) as [|x r] eqn:E; [discriminate |].
  rewrite prefix_cons in H. apply andb_prop in H as [Hx Hr].
  apply Ascii.eqb_eq in Hx. subst x.
  apply replace_head in E as (s' & -> & ->); [| reflexivity].
  destruct (replace_from old new 0 s') as [|y r'] eqn:E'; [discriminate |].
  rewrite prefix_cons in Hr. apply andb_prop in Hr as [Hy _].
  apply Ascii.eqb_eq in Hy. subst y.
  apply replace_head in E' as (s'' & -> & _); [| reflexivity].
  rewrite !prefix_cons, prefix_nil. reflexivity.
Qed.

Lemma contains_past_new (r : string) :
  contains "In(" (new +:+ r) = contains "In(" r.
Proof using new_chars.
  clear new_nonempty. induction new as [|a n IH]; [reflexivity |].
  simpl in new_chars. apply andb_prop in new_chars as [Ha Hn].
  rewrite app_cons. cbn [contains]. rewrite prefix_cons.
  unfold in_paren_char in Ha. apply negb_true_iff in Ha.
  apply orb_false_iff in Ha as [Ha _]. apply orb_false_iff in Ha as [Ha _].
  rewrite Ascii.eqb_sym, Ha. simpl. apply IH. exact Hn.
Qed.

Lemma contains_replace_from (s : string) : forall skip,
  contains "In(" (replace_from old new skip s) = true ->
  contains "In(" s = true.
Proof using new_nonempty new_chars.
  induction s as [|c s IH]; intros skip H; [discriminate |].
  cbn [replace_from] in H. destruct skip as [|k].
  - destruct (String.prefix old (String c s)).
    + rewrite contains_past_new in H. apply contains_cons. eapply IH, H.
    + cbn [contains] in H. apply orb_prop in H as [H | H].
      * rewrite prefix_cons in H. apply andb_prop in H as [Hc Hr].
        apply prefix_through_replace in Hr.
        cbn [contains]. rewrite prefix_cons, Hc, Hr. reflexivity.
      * apply contains_cons. eapply IH, H.
  - apply contains_cons. eapply IH, H.
Qed.

End Replace.

Lemma contains_clean (expr : string) :
  contains "In(" (clean_expr expr) = true -> contains "In(" expr = true.
Proof.
  unfold clean_expr, replace. intros H.
  apply contains_strip in H.
  apply contains_replace_from in H; [| discriminate | reflexivity].
  apply contains_replace_from in H; [| discriminate | reflexivity].
  exact H.
Qed.

Lemma shape_contains_in (s : string) :
  pure_in_shape s -> contains "In(" s = true.
Proof.
  intros (lead & parts & Hne & _ & _ & ->).
  destruct parts as [|p parts]; [contradiction |].
  apply contains_app_r. cbn [flatten fold_right map].
  apply contains_app_l. unfold in_atom_text.
  apply contains_app_l, contains_app_l. reflexivity.
Qed.

Lemma pure_in_as_conjunction (expr : string) :
  _is_pure_in_predicate expr
  = truthy expr && contains "In(" expr
    && re_match_anchored pure_in_pattern (clean_expr expr)
    && negb (existsb (fun keyword => contains keyword (clean_expr expr))
               ecma_keywords).
Proof.
  unfold _is_pure_in_predicate.
  destruct (truthy expr), (contains "In(" expr); simpl; try reflexivity.
  destruct (re_match_anchored pure_in_pattern (clean_expr expr)); simpl;
    [| reflexivity].
  destruct (existsb (fun keyword => contains keyword (clean_expr expr))
              ecma_keywords); reflexivity.
Qed.

Lemma no_keyword_iff (s : string) :
  existsb (fun keyword => contains keyword s) ecma_keywords = false
  <-> free_of_keywords s.
Proof.
  unfold free_of_keywords. rewrite Forall_forall. split.
  - intros H k Hk. destruct (contains k s) eqn:E; [| reflexivity].
    assert (existsb (fun keyword => contains keyword s) ecma_keywords = true)
      as E' by (apply existsb_exists; exists k; split;
                [apply list_elem_of_In; exact Hk | exact E]).
    congruence.
  - intros H.
    destruct (existsb (fun keyword => contains keyword s) ecma_keywords)
      eqn:E; [| reflexivity].
    apply existsb_exists in E as (k & Hk & Hc).
    apply list_elem_of_In in Hk. rewrite (H k Hk) in Hc. discriminate Hc.
Qed.

End CleanFacts.

Module ModelFacts.
Import PyStr Regex Xml Classifier Model Parser CodeGen Spec.

Lemma assoc_map_values {A B : Type} (f : A -> B) (k : string)
  (l : list (string * A)) :
  assoc k (map (fun kv : string * A => (fst kv, f (snd kv))) l)
  = option_map f (assoc k l).
Proof.
  induction l as [|[k' v] l IH]; [reflexivity |].
  simpl. destruct (String.eqb k k'); [reflexivity | exact IH].
Qed.

Lemma state_of_map_states (f : State -> State) (m : SCXMLModel) (id : string) :
  state_of (map_states f m) id = option_map f (state_of m id).
Proof. unfold state_of, map_states. simpl. apply assoc_map_values. Qed.

End ModelFacts.

Module PrefixFacts.
Import PyStr Regex Xml Classifier Model Parser CodeGen Spec.
Import ModelFacts.

Lemma prefix_match_spec (d e : string) :
  prefix_match d e = true <-> e = d \/ startswith e (d +:+ ".") = true.
Proof.
  unfold prefix_match. rewrite orb_true_iff, String.eqb_eq. reflexivity.
Qed.

Lemma all_events_covers (m : SCXMLModel) (e : string) :
  e ∈ events m -> e ∈ all_events m.
Proof.
  intros H. unfold all_events. apply elem_of_app. left.
  apply elem_of_elements. exact H.
Qed.

Lemma build_prefix_matching_events (m : SCXMLModel) :
  events (_build_prefix_matching m) = events m.
Proof. reflexivity. Qed.

Lemma build_prefix_matching_exact (m : SCXMLModel) (sid : string) (s : State)
  (t : Transition) :
  state_of (_build_prefix_matching m) sid = Some s ->
  t ∈ st_transitions s ->
  tr_event t <> "" ->
  is_wildcard (tr_event t) = false ->
  exists P, tr_prefix_matching_events t = Some P
    /\ forall e, e ∈ events m ->
         (e ∈ P <-> (e = tr_event t \/ startswith e (tr_event t +:+ ".") = true)).
Proof.
  unfold _build_prefix_matching. rewrite state_of_map_states.
  destruct (state_of m sid) as [s0|]; [| discriminate].
  simpl. intros [= <-]. simpl.
  intros Ht Hne Hw. apply list_elem_of_fmap in Ht as (t0 & -> & _).
  destruct (negb (truthy (tr_event t0)) || is_wildcard (tr_event t0)) eqn:E.
  - exfalso. apply orb_prop in E as [E | E].
    + destruct (tr_event t0); [contradiction | discriminate E].
    + congruence.
  - simpl. eexists. split; [reflexivity |].
    intros e He. rewrite list_elem_of_filter, prefix_match_spec.
    split; [tauto |]. intros H. split; [exact H |].
    apply all_events_covers, He.
Qed.

End PrefixFacts.

Module OverrideFacts.
Import PyStr Regex Xml Classifier Model Parser CodeGen Spec.
Import ModelFacts.

Lemma assoc_dict_set_eq {A : Type} (k : string) (v : A) (d : list (string * A)) :
  assoc k (dict_set k v d) = Some v.
Proof.
  induction d as [|[k' v'] d IH]; simpl.
  - rewrite String.eqb_refl. reflexivity.
  - destruct (String.eqb k k') eqn:E; simpl; rewrite ?String.eqb_refl, ?E; auto.
Qed.

Lemma assoc_dict_set_ne {A : Type} (k k' : string) (v : A)
  (d : list (string * A)) :
  k <> k' -> assoc k' (dict_set k v d) = assoc k' d.
Proof.
  intros Hne. induction d as [|[k0 v0] d IH]; simpl.
  - destruct (String.eqb_spec k' k); [congruence | reflexivity].
  - destruct (String.eqb_spec k k0) as [->|Hk]; simpl.
    + destruct (String.eqb_spec k' k0); [congruence | reflexivity].
    + destruct (String.eqb k' k0); [reflexivity | exact IH].
Qed.

Lemma state_of_update_eq (p : string) (f : State -> State) (m : SCXMLModel)
  (sp : State) :
  state_of m p = Some sp -> state_of (update_state p f m) p = Some (f sp).
Proof.
  intros H. unfold update_state. rewrite H. unfold state_of. simpl.
  apply assoc_dict_set_eq.
Qed.

Lemma state_of_update_ne (p q : string) (f : State -> State) (m : SCXMLModel) :
  p <> q -> state_of (update_state p f m) q = state_of m q.
Proof.
  intros Hne. unfold update_state. destruct (state_of m p); [| reflexivity].
  unfold state_of. simpl. apply assoc_dict_set_ne. exact Hne.
Qed.


Lemma has_state_parent_of (m : SCXMLModel) (id : string) :
  has_state m id = match parent_of m id with Some _ => true | None => false end.
Proof.
  unfold has_state, dict_mem, parent_of, state_of.
  destruct (assoc id (states m)); reflexivity.
Qed.

Lemma parent_of_update (p : string) (v : string) (m : SCXMLModel) (q : string) :
  parent_of (update_state p (set_st_initial v) m) q = parent_of m q.
Proof.
  unfold parent_of. destruct (String.eqb_spec p q) as [->|Hne].
  - destruct (state_of m q) as [s|] eqn:E.
    + rewrite (state_of_update_eq _ _ _ _ E). reflexivity.
    + unfold update_state. rewrite E. rewrite E. reflexivity.
  - rewrite state_of_update_ne by assumption. reflexivity.
Qed.

Lemma parent_of_override (m : SCXMLModel) (y q : string) :
  parent_of (override_parent_initial m y) q = parent_of m q.
Proof.
  unfold override_parent_initial.
  destruct (state_of m y) as [sy|]; [| reflexivity].
  destruct (st_parent sy) as [p|]; [| reflexivity].
  destruct (negb (truthy p) || negb (has_state m p)); [reflexivity |].
  apply parent_of_update.
Qed.

Lemma parent_of_fold (l : list string) : forall m q,
  parent_of (fold_left override_parent_initial l m) q = parent_of m q.
Proof.
  induction l as [|y l IH]; intros m q; [reflexivity |].
  simpl. rewrite IH. apply parent_of_override.
Qed.

(** An id whose parent is not [p] leaves the state [p] alone. *)
Lemma override_other (m : SCXMLModel) (y p : string) :
  parent_of m y <> Some (Some p) ->
  state_of (override_parent_initial m y) p = state_of m p.
Proof.
  unfold parent_of, override_parent_initial. intros H.
  destruct (state_of m y) as [sy|]; [| reflexivity].
  destruct (st_parent sy) as [p'|] eqn:Ep; [| reflexivity].
  destruct (negb (truthy p') || negb (has_state m p')); [reflexivity |].
  apply state_of_update_ne. intros ->. apply H. simpl. rewrite Ep. reflexivity.
Qed.

(** An id whose parent is the known, named state [p] becomes its initial. *)
Lemma override_hit (m : SCXMLModel) (x p : string) (sp : State) :
  parent_of m x = Some (Some p) -> p <> "" -> state_of m p = Some sp ->
  state_of (override_parent_initial m x) p = Some (set_st_initial x sp).
Proof.
  unfold parent_of, override_parent_initial. intros Hx Hp Hsp.
  destruct (state_of m x) as [sx|]; [| discriminate Hx].
  simpl in Hx. injection Hx as ->.
  assert (truthy p = true) as -> by (destruct p; [contradiction | reflexivity]).
  assert (has_state m p = true) as ->.
  { unfold has_state, dict_mem. unfold state_of in Hsp. rewrite Hsp. reflexivity. }
  simpl. apply state_of_update_eq. exact Hsp.
Qed.

Lemma fold_others (post : list string) (p : string) : forall m,
  Forall (fun y => parent_of m y <> Some (Some p)) post ->
  state_of (fold_left override_parent_initial post m) p = state_of m p.
Proof.
  induction post as [|y post IH]; intros m H; [reflexivity |].
  inversion H as [|? ? Hy Hpost]; subst. simpl.
  rewrite IH.
  - apply override_other. exact Hy.
  - eapply Forall_impl; [exact Hpost |]. intros z Hz.
    simpl. rewrite parent_of_override. exact Hz.
Qed.

Lemma fold_last_wins (pre post : list string) (x p : string) (m : SCXMLModel)
  (sp : State) :
  parent_of m x = Some (Some p) -> p <> "" -> state_of m p = Some sp ->
  Forall (fun y => parent_of m y <> Some (Some p)) post ->
  exists sp',
    state_of (fold_left override_parent_initial (pre ++ x :: post) m) p = Some sp'
    /\ st_initial sp' = x.
Proof.
  intros Hx Hp Hsp Hpost.
  rewrite fold_left_app. simpl.
  set (m1 := fold_left override_parent_initial pre m).
  assert (Hx1 : parent_of m1 x = Some (Some p))
    by (unfold m1; rewrite parent_of_fold; exact Hx).
  assert (exists sp1, state_of m1 p = Some sp1) as [sp1 Hsp1].
  { pose proof (parent_of_fold pre m p) as E. fold m1 in E.
    unfold parent_of in E. rewrite Hsp in E.
    destruct (state_of m1 p) as [sp1|]; [eauto | discriminate E]. }
  rewrite fold_others.
  - rewrite (override_hit _ _ _ _ Hx1 Hp Hsp1). eexists. split; reflexivity.
  - eapply Forall_impl; [exact Hpost |]. intros z Hz. simpl.
    rewrite parent_of_override. unfold m1. rewrite parent_of_fold. exact Hz.
Qed.

End OverrideFacts.

Module ChaseFacts.
Import PyStr Regex Xml Classifier Model Parser CodeGen Spec.

Lemma leaf_loop_hops (m : SCXMLModel) (n : nat) : forall a,
  exists k, k <= n /\ hops m k a (leaf_loop n m a)
            /\ (k = n \/ is_leaf m (leaf_loop n m a)).
Proof.
  induction n as [|n IH]; intros a; simpl.
  - exists 0. split; [lia |]. split; [constructor | left; reflexivity].
  - destruct (state_of m a) as [s|] eqn:Es.
    + destruct (truthy (st_initial s) && has_state m (st_initial s)) eqn:E.
      * destruct (IH (st_initial s)) as (k & Hk & Hh & Hend).
        exists (S k). split; [lia |]. split.
        -- econstructor; [| exact Hh].
           apply andb_prop in E as [E1 E2]. exists s. auto.
        -- destruct Hend as [-> | Hleaf]; [left; reflexivity | right; exact Hleaf].
      * exists 0. split; [lia |]. split; [constructor |]. right.
        intros b (s' & Hs' & H1 & H2 & _). rewrite Es in Hs'.
        injection Hs' as <-. rewrite H1, H2 in E. discriminate E.
    + exists 0. split; [lia |]. split; [constructor |]. right.
      intros b (s' & Hs' & _). rewrite Es in Hs'. discriminate Hs'.
Qed.

Lemma deep_initial_loop_hops (m : SCXMLModel) (n : nat) : forall a r,
  deep_initial_loop n m a = Some r ->
  exists k, k <= n /\ hops m k a r /\ (k = n \/ is_leaf m r).
Proof.
  induction n as [|n IH]; intros a r; simpl.
  - intros [= <-]. exists 0. split; [lia |].
    split; [constructor | left; reflexivity].
  - destruct (state_of m a) as [s|] eqn:Es; [| discriminate].
    destruct (truthy (st_initial s) && has_state m (st_initial s)) eqn:E.
    + intros H. destruct (IH _ _ H) as (k & Hk & Hh & Hend).
      exists (S k). split; [lia |]. split.
      * econstructor; [| exact Hh].
        apply andb_prop in E as [E1 E2]. exists s. auto.
      * destruct Hend as [-> | Hleaf]; [left; reflexivity | right; exact Hleaf].
    + intros [= <-]. exists 0. split; [lia |]. split; [constructor |]. right.
      intros b (s' & Hs' & H1 & H2 & _). rewrite Es in Hs'.
      injection Hs' as <-. rewrite H1, H2 in E. discriminate E.
Qed.

End ChaseFacts.

Module RootFacts.
Import PyStr Regex Xml Classifier Model Parser CodeGen Spec.

Section WithEnvironment.

Variable tostring : node -> string.
Variable tostring_c14n : node -> string.
Variable path_stem : string -> string.
Variable sibling_path : string -> string -> string.
Variable load_external_script : string -> string -> option string.
Variable reread : node -> node.

Variables (ns tag : string) (attrs : list (string * string)) (text : string)
  (children : list node).

Hypothesis foreign_children :
  forallb (fun c => negb (in_scxml_namespace c)) children = true.

Lemma is_sc_foreign (t : string) (c : node) :
  In c children -> is_sc t c = false.
Proof using foreign_children.
  intros Hc. rewrite forallb_forall in foreign_children.
  specialize (foreign_children c Hc). destruct c as [n ? ? ? ?|]; [| reflexivity].
  simpl in *. apply negb_true_iff in foreign_children.
  rewrite foreign_children. reflexivity.
Qed.

Lemma ns_findall_foreign (t : string) :
  ns_findall (Element ns tag attrs text children) t = [].
Proof using foreign_children.
  unfold ns_findall. simpl.
  assert (H : forall c, In c children -> is_sc t c = false)
    by (intros; apply is_sc_foreign; assumption).
  clear foreign_children. induction children as [|c cs IH]; [reflexivity |].
  rewrite filter_cons. rewrite (H c) by (left; reflexivity).
  destruct (decide (false = true)) as [E|_]; [discriminate E |].
  apply IH. intros c' Hc'. apply H. right. exact Hc'.
Qed.

Lemma ns_find_foreign (t : string) :
  ns_find (Element ns tag attrs text children) t = None.
Proof using foreign_children.
  unfold ns_find. rewrite ns_findall_foreign. reflexivity.
Qed.

Lemma parse_states_foreign (parent_id : option string) (ps : parser) :
  _parse_states tostring tostring_c14n (Element ns tag attrs text children)
    parent_id ps = ps.
Proof using foreign_children.
  cbn [_parse_states].
  fold (ns_findall (Element ns tag attrs text children)).
  rewrite !ns_findall_foreign. cbn [fold_left].
  assert (H : forall t c, In c children -> is_sc t c = false)
    by (intros; apply is_sc_foreign; assumption).
  clear foreign_children.
  induction children as [|c cs IH]; [reflexivity |].
  rewrite !(H _ c) by (left; reflexivity).
  apply IH. intros t c' Hc'. apply H. right. exact Hc'.
Qed.

End WithEnvironment.

End RootFacts.

Module IdentifierFacts.
Import PyStr Regex Xml Classifier Model Parser CodeGen Spec.
Import StrFacts LiteralFacts.


Lemma letter_is_identifier_char (c : ascii) :
  is_ascii_letter c = true -> identifier_char c = true.
Proof. unfold identifier_char. intros ->. reflexivity. Qed.

Lemma identifier_char_word (c : ascii) :
  identifier_char c = true -> isword c = true.
Proof. revert c. intros c. by_cases_on c. Qed.

Lemma identifier_char_not_space (c : ascii) :
  identifier_char c = true -> isspace c = false.
Proof. by_cases_on c. Qed.

Lemma identifier_char_not_quote (c : ascii) :
  identifier_char c = true ->
  Ascii.eqb c squote || Ascii.eqb c dquote = false.
Proof. by_cases_on c. Qed.

Lemma identifier_char_joins (c : ascii) :
  identifier_char c = true ->
  negb (isalnum c) && negb (Ascii.eqb c "_"%char) = false.
Proof. by_cases_on c. Qed.

Lemma letter_not_underscore (c : ascii) :
  is_ascii_letter c = true -> Ascii.eqb c "_"%char = false.
Proof. by_cases_on c. Qed.

Lemma letter_not_quote (c : ascii) :
  is_ascii_letter c = true ->
  Ascii.eqb squote c = false /\ Ascii.eqb dquote c = false.
Proof.
  destruct c as [[] [] [] [] [] [] [] []]; vm_compute; intros H;
    (discriminate H || (split; reflexivity)).
Qed.

Lemma identifier_chars (s : string) :
  is_identifier s = true -> all_chars identifier_char s = true.
Proof.
  destruct s as [|c rest]; [discriminate |]. simpl.
  intros H. apply andb_prop in H as [Hc Hr].
  rewrite (letter_is_identifier_char _ Hc), Hr. reflexivity.
Qed.

Lemma prefix_all_chars (p : ascii -> bool) (sub s : string) :
  String.prefix sub s = true -> all_chars p s = true -> all_chars p sub = true.
Proof.
  revert s. induction sub as [|x sub IH]; intros s Hpre Hs; [reflexivity |].
  destruct s as [|y s]; [discriminate Hpre |].
  rewrite prefix_cons in Hpre. apply andb_prop in Hpre as [Hx Hpre].
  apply Ascii.eqb_eq in Hx. subst y. simpl in *.
  apply andb_prop in Hs as [-> Hs]. simpl. eapply IH; eassumption.
Qed.

(** A substring keeps to the characters of the string around it. *)
Lemma contains_all_chars (p : ascii -> bool) (sub s : string) :
  all_chars p s = true -> all_chars p sub = false -> contains sub s = false.
Proof.
  intros Hs Hsub. induction s as [|c s IH].
  - cbn [contains]. rewrite orb_false_r.
    destruct (String.prefix sub "") eqn:E; [| reflexivity].
    rewrite (prefix_all_chars p _ _ E Hs) in Hsub. discriminate Hsub.
  - cbn [contains]. simpl in Hs. apply andb_prop in Hs as [Hc Hs'].
    rewrite (IH Hs'), orb_false_r.
    destruct (String.prefix sub (String c s)) eqn:E; [| reflexivity].
    assert (all_chars p (String c s) = true) as Hcs
      by (simpl; rewrite Hc, Hs'; reflexivity).
    rewrite (prefix_all_chars p _ _ E Hcs) in Hsub. discriminate Hsub.
Qed.

Lemma any_char_none (p q : ascii -> bool) (s : string) :
  (forall c, p c = true -> q c = false) ->
  all_chars p s = true -> any_char q s = false.
Proof.
  intros Hpq. induction s as [|c s IH]; [reflexivity |]. simpl.
  intros H. apply andb_prop in H as [Hc Hs].
  rewrite (Hpq c Hc), (IH Hs). reflexivity.
Qed.

Lemma no_system_identifier_after_word (s : string) :
  all_chars identifier_char s = true ->
  search_system_identifier true s = false.
Proof.
  induction s as [|c s IH]; [reflexivity |]. simpl.
  intros H. apply andb_prop in H as [Hc Hs].
  rewrite (identifier_char_word c Hc). exact (IH Hs).
Qed.

Lemma identifier_no_system_identifier (s : string) :
  is_identifier s = true -> search_system_identifier false s = false.
Proof.
  destruct s as [|c rest]; [discriminate |]. simpl.
  intros H. apply andb_prop in H as [Hc Hr].
  rewrite (letter_not_underscore c Hc). simpl.
  rewrite (identifier_char_word c (letter_is_identifier_char c Hc)).
  apply no_system_identifier_after_word. exact Hr.
Qed.

Lemma lstrip_identifier (s : string) :
  all_chars identifier_char s = true -> lstrip s = s.
Proof.
  destruct s as [|c s]; [reflexivity |]. simpl.
  intros H. apply andb_prop in H as [Hc _].
  rewrite (identifier_char_not_space c Hc). reflexivity.
Qed.

Lemma rstrip_identifier (s : string) :
  all_chars identifier_char s = true -> rstrip s = s.
Proof.
  induction s as [|c s IH]; [reflexivity |]. simpl.
  intros H. apply andb_prop in H as [Hc Hs].
  rewrite (IH Hs), (identifier_char_not_space c Hc), andb_false_r.
  reflexivity.
Qed.

Lemma strip_identifier (s : string) :
  all_chars identifier_char s = true -> strip s = s.
Proof.
  intros H. unfold strip. rewrite (lstrip_identifier s H).
  apply rstrip_identifier. exact H.
Qed.

Lemma char_at_all_chars (p : ascii -> bool) (s : string) : forall n c,
  all_chars p s = true -> char_at n s = Some c -> p c = true.
Proof.
  induction s as [|x s IH]; intros n c Hs Hc;
    [destruct n; discriminate Hc |].
  simpl in Hs. apply andb_prop in Hs as [Hx Hs].
  destruct n as [|n]; simpl in Hc.
  - injection Hc as <-. exact Hx.
  - eapply IH; eassumption.
Qed.

Lemma reserved_hit_identifier (s keyword : string) :
  all_chars identifier_char s = true ->
  reserved_hit s keyword = String.eqb s keyword.
Proof.
  intros Hs. unfold reserved_hit.
  destruct (char_at (String.length keyword) s) as [c|] eqn:Ec.
  - rewrite (identifier_char_joins c (char_at_all_chars _ _ _ _ Hs Ec)).
    rewrite andb_false_r. apply orb_false_r.
  - rewrite andb_false_r. apply orb_false_r.
Qed.

Lemma existsb_ext_in {A : Type} (f g : A -> bool) (l : list A) :
  (forall x, f x = g x) -> existsb f l = existsb g l.
Proof.
  intros H. induction l as [|x l IH]; [reflexivity |].
  simpl. rewrite H, IH. reflexivity.
Qed.

End IdentifierFacts.

Module EscapeFacts.
Import PyStr Regex Classifier Conversions Spec Notions.
Import StrFacts LiteralFacts ShapeFacts CleanFacts.

Lemma expand_app (f : ascii -> string) (a b : string) :
  expand f (a +:+ b) = expand f a +:+ expand f b.
Proof.
  induction a as [|c a IH]; [reflexivity |].
  rewrite app_cons. cbn [expand]. now rewrite IH, app_assoc.
Qed.

(** Replacing a one-character string rewrites each character by itself. *)
Lemma replace_char (c : ascii) (new s : string) :
  replace (char_str c) new s
  = expand (fun x => if Ascii.eqb c x then new else char_str x) s.
Proof.
  unfold replace, char_str.
  induction s as [|x s IH]; [reflexivity |].
  cbn [replace_from expand]. rewrite prefix_cons, prefix_nil, andb_true_r.
  cbn [String.length Nat.sub]. rewrite IH.
  destruct (Ascii.eqb c x); reflexivity.
Qed.

Lemma expand_expand (f g : ascii -> string) (s : string) :
  expand f (expand g s) = expand (fun c => expand f (g c)) s.
Proof.
  induction s as [|c s IH]; [reflexivity |].
  cbn [expand]. now rewrite expand_app, IH.
Qed.

Lemma expand_ext (f g : ascii -> string) (s : string) :
  (forall c, f c = g c) -> expand f s = expand g s.
Proof.
  intros H. induction s as [|c s IH]; [reflexivity |].
  cbn [expand]. now rewrite H, IH.
Qed.

(** The five replacements of [_escape_cpp_string] amount to one pass. *)
Lemma escape_is_expand (text : string) :
  _escape_cpp_string text = expand escape_char text.
Proof.
  unfold _escape_cpp_string. destruct text as [|c text]; [reflexivity |].
  cbn [truthy is_empty negb]. cbv zeta.
  rewrite !replace_char, !expand_expand.
  apply expand_ext. intros x.
  destruct x as [[] [] [] [] [] [] [] []]; reflexivity.
Qed.

Lemma expand_plain (s : string) :
  any_char needs_escape s = false -> expand escape_char s = s.
Proof.
  induction s as [|c s IH]; [reflexivity |].
  cbn [any_char expand]. intros H. apply orb_false_iff in H as [Hc Hs].
  rewrite (IH Hs). unfold needs_escape in Hc.
  repeat (apply orb_false_iff in Hc as [Hc ?]).
  unfold escape_char. now rewrite Hc, H, H0, H1, H2.
Qed.

Lemma any_char_app (p : ascii -> bool) (a b : string) :
  any_char p (a +:+ b) = any_char p a || any_char p b.
Proof.
  induction a as [|c a IH]; [reflexivity |].
  rewrite app_cons. cbn [any_char]. now rewrite IH, orb_assoc.
Qed.

Lemma any_char_expand (p : ascii -> bool) (f : ascii -> string) (s : string) :
  (forall c, any_char p (f c) = false) -> any_char p (expand f s) = false.
Proof.
  intros H. induction s as [|c s IH]; [reflexivity |].
  cbn [expand]. now rewrite any_char_app, H, IH.
Qed.

(** The text of a character tells the character, and where it ends. *)
Lemma escape_char_head (c d : ascii) (a b : string) :
  escape_char c +:+ a = escape_char d +:+ b -> c = d /\ a = b.
Proof.
  unfold escape_char, escaped, char_str.
  repeat match goal with
         | |- context [Ascii.eqb ?x ?y] => destruct (Ascii.eqb_spec x y)
         end;
    rewrite ?app_cons, ?app_nil_l; intros E; injection E; intros; subst;
    try (split; congruence); try discriminate; try congruence.
Qed.

Lemma expand_escape_inj (a : string) : forall b,
  expand escape_char a = expand escape_char b -> a = b.
Proof.
  induction a as [|c a IH]; intros [|d b] E.
  - reflexivity.
  - cbn [expand] in E. exfalso. revert E. unfold escape_char, escaped, char_str.
    repeat match goal with
           | |- context [Ascii.eqb ?x ?y] => destruct (Ascii.eqb x y)
           end; rewrite ?app_cons; discriminate.
  - cbn [expand] in E. exfalso. revert E. unfold escape_char, escaped, char_str.
    repeat match goal with
           | |- context [Ascii.eqb ?x ?y] => destruct (Ascii.eqb x y)
           end; rewrite ?app_cons; discriminate.
  - cbn [expand] in E. apply escape_char_head in E as [-> E].
    now rewrite (IH _ E).
Qed.

End EscapeFacts.

Module QuoteFacts.
Import PyStr Regex Classifier Conversions Spec Notions.
Import StrFacts RegexFacts LiteralFacts ShapeFacts CleanFacts.

Lemma quoted_inv (q : ascii) (s : string) :
  matches (quoted_pattern q) s ->
  exists g, s = quote_with q g /\ all_chars (plain_char q) g = true.
Proof.
  unfold quoted_pattern, Lit. intros H.
  apply cat_inv in H as (s1 & s2 & -> & H1 & H2).
  apply class_inv in H1 as (c & -> & Hc). apply Ascii.eqb_eq in Hc. subst c.
  apply cat_inv in H2 as (s3 & s4 & -> & H3 & H4).
  apply star_class_inv in H3.
  apply class_inv in H4 as (c & -> & Hc). apply Ascii.eqb_eq in Hc. subst c.
  exists s3. split; [reflexivity | assumption].
Qed.

Lemma plain_chars_inv (q : ascii) (s : string) :
  all_chars (plain_char q) s = true ->
  contains (String q "") s = false /\ contains (String backslash "") s = false.
Proof.
  intros H. split; apply contains_char.
  - induction s as [|c s IH]; [reflexivity |]. cbn [all_chars] in *.
    apply andb_true_iff in H as [Hc Hs]. rewrite (IH Hs), andb_true_r.
    unfold plain_char in Hc. now apply andb_true_iff in Hc as [Hc _].
  - induction s as [|c s IH]; [reflexivity |]. cbn [all_chars] in *.
    apply andb_true_iff in H as [Hc Hs]. rewrite (IH Hs), andb_true_r.
    unfold plain_char in Hc. now apply andb_true_iff in Hc as [_ Hc].
Qed.

(** On a stripped subject the dollar of the pattern is the end. *)
Lemma match_stripped (r : regex) (expr : string) :
  re_match_anchored r (strip expr) = true <-> matches r (strip expr).
Proof.
  unfold re_match_anchored. rewrite strip_no_final_newline, orb_false_r.
  apply accepts_spec.
Qed.

Lemma endswith_app (a suf : string) : endswith (a +:+ suf) suf = true.
Proof.
  induction a as [|c a IH].
  - rewrite app_nil_l. destruct suf; cbn [endswith]; now rewrite
      String.eqb_refl.
  - rewrite app_cons. cbn [endswith]. rewrite IH. apply orb_true_r.
Qed.

(** What [quoted_group] reads: the group, the quote, and at most a final
    newline. *)
Lemma quoted_group_inv (q : ascii) (t : string) : forall g,
  quoted_group q t = Some g ->
  all_chars (plain_char q) g = true
  /\ (t = g +:+ String q "" \/ t = g +:+ String q (String newline "")).
Proof.
  induction t as [|c t IH]; intros g H; [discriminate H |].
  cbn [quoted_group] in H.
  destruct (Ascii.eqb_spec c q) as [-> | Hq].
  - destruct (is_empty t || (t =? String newline "")%string) eqn:E;
      [| discriminate H].
    injection H as <-. split; [reflexivity |].
    apply orb_true_iff in E as [E | E].
    + destruct t; [now left | discriminate E].
    + apply String.eqb_eq in E. subst t. now right.
  - destruct (Ascii.eqb_spec c backslash) as [-> | Hb]; [discriminate H |].
    destruct (quoted_group q t) as [g' |] eqn:E; [| discriminate H].
    injection H as <-. destruct (IH g' eq_refl) as [Hg Ht].
    split.
    + cbn [all_chars]. rewrite Hg, andb_true_r. unfold plain_char.
      apply andb_true_iff. split; apply negb_true_iff, Ascii.eqb_neq;
          assumption.
    + rewrite !app_cons. destruct Ht as [-> | ->]; [now left | now right].
Qed.

(** On a subject without a final newline, [match_quoted] finds the group of
    the quoted pattern exactly when the pattern matches. *)
Lemma match_quoted_spec (q : ascii) (s g : string) :
  endswith s (String newline "") = false ->
  (match_quoted q s = Some g <->
   s = quote_with q g /\ all_chars (plain_char q) g = true).
Proof.
  intros Hnl. split.
  - destruct s as [|c t]; [discriminate |]. cbn [match_quoted].
    destruct (Ascii.eqb_spec c q) as [-> | Hq]; [| discriminate].
    intros H. apply quoted_group_inv in H as [Hg [-> | ->]].
    + split; [reflexivity | assumption].
    + exfalso. revert Hnl.
      change (String q (g +:+ String q (String newline "")))
        with (String q (g +:+ (String q "" +:+ String newline ""))).
      rewrite <- app_assoc, <- app_cons, endswith_app. discriminate.
  - intros [-> Hg]. unfold quote_with. cbn [match_quoted].
    rewrite Ascii.eqb_refl. now apply quoted_group_snoc.
Qed.

Lemma match_quoted_none (q : ascii) (expr : string) :
  re_match_anchored (quoted_pattern q) (strip expr) = false ->
  match_quoted q (strip expr) = None.
Proof.
  intros H. destruct (match_quoted q (strip expr)) as [g|] eqn:E; [|
      reflexivity].
  apply match_quoted_spec in E as [E Hg]; [| apply strip_no_final_newline].
  exfalso. apply not_true_iff_false in H. apply H.
  apply match_stripped. rewrite E. now apply quoted_matches.
Qed.

Lemma literal_shape (expr : string) :
  _is_static_string_literal expr = true <->
  exists q g, (q = squote \/ q = dquote)
    /\ strip expr = quote_with q g
    /\ all_chars (plain_char q) g = true.
Proof.
  unfold _is_static_string_literal. split.
  - destruct (negb (truthy expr)); [discriminate |].
    destruct (re_match_anchored (quoted_pattern squote) (strip expr)) eqn:E1.
    + intros _. apply match_stripped, quoted_inv in E1 as (g & E & Hg).
      exists squote, g. auto.
    + destruct (re_match_anchored (quoted_pattern dquote) (strip expr)) eqn:E2;
        [| discriminate].
      intros _. apply match_stripped, quoted_inv in E2 as (g & E & Hg).
      exists dquote, g. auto.
  - intros (q & g & Hq & E & Hg).
    assert (Ht : truthy expr = true).
    { destruct expr; [discriminate E | reflexivity]. }
    rewrite Ht. cbn [negb].
    assert (Hm : re_match_anchored (quoted_pattern q) (strip expr) = true).
    { apply match_stripped. rewrite E. now apply quoted_matches. }
    destruct Hq as [-> | ->]; rewrite Hm; [reflexivity |].
    now rewrite orb_true_r.
Qed.

End QuoteFacts.

Module GuardFacts.
Import PyStr Regex Classifier Model Parser Conversions Spec Notions.
Import StrFacts RegexFacts LiteralFacts ShapeFacts CleanFacts EscapeFacts
    QuoteFacts.

Lemma rstrip_cons (c : ascii) (s : string) :
  isspace c = false -> rstrip (String c s) = String c (rstrip s).
Proof. intros H. cbn [rstrip]. now rewrite H, andb_false_r. Qed.

Lemma lstrip_split (s : string) :
  exists ws, s = ws +:+ lstrip s /\ all_chars isspace ws = true.
Proof.
  induction s as [|c s (ws & E & H)]; [now exists "" |].
  cbn [lstrip]. destruct (isspace c) eqn:Hc.
  - exists (String c ws). rewrite app_cons, <- E. split; [reflexivity |].
    cbn [all_chars]. now rewrite Hc, H.
  - now exists "".
Qed.

Lemma lstrip_app (ws s : string) :
  all_chars isspace ws = true -> lstrip (ws +:+ s) = lstrip s.
Proof.
  induction ws as [|c ws IH]; [reflexivity |].
  cbn [all_chars]. intros H. apply andb_true_iff in H as [Hc H].
  rewrite app_cons. cbn [lstrip]. rewrite Hc. auto.
Qed.

(** A character that does not open [old] is copied. *)
Lemma replace_copy (a : ascii) (old' new : string) (c : ascii) (s : string) :
  a <> c ->
  replace (String a old') new (String c s)
  = String c (replace (String a old') new s).
Proof.
  intros H. unfold replace. cbn [replace_from].
  rewrite prefix_cons. apply Ascii.eqb_neq in H. now rewrite H.
Qed.

Lemma replace_copy_run (a : ascii) (old' new : string) (ws s : string) :
  all_chars (fun c => negb (Ascii.eqb a c)) ws = true ->
  replace (String a old') new (ws +:+ s)
  = ws +:+ replace (String a old') new s.
Proof.
  induction ws as [|c ws IH]; [reflexivity |].
  cbn [all_chars]. intros H. apply andb_true_iff in H as [Hc H].
  rewrite !app_cons, replace_copy, IH; [reflexivity | assumption |].
  apply Ascii.eqb_neq. now apply negb_true_iff.
Qed.

Lemma space_not_amp (ws : string) :
  all_chars isspace ws = true ->
  all_chars (fun c => negb (Ascii.eqb "&" c)) ws = true.
Proof.
  induction ws as [|c ws IH]; [reflexivity |].
  cbn [all_chars]. intros H. apply andb_true_iff in H as [Hc H].
  rewrite (IH H), andb_true_r. revert Hc. by_cases_on c.
Qed.

(** The first character of the stripped expression, when it is no
    ampersand, is also the first of the cleaned expression. *)
Lemma clean_head (expr : string) (q : ascii) (rest : string) :
  strip expr = String q rest -> q <> "&"%char ->
  exists rest', clean_expr expr = String q rest'.
Proof.
  intros E Hq.
  destruct (lstrip_split expr) as (ws & Hexpr & Hws).
  unfold strip in E.
  destruct (lstrip expr) as [|c t] eqn:El; [discriminate E |].
  assert (Hc : isspace c = false).
  { destruct expr as [|x expr']; [discriminate El |].
    clear -El. revert c t El. induction (String x expr') as [|y s IH];
      intros c t El; [discriminate El |].
    cbn [lstrip] in El. destruct (isspace y) eqn:Hy; [eauto |].
    now injection El as <- _. }
  rewrite (rstrip_cons _ _ Hc) in E. injection E as -> _.
  unfold clean_expr. rewrite Hexpr.
  assert (Hamp := space_not_amp ws Hws).
  rewrite (replace_copy_run "&" "amp;&amp;" "&&" ws _ Hamp).
  rewrite (replace_copy "&" "amp;&amp;" "&&" q t) by congruence.
  rewrite (replace_copy_run "&" "amp;|" "||" ws _ Hamp).
  rewrite (replace_copy "&" "amp;|" "||" q _) by congruence.
  unfold strip. rewrite (lstrip_app _ _ Hws). cbn [lstrip]. rewrite Hc.
  rewrite (rstrip_cons _ _ Hc). eauto.
Qed.

(** A pure predicate opens with a separator or with an atom. *)
Lemma shape_head (c : ascii) (rest : string) :
  pure_in_shape (String c rest) -> sep_class c = true \/ c = "I"%char.
Proof.
  intros (lead & parts & Hne & Hlead & _ & E).
  destruct lead as [|x lead].
  - destruct parts as [|[id sep] parts]; [congruence |].
    cbn [map flatten fold_right] in E. unfold part_text, in_atom_text in E.
    cbn [fst] in E. rewrite !app_assoc, !app_cons in E.
    injection E as -> _. now right.
  - rewrite app_cons in E. injection E as -> _.
    unfold separators in Hlead. cbn [all_chars] in Hlead.
    apply andb_true_iff in Hlead as [Hx _]. now left.
Qed.

Lemma pure_shape (expr : string) :
  _is_pure_in_predicate expr = true -> pure_in_shape (clean_expr expr).
Proof.
  rewrite pure_in_as_conjunction, !andb_true_iff.
  intros [[[_ _] Hm] _]. apply pure_in_pattern_shape, accepts_spec.
  unfold re_match_anchored, clean_expr in *.
  now rewrite strip_no_final_newline, orb_false_r in Hm.
Qed.

(** A static string literal is no pure [In()] predicate. *)
Lemma literal_not_pure (expr : string) :
  _is_static_string_literal expr = true -> _is_pure_in_predicate expr = false.
Proof.
  intros H. apply literal_shape in H as (q & g & Hq & E & _).
  apply not_true_is_false. intros Hp. apply pure_shape in Hp.
  destruct (clean_head expr q (g +:+ String q "")) as (rest' & Ec).
  - exact E.
  - destruct Hq as [-> | ->]; discriminate.
  - rewrite Ec in Hp. apply shape_head in Hp.
    destruct Hq as [-> | ->]; destruct Hp as [Hp | Hp]; discriminate Hp.
Qed.

Lemma any_char_contains (p : ascii -> bool) (sub s : string) :
  any_char p sub = true -> contains sub s = true -> any_char p s = true.
Proof.
  intros Hsub. induction s as [|c s IH].
  - cbn [contains]. destruct sub; [discriminate Hsub |]. cbn. discriminate.
  - cbn [contains any_char]. intros H. apply orb_true_iff in H as [H | H].
    + clear IH. revert c s H. induction sub as [|x sub IHs]; intros c s H;
        [discriminate Hsub |].
      rewrite prefix_cons in H. apply andb_true_iff in H as [Hx H].
      apply Ascii.eqb_eq in Hx. subst x. cbn [any_char] in Hsub.
      destruct (p c); [reflexivity |]. cbn [orb] in *.
      destruct s as [|d s]; [destruct sub; [discriminate Hsub | discriminate
          H] |].
      cbn [any_char]. apply (IHs Hsub d s H).
    + rewrite (IH H). apply orb_true_r.
Qed.

Lemma any_char_strip (p : ascii -> bool) (s : string) :
  any_char p (strip s) = true -> any_char p s = true.
Proof.
  intros H. destruct (lstrip_split s) as (ws & E & _).
  destruct (rstrip_prefix (lstrip s)) as (t & Et).
  rewrite E, Et. unfold strip in H.
  now rewrite !any_char_app, H, orb_true_r.
Qed.

End GuardFacts.

Module EngineFacts.
Import PyStr Regex Classifier Model Parser Conversions Spec Notions.
Import StrFacts RegexFacts LiteralFacts ShapeFacts CleanFacts EscapeFacts
  QuoteFacts GuardFacts.

Lemma prefix_trans (p : string) : forall f t,
  String.prefix p f = true -> String.prefix f t = true ->
  String.prefix p t = true.
Proof.
  induction p as [|a p IH]; intros f t H1 H2; [apply prefix_nil |].
  destruct f as [|b f]; [discriminate H1 |].
  destruct t as [|c t]; [discriminate H2 |].
  rewrite prefix_cons in *. apply andb_true_iff in H1 as [Hab H1].
  apply andb_true_iff in H2 as [Hbc H2].
  apply Ascii.eqb_eq in Hab, Hbc. subst. rewrite Ascii.eqb_refl.
  cbn [andb]. eauto.
Qed.

(** A string contains the prefixes of what it contains. *)
Lemma contains_weaken (p f s : string) :
  String.prefix p f = true -> contains f s = true -> contains p s = true.
Proof.
  intros Hp. induction s as [|c s IH]; cbn [contains]; intros H.
  - rewrite orb_false_r in *. eapply prefix_trans; eassumption.
  - apply orb_true_iff in H as [H | H].
    + now rewrite (prefix_trans _ _ _ Hp H).
    + rewrite (IH H). apply orb_true_r.
Qed.

(** The loop over [EVENT_METADATA_FIELDS] is never reached with a hit: each
    field opens with a feature the earlier loop returns on. *)
Lemma metadata_is_feature (expr : string) :
  existsb (fun feature => contains feature expr) js_features = false ->
  existsb (fun field => contains field expr) EVENT_METADATA_FIELDS = false.
Proof.
  unfold js_features, EVENT_METADATA_FIELDS. cbn [existsb]. intros H.
  apply orb_false_iff in H as [_ H]. apply orb_false_iff in H as [H _].
  assert (Hf : forall f, String.prefix "_event." f = true ->
                         contains f expr = false).
  { intros f Hf. apply not_true_is_false. intros Hc.
    now rewrite (contains_weaken _ _ _ Hf Hc) in H. }
  now rewrite !Hf.
Qed.

Lemma requires_effect (expr : string) (m : SCXMLModel) :
  snd (_requires_jsengine expr m)
  = if truthy expr && contains "In(" expr
    then raise_flag uses_in_predicate m else m.
Proof.
  unfold _requires_jsengine. destruct (truthy expr); [| reflexivity].
  cbn [negb andb]. destruct (contains "In(" expr).
  { now destruct (_is_pure_in_predicate expr). }
  destruct (existsb _ js_features) eqn:Ef; [reflexivity |].
  rewrite (metadata_is_feature _ Ef).
  repeat match goal with
         | |- context [if ?b then _ else _] => destruct b
         end; reflexivity.
Qed.

Lemma literal_requires (expr : string) (m : SCXMLModel) :
  _is_static_string_literal expr = true ->
  fst (_requires_jsengine expr m) = true.
Proof.
  intros H. pose proof (literal_not_pure _ H) as Hp.
  apply literal_shape in H as (q & g & Hq & E & _).
  assert (Ht : truthy expr = true).
  { destruct expr; [discriminate E | reflexivity]. }
  assert (Hs : search_quote expr = true).
  { unfold search_quote. apply any_char_strip. rewrite E. unfold quote_with.
    cbn [any_char]. destruct Hq as [-> | ->]; reflexivity. }
  unfold _requires_jsengine. rewrite Ht, Hp, Hs. cbn [negb].
  repeat match goal with
         | |- context [if ?b then _ else _] => destruct b
         end; reflexivity.
Qed.

Lemma pure_requires (expr : string) (m : SCXMLModel) :
  _is_pure_in_predicate expr = true ->
  _requires_jsengine expr m = (false, raise_flag uses_in_predicate m).
Proof.
  intros H. unfold _requires_jsengine. rewrite H.
  rewrite pure_in_as_conjunction, !andb_true_iff in H.
  destruct H as [[[Ht Hc] _] _]. now rewrite Ht, Hc.
Qed.

End EngineFacts.

Module ConvertFacts.
Import PyStr Regex Classifier Model Parser Conversions Spec Notions.
Import StrFacts RegexFacts LiteralFacts ShapeFacts CleanFacts EscapeFacts
  QuoteFacts GuardFacts.

Lemma length_app (a b : string) :
  String.length (a +:+ b) = String.length a + String.length b.
Proof.
  induction a as [|c a IH]; [reflexivity |].
  rewrite app_cons. cbn [String.length]. now rewrite IH.
Qed.

Lemma until_squote_id (id rest : string) :
  all_chars not_squote id = true ->
  until_squote (id +:+ String squote rest) = Some (id, rest).
Proof.
  induction id as [|c id IH]; [reflexivity |].
  cbn [all_chars]. intros H. apply andb_true_iff in H as [Hc H].
  rewrite app_cons. cbn [until_squote]. unfold not_squote in Hc.
  apply negb_true_iff in Hc. now rewrite Hc, (IH H).
Qed.

(** The atom pattern matches at the head of an atom, with its id as
    group 1. *)
Lemma match_in_atom_text (id rest : string) :
  literal_id id -> match_in_atom (in_atom_text id +:+ rest) = Some id.
Proof.
  intros [Hne Hid]. unfold match_in_atom, in_atom_text, startswith.
  rewrite !app_assoc, !app_cons, !app_nil_l.
  rewrite !prefix_cons, prefix_nil. cbn [Ascii.eqb Bool.eqb andb str_drop].
  change (String squote (String ")" rest))
    with (String squote (String ")"%char rest)).
  rewrite (until_squote_id _ _ Hid).
  destruct id; [contradiction | reflexivity].
Qed.

(** A match of the atom pattern opens with [I]. *)
Lemma match_in_atom_head (c : ascii) (s : string) :
  c <> "I"%char -> match_in_atom (String c s) = None.
Proof.
  intros H. unfold match_in_atom, startswith. rewrite prefix_cons.
  apply not_eq_sym, Ascii.eqb_neq in H. now rewrite H.
Qed.

Lemma sub_skip (a : string) : forall n b,
  String.length a = n -> sub_in_from n (a +:+ b) = sub_in_from 0 b.
Proof.
  induction a as [|c a IH]; intros n b <-; [reflexivity |].
  rewrite app_cons. cbn [String.length sub_in_from]. now apply IH.
Qed.

Lemma sep_not_I (c : ascii) : sep_class c = true -> c <> "I"%char.
Proof. intros H ->. discriminate H. Qed.

Lemma sub_sep_run (lead s : string) :
  separators lead -> sub_in_from 0 (lead +:+ s) = lead +:+ sub_in_from 0 s.
Proof.
  unfold separators. induction lead as [|c lead IH]; [reflexivity |].
  cbn [all_chars]. intros H. apply andb_true_iff in H as [Hc H].
  rewrite !app_cons. cbn [sub_in_from].
  rewrite (match_in_atom_head _ _ (sep_not_I _ Hc)). now rewrite (IH H).
Qed.

Lemma flatten_cons (x : string) (l : list string) :
  flatten (x :: l) = x +:+ flatten l.
Proof. reflexivity. Qed.

Lemma sub_atom (id rest : string) :
  literal_id id ->
  sub_in_from 0 (in_atom_text id +:+ rest)
  = is_state_active id +:+ sub_in_from 0 rest.
Proof.
  intros Hid. pose proof (match_in_atom_text id rest Hid) as Hm.
  remember (in_atom_text id +:+ rest) as s eqn:Es.
  assert (Es' : s = String "I" (("n('" +:+ id +:+ "')") +:+ rest)).
  { subst s. unfold in_atom_text. rewrite !app_assoc. reflexivity. }
  rewrite Es' in *. cbn [sub_in_from]. rewrite Hm. f_equal.
  apply sub_skip. rewrite !length_app. cbn [String.length]. lia.
Qed.

Lemma sub_parts (parts : list (string * string)) :
  Forall part_ok parts ->
  sub_in_from 0 (flatten (map part_text parts))
  = flatten (map cpp_part parts).
Proof.
  induction 1 as [|[id sep] parts [Hid Hsep] _ IH]; [reflexivity |].
  cbn [map]. rewrite !flatten_cons. unfold part_text at 1, cpp_part at 1.
  cbn [fst snd] in *.
  rewrite !app_assoc, (sub_atom _ _ Hid), (sub_sep_run _ _ Hsep).
  now rewrite IH.
Qed.

Lemma rstrip_split (s : string) :
  exists t, s = rstrip s +:+ t /\ all_chars isspace t = true.
Proof.
  induction s as [|c s (t & E & H)]; [now exists "" |].
  cbn [rstrip]. destruct (is_empty (rstrip s)) eqn:Er.
  - destruct (rstrip s); [| discriminate Er]. rewrite app_nil_l in E. subst t.
    destruct (isspace c) eqn:Hc; cbn [andb].
    + exists (String c s). split; [reflexivity |].
      cbn [all_chars]. now rewrite Hc, H.
    + exists s. split; [reflexivity | assumption].
  - cbn [andb]. exists t. now rewrite app_cons, <- E.
Qed.

Lemma strip_split (s : string) :
  exists l r, s = l +:+ strip s +:+ r
              /\ all_chars isspace l = true /\ all_chars isspace r = true.
Proof.
  destruct (lstrip_split s) as (l & El & Hl).
  destruct (rstrip_split (lstrip s)) as (r & Er & Hr).
  exists l, r. unfold strip. now rewrite <- Er, <- El.
Qed.

Lemma space_is_sep (ws : string) :
  all_chars isspace ws = true -> separators ws.
Proof.
  unfold separators. induction ws as [|c ws IH]; [reflexivity |].
  cbn [all_chars]. intros H. apply andb_true_iff in H as [Hc H].
  rewrite (IH H), andb_true_r. unfold sep_class. now rewrite Hc.
Qed.

Lemma flatten_app (a b : list string) :
  flatten (a ++ b) = flatten a +:+ flatten b.
Proof.
  induction a as [|x a IH]; [reflexivity |].
  cbn [app]. now rewrite !flatten_cons, IH, app_assoc.
Qed.

(** Whitespace around a pure predicate joins its first and last runs of
    separators. *)
Lemma shape_padded (l s r : string) :
  pure_in_shape s ->
  all_chars isspace l = true -> all_chars isspace r = true ->
  exists lead parts,
    parts <> [] /\ separators lead /\ Forall part_ok parts
    /\ l +:+ s +:+ r = lead +:+ flatten (map part_text parts).
Proof.
  intros (lead & parts & Hne & Hlead & Hparts & ->) Hl Hr.
  destruct (exists_last Hne) as (parts0 & [id sep] & ->).
  apply Forall_app in Hparts as [H0 Hlast].
  apply Forall_inv in Hlast. destruct Hlast as [Hid Hsep].
  exists (l +:+ lead), (parts0 ++ [(id, sep +:+ r)]).
  split; [now destruct parts0 |]. split.
  { unfold separators in *. rewrite all_chars_app, Hlead, andb_true_r.
    now apply space_is_sep. }
  split.
  { apply Forall_app. split; [assumption |]. constructor; [| constructor].
    split; [assumption |]. cbn [snd] in *. unfold separators in *.
    rewrite all_chars_app, Hsep. now apply space_is_sep. }
  rewrite !map_app, !flatten_app. cbn [map].
  rewrite !flatten_cons. unfold part_text at 2 4. cbn [fst snd].
  change (flatten []) with "". now rewrite !app_nil_r, !app_assoc.
Qed.

Lemma convert_shape (lead : string) (parts : list (string * string)) :
  separators lead -> Forall part_ok parts ->
  sub_in_from 0 (lead +:+ flatten (map part_text parts))
  = lead +:+ flatten (map cpp_part parts).
Proof.
  intros Hlead Hparts. now rewrite (sub_sep_run _ _ Hlead), (sub_parts _
      Hparts).
Qed.

End ConvertFacts.

Module PassFacts.
Import PyStr Regex Xml Classifier Model Parser CodeGen Conversions Spec Notions.
Import StrFacts ModelFacts OverrideFacts.

Lemma dict_set_keys {A : Type} (k : string) (v : A) (d : list (string * A)) :
  dict_mem k d = true -> map fst (dict_set k v d) = map fst d.
Proof.
  unfold dict_mem. induction d as [|[k' v'] d IH]; [discriminate |].
  cbn [assoc dict_set]. destruct (String.eqb_spec k k') as [-> | Hk].
  - reflexivity.
  - intros H. cbn [map fst]. now rewrite (IH H).
Qed.

Lemma update_state_keys (p : string) (f : State -> State) (m : SCXMLModel) :
  map fst (states (update_state p f m)) = map fst (states m).
Proof.
  unfold update_state, state_of. destruct (assoc p (states m)) eqn:E;
    [| reflexivity].
  cbn [states set_states]. apply dict_set_keys. unfold dict_mem. now rewrite E.
Qed.

Lemma set_st_initial_same (s : State) : set_st_initial (st_initial s) s = s.
Proof. now destruct s. Qed.

Lemma initial_variant_refl (m : SCXMLModel) : initial_variant m m.
Proof.
  split; [reflexivity |]. split.
  - intros id s' H. exists s'. now rewrite set_st_initial_same.
  - now destruct m.
Qed.

Lemma initial_variant_trans (a b c : SCXMLModel) :
  initial_variant a b -> initial_variant b c -> initial_variant a c.
Proof.
  intros (K1 & S1 & E1) (K2 & S2 & E2). split; [congruence |]. split.
  - intros id s'' H. destruct (S2 _ _ H) as (s' & H' & ->).
    destruct (S1 _ _ H') as (s & Hs & ->). exists s. split; [assumption |].
    reflexivity.
  - rewrite E2 at 1. rewrite E1 at 1. reflexivity.
Qed.

Lemma initial_variant_update (p v : string) (m : SCXMLModel) :
  initial_variant m (update_state p (set_st_initial v) m).
Proof.
  split; [apply update_state_keys |]. split.
  - intros id s' H. destruct (String.eqb_spec p id) as [-> | Hne].
    + destruct (state_of m id) as [s|] eqn:E.
      * rewrite (state_of_update_eq _ _ _ _ E) in H. injection H as <-.
        exists s. split; reflexivity.
      * unfold update_state in H. rewrite E in H. congruence.
    + rewrite (state_of_update_ne _ _ _ _ Hne) in H. exists s'.
      now rewrite set_st_initial_same.
  - unfold update_state. destruct (state_of m p); now destruct m.
Qed.

Lemma initial_variant_override (m : SCXMLModel) (x : string) :
  initial_variant m (override_parent_initial m x).
Proof.
  unfold override_parent_initial.
  destruct (state_of m x) as [s|]; [| apply initial_variant_refl].
  destruct (st_parent s) as [p|]; [| apply initial_variant_refl].
  destruct (negb (truthy p) || negb (has_state m p));
    [apply initial_variant_refl | apply initial_variant_update].
Qed.

Lemma initial_variant_fold (l : list string) : forall m,
  initial_variant m (fold_left override_parent_initial l m).
Proof.
  induction l as [|x l IH]; intros m; [apply initial_variant_refl |].
  cbn [fold_left]. eapply initial_variant_trans;
    [apply initial_variant_override | apply IH].
Qed.

Lemma initial_variant_set_initial (v : string) (m m' : SCXMLModel) :
  initial_variant m m' -> initial_variant m (set_initial v m').
Proof.
  intros (K & S & E). split; [exact K |]. split; [exact S |].
  cbn [initial states set_initial]. rewrite E at 1. reflexivity.
Qed.

Lemma overrides_variant (m : SCXMLModel) :
  initial_variant m (_apply_parallel_initial_overrides m).
Proof.
  unfold _apply_parallel_initial_overrides.
  destruct (negb (truthy (initial m))); [apply initial_variant_refl |].
  destruct (split (initial m)) as [|a [|b l]];
    try apply initial_variant_refl.
  apply initial_variant_set_initial, initial_variant_fold.
Qed.

End PassFacts.

Module LeafFacts.
Import PyStr Regex Xml Classifier Model Parser CodeGen Conversions Spec Notions.
Import StrFacts ModelFacts OverrideFacts PassFacts.

(** A leaf ends the loop at once. *)
Lemma leaf_loop_leaf (m : SCXMLModel) (n : nat) (leaf : string) :
  is_leaf m leaf -> leaf_loop n m leaf = leaf.
Proof.
  intros Hleaf. destruct n as [|n]; [reflexivity |]. cbn [leaf_loop].
  destruct (state_of m leaf) as [s|] eqn:E; [| reflexivity].
  destruct (truthy (st_initial s) && has_state m (st_initial s)) eqn:H;
    [| reflexivity].
  apply andb_true_iff in H as [H1 H2].
  exfalso. apply (Hleaf (st_initial s)). exists s. auto.
Qed.

Lemma leaf_loop_complete (m : SCXMLModel) (k : nat) (a leaf : string) :
  hops m k a leaf -> is_leaf m leaf ->
  forall n, k <= n -> leaf_loop n m a = leaf.
Proof.
  induction 1 as [a | k a b c (s & Hs & Ht & Hh & ->) _ IH]; intros Hleaf n Hn.
  - now apply leaf_loop_leaf.
  - destruct n as [|n]; [lia |]. cbn [leaf_loop]. rewrite Hs, Ht, Hh.
    cbn [andb]. apply IH; [assumption | lia].
Qed.

Lemma deep_loop_complete (m : SCXMLModel) (k : nat) (a leaf : string) :
  hops m k a leaf -> is_leaf m leaf -> has_state m leaf = true ->
  forall n, k <= n -> deep_initial_loop n m a = Some leaf.
Proof.
  induction 1 as [a | k a b c (s & Hs & Ht & Hh & ->) _ IH];
    intros Hleaf Hex n Hn.
  - destruct n as [|n]; [reflexivity |]. cbn [deep_initial_loop].
    unfold has_state, dict_mem in Hex. unfold state_of.
    destruct (assoc a (states m)) as [s|] eqn:E; [| discriminate Hex].
    destruct (truthy (st_initial s) && has_state m (st_initial s)) eqn:H;
      [| reflexivity].
    apply andb_true_iff in H as [H1 H2].
    exfalso. apply (Hleaf (st_initial s)). exists s. auto.
  - destruct n as [|n]; [lia |]. cbn [deep_initial_loop]. rewrite Hs, Ht, Hh.
    cbn [andb]. apply IH; [assumption | assumption | lia].
Qed.

End LeafFacts.

Module ChildrenFacts.
Import PyStr Regex Xml Classifier Model Parser CodeGen Conversions Spec Notions.
Import StrFacts ModelFacts OverrideFacts PassFacts.

Lemma split_nil : split "" = [].
Proof. reflexivity. Qed.

(** The list [_parse_initial_children] gives a state is the split of its
    [initial], empty or not. *)
Lemma initial_children_value (s : State) :
  (if truthy (st_initial s) then split (st_initial s) else [])
  = split (st_initial s).
Proof. destruct (st_initial s); reflexivity. Qed.

Lemma invalid_target_none (m : SCXMLModel) (s : State) :
  invalid_initial_target m s = None <->
  Forall (fun c => has_state m c = true) (split (st_initial s)).
Proof.
  unfold invalid_initial_target. rewrite <- initial_children_value.
  destruct (truthy (st_initial s)); [| split; [constructor | reflexivity]].
  induction (split (st_initial s)) as [|c l IH]; [split; [constructor |
      reflexivity] |].
  rewrite filter_cons. destruct (decide (has_state m c = false)) as [Hc | Hc].
  - cbn [head]. split; [discriminate |]. intros H. apply Forall_inv in H.
      congruence.
  - rewrite IH. apply not_false_is_true in Hc. split.
    + intros H. now constructor.
    + intros H. now apply Forall_inv_tail in H.
Qed.

Lemma invalid_target_some (m : SCXMLModel) (s : State) (c : string) :
  invalid_initial_target m s = Some c ->
  c ∈ split (st_initial s) /\ has_state m c = false.
Proof.
  unfold invalid_initial_target. destruct (truthy (st_initial s)); [|
      discriminate].
  intros H. apply head_Some_elem_of, list_elem_of_filter in H. tauto.
Qed.

Lemma has_state_map_states (f : State -> State) (m : SCXMLModel) (id : string) :
  has_state (map_states f m) id = has_state m id.
Proof.
  unfold has_state, dict_mem. fold (state_of (map_states f m) id).
  rewrite state_of_map_states. fold (state_of m id).
  now destruct (state_of m id).
Qed.

Lemma parse_initial_children_ok (m m' : SCXMLModel) :
  _parse_initial_children m = Ok m' ->
  m' = map_states
         (fun s => set_st_initial_children (split (st_initial s)) s) m
  /\ Forall (fun kv : string * State =>
               Forall (fun c => has_state m c = true)
                 (split (st_initial (snd kv)))) (states m).
Proof.
  unfold _parse_initial_children.
  destruct (omap _ (states m)) as [|[s c] l] eqn:E; [| discriminate].
  intros H. injection H as <-. split.
  - unfold map_states. f_equal. apply map_ext. intros [id s]. cbn [fst snd].
    now rewrite initial_children_value.
  - apply Forall_forall. intros [id s] Hin. cbn [snd].
    apply invalid_target_none.
    destruct (invalid_initial_target m s) as [c|] eqn:Hc; [| reflexivity].
    exfalso.
    assert (Hm : (s, c) ∈ omap (fun kv : string * State =>
                match invalid_initial_target m (snd kv) with
                | Some child_id => Some (snd kv, child_id)
                | None => None
                end) (states m)).
    { apply list_elem_of_omap. exists (id, s). cbn [snd]. now rewrite Hc. }
    rewrite E in Hm. inversion Hm.
Qed.

Lemma parse_initial_children_raise (m : SCXMLModel) (e : py_error) :
  _parse_initial_children m = Raise e ->
  exists id s c msg,
    (id, s) ∈ states m /\ c ∈ split (st_initial s)
    /\ has_state m c = false /\ e = ValueError msg.
Proof.
  unfold _parse_initial_children.
  destruct (omap _ (states m)) as [|[s c] l] eqn:E; [discriminate |].
  intros H. injection H as <-.
  assert (Hm : (s, c) ∈ omap (fun kv : string * State =>
                match invalid_initial_target m (snd kv) with
                | Some child_id => Some (snd kv, child_id)
                | None => None
                end) (states m)) by (rewrite E; left).
  apply list_elem_of_omap in Hm as ([id s'] & Hin & Hs). cbn [snd] in Hs.
  destruct (invalid_initial_target m s') as [c'|] eqn:Hc; [| discriminate Hs].
  injection Hs as -> ->. apply invalid_target_some in Hc as [H1 H2].
  eauto 10.
Qed.

End ChildrenFacts.

Module PipelineFacts.
Import PyStr Regex Xml Classifier Model Parser CodeGen Conversions Spec Notions.
Import StrFacts ModelFacts OverrideFacts PassFacts ChildrenFacts.

Lemma and_then_ok {A B : Type} (x : filesystem * result A)
  (k : filesystem -> A -> filesystem * result B) (b : B) :
  snd (and_then x k) = Ok b ->
  exists a, snd x = Ok a /\ snd (k (fst x) a) = Ok b.
Proof.
  unfold and_then. destruct (snd x) as [a | e]; [eauto | discriminate].
Qed.

Section WithEnvironment.

Variable tostring : node -> string.
Variable tostring_c14n : node -> string.
Variable path_stem : string -> string.
Variable sibling_path : string -> string -> string.
Variable load_external_script : string -> string -> option string.
Variable reread : node -> node.

(** The model [parse_file] returns comes out of [_parse_initial_children]. *)
Lemma parse_root_last
  (parse_child : filesystem -> string -> filesystem * result SCXMLModel)
  (path : string) (fs : filesystem) (root : node) (m : SCXMLModel) :
  snd (parse_root tostring tostring_c14n path_stem sibling_path
         load_external_script reread parse_child path fs root) = Ok m ->
  exists m0, _parse_initial_children m0 = Ok m.
Proof.
  unfold parse_root. intros H.
  apply and_then_ok in H as (m1 & _ & H).
  apply and_then_ok in H as (m2 & _ & H).
  apply and_then_ok in H as (m3 & _ & H).
  match type of H with
  | context [_collect_child_to_parent_events ?a ?b ?c ?d ?e] =>
      destruct (_collect_child_to_parent_events a b c d e) as [fs' m4]
  end.
  cbn [snd] in H. eauto.
Qed.

Lemma parse_file_last (fuel : nat) (fs : filesystem) (path : string)
  (m : SCXMLModel) :
  snd (parse_file tostring tostring_c14n path_stem sibling_path
         load_external_script reread fuel fs path) = Ok m ->
  exists m0, _parse_initial_children m0 = Ok m.
Proof.
  destruct fuel as [|fuel]; [discriminate |]. cbn [parse_file].
  destruct (fs !! path) as [[root|]|]; try discriminate.
  apply parse_root_last.
Qed.

End WithEnvironment.

Lemma initial_children_checked (m0 m : SCXMLModel) :
  _parse_initial_children m0 = Ok m ->
  Forall (fun kv : string * State =>
            st_initial_children (snd kv) = split (st_initial (snd kv))
            /\ Forall (fun c => has_state m c = true)
                 (st_initial_children (snd kv)))
         (states m).
Proof.
  intros H. apply parse_initial_children_ok in H as [-> Hall].
  set (f := fun s => set_st_initial_children (split (st_initial s)) s).
  change (states (map_states f m0))
    with (map (fun kv : string * State => (fst kv, f (snd kv))) (states m0)).
  apply Forall_map.
  eapply Forall_impl; [exact Hall |]. intros [id s] Hs. cbn [fst snd] in *.
  split; [reflexivity |]. unfold f at 1.
  cbn [st_initial_children set_st_initial_children].
  eapply Forall_impl; [exact Hs |]. intros c Hc. cbn beta in *.
  now rewrite has_state_map_states.
Qed.

End PipelineFacts.

Module EventFacts.
Import PyStr Regex Xml Classifier Model Parser CodeGen Conversions Spec Notions.
Import StrFacts ModelFacts OverrideFacts PassFacts.

Lemma events_add_event (e x : string) (m : SCXMLModel) :
  e ∈ events (add_event x m) <-> e = x \/ e ∈ events m.
Proof. unfold add_event. cbn [events set_events]. set_solver. Qed.

Lemma done_state_fold (m : SCXMLModel) (l : list (string * State)) :
  forall acc e,
  e ∈ events
        (fold_left
           (fun acc (kv : string * State) =>
              let '(state_id, state) := kv in
              if st_is_parallel state then acc
              else if existsb
                        (fun kv' : string * State =>
                           bool_decide (st_parent (snd kv') = Some state_id)
                           && st_is_final (snd kv'))
                        (states m)
                   then add_event ("done.state." +:+ state_id) acc
                   else acc) l acc)
  <-> e ∈ events acc
      \/ exists id s, (id, s) ∈ l /\ st_is_parallel s = false
           /\ has_final_child m id /\ e = "done.state." +:+ id.
Proof.
  induction l as [|[id s] l IH]; intros acc e.
  - cbn [fold_left]. split; [auto |]. intros [H | (id & s & H & _)]; [exact H
      |].
    inversion H.
  - cbn [fold_left]. rewrite IH. clear IH.
    assert (Hf : existsb
                   (fun kv' : string * State =>
                      bool_decide (st_parent (snd kv') = Some id)
                      && st_is_final (snd kv')) (states m) = true
                 <-> has_final_child m id).
    { rewrite existsb_exists. unfold has_final_child. split.
      - intros ([cid c] & Hin & H). apply andb_true_iff in H as [H1 H2].
        apply bool_decide_eq_true in H1. exists cid, c.
        split; [now apply list_elem_of_In |]. auto.
      - intros (cid & c & Hin & H1 & H2). exists (cid, c).
        split; [now apply list_elem_of_In |]. cbn [snd].
        apply andb_true_iff. split; [now apply bool_decide_eq_true | exact
            H2]. }
    split.
    + intros [H | (id' & s' & Hin & Hp & Hc & ->)].
      * destruct (st_is_parallel s) eqn:Hp; [now left |].
        destruct (existsb _ (states m)) eqn:Hex; [| now left].
        apply events_add_event in H as [-> | H]; [| now left].
        right. exists id, s. split; [left |]. split; [assumption |].
        split; [now apply Hf | reflexivity].
      * right. exists id', s'. split; [now right | auto].
    + intros [H | (id' & s' & Hin & Hp & Hc & ->)].
      * left. destruct (st_is_parallel s); [assumption |].
        destruct (existsb _ (states m)); [| assumption].
        apply events_add_event. now right.
      * apply elem_of_cons in Hin as [Heq | Hin].
        -- injection Heq as -> ->. left. rewrite Hp.
           apply Hf in Hc. rewrite Hc. apply events_add_event. now left.
        -- right. exists id', s'. auto.
Qed.

End EventFacts.

Module AnalysisFacts.
Import PyStr Regex Xml Classifier Model Parser CodeGen Conversions Spec Notions.
Import StrFacts ModelFacts OverrideFacts PassFacts EventFacts.

Section PyvalInduction.

Variable P : pyval -> Prop.
Hypothesis HNone : P PNone.
Hypothesis HStr : forall s, P (PStr s).
Hypothesis HBool : forall b, P (PBool b).
Hypothesis HList : forall l, Forall P l -> P (PList l).
Hypothesis HDict :
  forall d, Forall (fun kv : string * pyval => P (snd kv)) d -> P (PDict d).

(** Induction on a value, with the property at hand for the values a list or
    a dictionary holds. *)
Fixpoint pyval_induction (v : pyval) : P v :=
  match v with
  | PNone => HNone
  | PStr s => HStr s
  | PBool b => HBool b
  | PList l =>
      HList l
        ((fix all (l : list pyval) : Forall P l :=
            match l with
            | [] => @List.Forall_nil _ P
            | x :: l' => @List.Forall_cons _ P x l' (pyval_induction x) (all l')
            end) l)
  | PDict d =>
      HDict d
        ((fix all (d : list (string * pyval))
            : Forall (fun kv : string * pyval => P (snd kv)) d :=
            match d with
            | [] => @List.Forall_nil _ _
            | kv :: d' =>
                @List.Forall_cons _ _ kv d' (pyval_induction (snd kv)) (all d')
            end) d)
  end.

End PyvalInduction.

Lemma step_refl (m : SCXMLModel) : analysis_step m m.
Proof. unfold analysis_step. split; [now destruct m | auto]. Qed.

Lemma step_trans (a b c : SCXMLModel) :
  analysis_step a b -> analysis_step b c -> analysis_step a c.
Proof.
  intros (E1 & J1 & D1 & S1) (E2 & J2 & D2 & S2).
  split; [| split; [congruence | split; [congruence | set_solver]]].
  rewrite E2 at 1. rewrite E1 at 1. reflexivity.
Qed.

Lemma step_raise (f : flag) (m : SCXMLModel) :
  f <> needs_jsengine -> f <> has_dynamic_file_invoke ->
  analysis_step m (raise_flag f m).
Proof.
  intros H1 H2. unfold analysis_step, raise_flag.
  split; [destruct m; reflexivity |].
  cbn [flag_of set_flag_of events set_events]. unfold set_flag.
  split; [destruct (decide (needs_jsengine = f)); congruence |].
  split; [destruct (decide (has_dynamic_file_invoke = f)); congruence |].
  reflexivity.
Qed.

Lemma step_clear (f : flag) (m : SCXMLModel) :
  f <> needs_jsengine -> f <> has_dynamic_file_invoke ->
  analysis_step m (clear_flag f m).
Proof.
  intros H1 H2. unfold analysis_step, clear_flag.
  split; [destruct m; reflexivity |].
  cbn [flag_of set_flag_of events set_events]. unfold set_flag.
  split; [destruct (decide (needs_jsengine = f)); congruence |].
  split; [destruct (decide (has_dynamic_file_invoke = f)); congruence |].
  reflexivity.
Qed.

Lemma step_add_event (e : string) (m : SCXMLModel) :
  analysis_step m (add_event e m).
Proof.
  unfold analysis_step, add_event.
  split; [destruct m; reflexivity |].
  cbn [flag_of events set_events].
  split; [reflexivity |]. split; [reflexivity |]. set_solver.
Qed.

Ltac step_through :=
  repeat first
    [ apply step_refl
    | match goal with
      | |- analysis_step _ (if ?b then _ else _) => destruct b
      | |- analysis_step _ (raise_flag _ _) =>
          eapply step_trans; [| apply step_raise; discriminate]
      | |- analysis_step _ (clear_flag _ _) =>
          eapply step_trans; [| apply step_clear; discriminate]
      | |- analysis_step _ (add_event _ _) =>
          eapply step_trans; [| apply step_add_event]
      end ].

Lemma step_analyze_flat (d : dict) (m : SCXMLModel) :
  analysis_step m (analyze_flat d m).
Proof. unfold analyze_flat. cbv zeta. step_through. Qed.

Lemma step_fold {A : Type} (f : SCXMLModel -> A -> SCXMLModel) (l : list A) :
  (forall a, a ∈ l -> forall m, analysis_step m (f m a)) ->
  forall m, analysis_step m (fold_left f l m).
Proof.
  induction l as [|a l IH]; intros H m; [apply step_refl |].
  cbn [fold_left]. eapply step_trans; [apply H; left |].
  apply IH. intros b Hb. apply H. now right.
Qed.

(** To show [A] everywhere, show it of a value whose inner values have it
    everywhere. *)
Lemma deep_all (A : pyval -> Prop) :
  (forall v,
     (forall l, v = PList l -> Forall (deep A) l) ->
     (forall d, v = PDict d ->
                Forall (fun kv : string * pyval => deep A (snd kv)) d) ->
     A v) ->
  forall v, deep A v.
Proof.
  intros H. induction v as [| s | b | l IH | d IH] using pyval_induction;
    constructor; try apply H; intros; try discriminate;
    match goal with E : _ = _ |- _ => injection E as <- end; assumption.
Qed.

Lemma deep_here (A : pyval -> Prop) (v : pyval) : deep A v -> A v.
Proof. now destruct 1. Qed.

Lemma deep_list (A : pyval -> Prop) (l : list pyval) :
  deep A (PList l) -> Forall (deep A) l.
Proof. inversion 1; auto. Qed.

Lemma deep_dict (A : pyval -> Prop) (d : list (string * pyval)) :
  deep A (PDict d) -> Forall (fun kv : string * pyval => deep A (snd kv)) d.
Proof. inversion 1; auto. Qed.

Ltac peel_step :=
  match goal with
  | |- analysis_step ?m (?f ?d ?x) =>
      apply (step_trans m x); [| generalize x; clear m; intros m]
  end.

Lemma step_analyze_action (action : pyval) :
  forall m, analysis_step m (_analyze_action action m).
Proof.
  apply (deep_here (fun v => forall m, analysis_step m (_analyze_action v m))).
  apply deep_all. clear action. intros v _ Hd m.
  destruct v as [| s | b | l | d]; try apply step_refl.
  specialize (Hd d eq_refl). cbn [_analyze_action].
  destruct (_ && _); [| apply step_analyze_flat].
  assert (Heach : forall l,
            Forall (deep (fun v => forall m,
                            analysis_step m (_analyze_action v m))) l ->
            forall m,
              analysis_step m
                ((fix each (l : list pyval) (m : SCXMLModel) {struct l}
                    : SCXMLModel :=
                    match l with
                    | [] => m
                    | a :: l' => each l' (_analyze_action a m)
                    end) l m)).
  { induction 1 as [|a l0 Ha _ IHl]; intros m0; [apply step_refl |].
    eapply step_trans; [apply (deep_here _ _ Ha) | apply IHl]. }
  peel_step; [peel_step; [peel_step; [apply step_analyze_flat |] |] |].
  - revert m. induction Hd as [|[k v] rest Hv _ IHr]; intros m;
      [apply step_refl |].
    destruct (String.eqb "then_actions" k); [| apply IHr].
    destruct v; try apply step_refl. apply Heach, deep_list, Hv.
  - revert m. induction Hd as [|[k v] rest Hv _ IHr]; intros m;
      [apply step_refl |].
    destruct (String.eqb "elseif_branches" k); [| apply IHr].
    destruct v as [| | | branches |]; try apply step_refl.
    apply deep_list in Hv. clear -Hv Heach. revert m.
    induction Hv as [|b bs Hb _ IHb]; intros m; [apply step_refl |].
    destruct b as [| | | | entries]; try apply IHb.
    eapply step_trans; [| apply IHb]. apply deep_dict in Hb.
    clear -Hb Heach. revert m.
    induction Hb as [|[k v] rest Hv _ IHr]; intros m; [apply step_refl |].
    destruct (String.eqb "actions" k); [| apply IHr].
    destruct v; try apply step_refl. apply Heach, deep_list, Hv.
  - revert m. induction Hd as [|[k v] rest Hv _ IHr]; intros m;
      [apply step_refl |].
    destruct (String.eqb "else_actions" k); [| apply IHr].
    destruct v; try apply step_refl. apply Heach, deep_list, Hv.
Qed.

End AnalysisFacts.

Module PrepareFacts.
Import PyStr Regex Xml Classifier Model Parser CodeGen Conversions Spec Notions.
Import StrFacts ModelFacts PrefixFacts OverrideFacts PassFacts EventFacts
  AnalysisFacts.

Lemma step_analyze_state (s : State) (m : SCXMLModel) :
  analysis_step m (analyze_state s m).
Proof.
  unfold analyze_state. cbv zeta.
  match goal with
  | |- analysis_step _ (fold_left ?f ?l ?x) =>
      apply (step_trans m x);
        [| apply (step_fold f); intros a _ m0; apply step_analyze_action]
  end.
  apply (step_fold
           (fun m transition =>
              fold_left (fun m action => _analyze_action (PDict action) m)
                (tr_actions transition)
                (if truthy (tr_cond transition)
                 then raise_flag needs_guard_helper m else m))).
  intros t _ m0.
  match goal with
  | |- analysis_step _ (fold_left ?f ?l ?x) =>
      apply (step_trans m0 x);
        [| apply (step_fold f); intros a _ m1; apply step_analyze_action]
  end.
  step_through.
Qed.

Lemma step_view (m m' : SCXMLModel) :
  analysis_step m m' -> wrapper_view m' = wrapper_view m.
Proof.
  intros (E & _ & D & _). unfold wrapper_view. rewrite D, E.
  reflexivity.
Qed.

Lemma step_static_invokes (m m' : SCXMLModel) :
  analysis_step m m' -> static_invokes m' = static_invokes m.
Proof. intros (E & _). now rewrite E. Qed.

Lemma step_states (m m' : SCXMLModel) :
  analysis_step m m' -> states m' = states m.
Proof. intros (E & _). now rewrite E. Qed.

(** The phases of [_analyze_model_features]: the scan, which leaves
    [needs_jsengine] alone, and the two decisions. *)
Lemma features_phases (m : SCXMLModel) :
  exists m2,
    analysis_step m m2
    /\ _analyze_model_features m
       = analyze_donedata
           (if flag_of m2 needs_jsengine then
              fold_left (fun m f => raise_flag f m)
                [needs_event_type_helper; needs_assign_helper; needs_foreach;
                 needs_guard_helper]
                (add_event "error.execution" m2)
            else m2).
Proof.
  unfold _analyze_model_features.
  set (m1 := fold_left (fun m f => clear_flag f m) _ m).
  set (m2 := fold_left (fun m (kv : string * State) =>
                          analyze_state (snd kv) m) (states m1) m1).
  exists m2. split; [| reflexivity].
  apply (step_trans m m1 m2).
  - apply (step_fold (fun m f => clear_flag f m)). intros f Hf m0.
    apply step_clear; intros ->;
      repeat (apply elem_of_cons in Hf as [Hf | Hf]; [discriminate Hf |]);
      inversion Hf.
  - apply (step_fold (fun m (kv : string * State) => analyze_state (snd kv) m)).
    intros kv _ m0. apply step_analyze_state.
Qed.

Lemma analyze_donedata_spec (m : SCXMLModel) :
  (analyze_donedata m = m
   \/ "error.execution" ∈ events (analyze_donedata m))
  /\ events m ⊆ events (analyze_donedata m)
  /\ states (analyze_donedata m) = states m
  /\ wrapper_view (analyze_donedata m) = wrapper_view m
  /\ static_invokes (analyze_donedata m) = static_invokes m
  /\ (forall f, flag_of m f = true -> flag_of (analyze_donedata m) f = true).
Proof.
  unfold analyze_donedata.
  destruct (omap _ (states m)) as [|dd l].
  { repeat split; auto. }
  split.
  { right. destruct (_ || _); cbn; set_solver. }
  split; [destruct (_ || _); cbn; set_solver |].
  split; [now destruct (_ || _) |].
  split; [now destruct (_ || _) |].
  split; [now destruct (_ || _) |].
  intros f Hf. destruct (_ || _); cbn; unfold set_flag;
    repeat destruct (decide _); auto.
Qed.

Lemma raise_all_flags (l : list flag) : forall m f,
  flag_of (fold_left (fun m f => raise_flag f m) l m) f
  = bool_decide (f ∈ l) || flag_of m f.
Proof.
  induction l as [|g l IH]; intros m f; [reflexivity |].
  cbn [fold_left]. rewrite IH. cbn [raise_flag flag_of set_flag_of].
  unfold set_flag. destruct (decide (f = g)) as [-> | Hne].
  - rewrite orb_true_r. symmetry. rewrite bool_decide_eq_true_2; [reflexivity
      | left].
  - destruct (bool_decide (f ∈ l)) eqn:E.
    + apply bool_decide_eq_true in E. rewrite bool_decide_eq_true_2;
        [reflexivity | now right].
    + apply bool_decide_eq_false in E. rewrite bool_decide_eq_false_2;
        [reflexivity |].
      intros H. apply elem_of_cons in H as [H | H]; contradiction.
Qed.

Lemma raise_all_events (l : list flag) : forall m,
  events (fold_left (fun m f => raise_flag f m) l m) = events m.
Proof. induction l as [|g l IH]; intros m; [reflexivity |]. cbn [fold_left].
    now rewrite IH. Qed.

Lemma raise_all_step (l : list flag) :
  Forall (fun f => f <> needs_jsengine /\ f <> has_dynamic_file_invoke) l ->
  forall m, analysis_step m (fold_left (fun m f => raise_flag f m) l m).
Proof.
  intros H. apply step_fold. intros f Hf m. rewrite Forall_forall in H.
  destruct (H f Hf). now apply step_raise.
Qed.

End PrepareFacts.

Module TrackFacts.
Import PyStr Regex Xml Classifier Model Parser CodeGen Conversions Spec Notions.
Import StrFacts ModelFacts PrefixFacts OverrideFacts PassFacts EventFacts
  AnalysisFacts PrepareFacts.

Lemma features_engine_event (m : SCXMLModel) :
  flag_of (_analyze_model_features m) needs_jsengine = true ->
  "error.execution" ∈ events (_analyze_model_features m).
Proof.
  destruct (features_phases m) as (m2 & Hstep & ->).
  match goal with |- context [analyze_donedata ?x] => set (X := x) end.
  destruct (analyze_donedata_spec X) as ([Heq | Hin] & _); [| auto].
  rewrite Heq. subst X. destruct (flag_of m2 needs_jsengine) eqn:E.
  - intros _. rewrite raise_all_events. apply events_add_event. now left.
  - congruence.
Qed.

Lemma features_events_grow (m : SCXMLModel) :
  events m ⊆ events (_analyze_model_features m).
Proof.
  destruct (features_phases m) as (m2 & (_ & _ & _ & Hsub) & ->).
  match goal with |- context [analyze_donedata ?x] => set (X := x) end.
  destruct (analyze_donedata_spec X) as (_ & Hsub' & _).
  assert (events m2 ⊆ events X).
  { subst X. destruct (flag_of m2 needs_jsengine); [| reflexivity].
    rewrite raise_all_events. unfold add_event. cbn. set_solver. }
  set_solver.
Qed.

Lemma features_engine_helpers (m : SCXMLModel) (f : flag) :
  flag_of m needs_jsengine = true ->
  f ∈ [needs_jsengine; needs_event_type_helper; needs_assign_helper;
       needs_foreach; needs_guard_helper] ->
  flag_of (_analyze_model_features m) f = true.
Proof.
  intros Hm Hf.
  destruct (features_phases m) as (m2 & (_ & J & _) & ->).
  apply analyze_donedata_spec. rewrite J, Hm, raise_all_flags.
  apply elem_of_cons in Hf as [-> | Hf].
  - cbn [add_event flag_of set_events]. rewrite J, Hm. apply orb_true_r.
  - rewrite bool_decide_eq_true_2; [reflexivity | exact Hf].
Qed.

Lemma features_view (m : SCXMLModel) :
  wrapper_view (_analyze_model_features m) = wrapper_view m
  /\ static_invokes (_analyze_model_features m) = static_invokes m
  /\ states (_analyze_model_features m) = states m.
Proof.
  destruct (features_phases m) as (m2 & Hstep & ->).
  match goal with |- context [analyze_donedata ?x] => set (X := x) end.
  destruct (analyze_donedata_spec X) as (_ & _ & Hst & Hv & Hsi & _).
  rewrite Hv, Hsi, Hst.
  assert (HX : analysis_step m2 X).
  { subst X. destruct (flag_of m2 needs_jsengine); [| apply step_refl].
    eapply step_trans; [apply step_add_event |].
    apply raise_all_step. repeat constructor; discriminate. }
  pose proof (step_trans _ _ _ Hstep HX) as H.
  split; [now apply step_view |].
  split; [now apply step_static_invokes | now apply step_states].
Qed.

Lemma classify_view (m : SCXMLModel) :
  wrapper_view (_classify_variables m) = wrapper_view m
  /\ static_invokes (_classify_variables m) = static_invokes m
  /\ states (_classify_variables m) = states m
  /\ events (_classify_variables m) = events m.
Proof.
  unfold _classify_variables, wrapper_view.
  assert (E : map dv_id (map (fun v => set_dv_type (fst (classify_variable v))
      v)
                           (variables m)) = map dv_id (variables m)).
  { rewrite map_map. now apply map_ext. }
  destruct (existsb _ (variables m)); cbn; now rewrite E.
Qed.

Lemma dict_mem_keys {A B : Type} (k : string) (d : list (string * A)) :
  forall d' : list (string * B),
  map fst d = map fst d' -> dict_mem k d = dict_mem k d'.
Proof.
  unfold dict_mem. induction d as [|[a x] d IH]; intros [|[b y] d'] E;
    try discriminate; [reflexivity |].
  cbn [map fst] in E. injection E as -> E. cbn [assoc].
  destruct (String.eqb k b); [reflexivity | now apply IH].
Qed.

(** The choice of the track reads the initial, the state ids, the variable
    ids and one flag. *)
Lemma wrapper_by_view (m m' : SCXMLModel) :
  wrapper_view m = wrapper_view m' ->
  _needs_interpreter_wrapper m = _needs_interpreter_wrapper m'.
Proof.
  unfold wrapper_view. intros E. injection E as Ei Es Ev Ef.
  unfold _needs_interpreter_wrapper. rewrite Ei, Ev, Ef.
  assert (Hs : forall id, has_state m id = has_state m' id).
  { intros id. unfold has_state. now apply dict_mem_keys. }
  assert (Hall : forall l, forallb (has_state m) l = forallb (has_state m') l).
  { induction l as [|x l IH]; [reflexivity |]. cbn [forallb]. now rewrite Hs,
      IH. }
  now rewrite Hs, Hall.
Qed.

Lemma build_view (m : SCXMLModel) :
  wrapper_view (_build_prefix_matching m) = wrapper_view m.
Proof.
  unfold wrapper_view, _build_prefix_matching, map_states.
  cbn [initial states variables flag_of set_states].
  rewrite map_map. cbn [fst]. reflexivity.
Qed.

(** The model [prepare] hands to [_build_prefix_matching]. *)
Lemma prepare_phases (as_child : bool) (m : SCXMLModel) :
  exists m5,
    prepare as_child m = _build_prefix_matching m5
    /\ wrapper_view m5 = wrapper_view m
    /\ static_invokes m5 = static_invokes m
    /\ (static_invokes m <> [] -> forall e, e ∈ invoke_events -> e ∈ events m5).
Proof.
  unfold prepare.
  set (m1 := if as_child then raise_flag has_parent_communication m else m).
  set (m2 := _classify_variables m1).
  set (m3 := _analyze_model_features m2).
  cbv zeta.
  set (m4 := if existsb _ (states m3) then add_event "Wildcard" m3 else m3).
  set (m5 := match static_invokes m4 with
             | [] => m4
             | _ => fold_left (fun m e => add_event e m) invoke_events m4
             end).
  exists m5. split; [reflexivity |].
  assert (H1 : analysis_step m m1).
  { subst m1. destruct as_child; [apply step_raise; discriminate | apply
      step_refl]. }
  destruct (classify_view m1) as (V2 & S2 & _).
  destruct (features_view m2) as (V3 & S3 & _).
  assert (H4 : analysis_step m3 m4).
  { subst m4. destruct (existsb _ (states m3)); [apply step_add_event | apply
      step_refl]. }
  assert (H5 : analysis_step m4 m5).
  { subst m5. destruct (static_invokes m4); [apply step_refl |].
    apply (step_fold (fun m e => add_event e m)). intros e _ m0.
    apply step_add_event. }
  assert (S : static_invokes m5 = static_invokes m).
  { rewrite (step_static_invokes _ _ H5), (step_static_invokes _ _ H4).
    fold m3 m2 in S3, S2. rewrite S3, S2. now apply step_static_invokes. }
  split.
  { rewrite (step_view _ _ H5), (step_view _ _ H4).
    fold m3 m2 in V3, V2. rewrite V3, V2. now apply step_view. }
  split; [exact S |].
  intros Hne e He.
  assert (S4 : static_invokes m4 = static_invokes m).
  { rewrite <- S. symmetry. now apply step_static_invokes. }
  subst m5. destruct (static_invokes m4) as [|si l] eqn:E4; [congruence |].
  unfold invoke_events in *. cbn [fold_left].
  repeat (apply elem_of_cons in He as [-> | He]);
    [| | | inversion He]; rewrite !events_add_event; auto.
Qed.

Lemma prepare_keeps_track (as_child : bool) (m : SCXMLModel) :
  _needs_interpreter_wrapper (prepare as_child m)
  = _needs_interpreter_wrapper m.
Proof.
  destruct (prepare_phases as_child m) as (m5 & -> & V & _).
  apply wrapper_by_view. now rewrite build_view.
Qed.

Lemma build_prefix_matching_list (m : SCXMLModel) (sid : string) (s : State)
  (t : Transition) :
  state_of (_build_prefix_matching m) sid = Some s ->
  t ∈ st_transitions s ->
  tr_event t <> "" ->
  is_wildcard (tr_event t) = false ->
  tr_prefix_matching_events t
  = Some (filter (fun e => prefix_match (tr_event t) e = true) (all_events m)).
Proof.
  unfold _build_prefix_matching. rewrite state_of_map_states.
  destruct (state_of m sid) as [s0|]; [| discriminate].
  simpl. intros [= <-]. simpl.
  intros Ht Hne Hw. apply list_elem_of_fmap in Ht as (t0 & -> & _).
  destruct (negb (truthy (tr_event t0)) || is_wildcard (tr_event t0)) eqn:E.
  - exfalso. apply orb_prop in E as [E | E].
    + destruct (tr_event t0); [contradiction | discriminate E].
    + congruence.
  - reflexivity.
Qed.

End TrackFacts.

Module RegionFacts.
Import PyStr Regex Xml Classifier Model Parser CodeGen Conversions Spec Notions.
Import StrFacts ModelFacts PrefixFacts OverrideFacts PassFacts EventFacts
  AnalysisFacts PrepareFacts TrackFacts.

Lemma prepare_prefix_list (as_child : bool) (m : SCXMLModel) (sid : string)
  (s : State) (t : Transition) :
  state_of (prepare as_child m) sid = Some s ->
  t ∈ st_transitions s ->
  tr_event t <> "" ->
  is_wildcard (tr_event t) = false ->
  exists P,
    tr_prefix_matching_events t = Some P
    /\ (static_invokes m = [] -> NoDup P)
    /\ (static_invokes m <> [] ->
        forall e, e ∈ invoke_events ->
                  prefix_match (tr_event t) e = true -> ~ NoDup P).
Proof.
  destruct (prepare_phases as_child m) as (m5 & -> & _ & S & Hev).
  intros Hs Ht Hne Hw.
  rewrite (build_prefix_matching_list m5 sid s t Hs Ht Hne Hw).
  eexists. split; [reflexivity |]. unfold all_events. rewrite S. split.
  - intros ->. rewrite List.app_nil_r. apply NoDup_filter, NoDup_elements.
  - intros Hsi e He Hm. specialize (Hev Hsi e He).
    destruct (static_invokes m) as [|si l]; [congruence |].
    rewrite filter_app. intros Hnd. apply NoDup_app in Hnd as (_ & Hd & _).
    apply (Hd e); apply list_elem_of_filter; split; auto.
    now apply elem_of_elements.
Qed.

(** Some later entry of the list makes [id] parallel, or none does. *)
Lemma classic_later (id : string) (l : list (string * State)) :
  (exists s, (id, s) ∈ l /\ st_is_parallel s = true)
  \/ (forall s, (id, s) ∈ l -> st_is_parallel s = false).
Proof.
  induction l as [|[k s] l [IH | IH]].
  - right. intros s H. inversion H.
  - left. destruct IH as (s' & H & Hp). exists s'. split; [now right | exact
      Hp].
  - destruct (String.eqb_spec k id) as [-> | Hne].
    + destruct (st_is_parallel s) eqn:Hp.
      * left. exists s. split; [left | exact Hp].
      * right. intros s' H. apply elem_of_cons in H as [H | H]; [| auto].
        now injection H as ->.
    + right. intros s' H. apply elem_of_cons in H as [H | H]; [| auto].
      injection H as -> _. contradiction.
Qed.

Lemma regions_fold (m0 : SCXMLModel)
  (f : SCXMLModel -> string * State -> SCXMLModel) :
  f = (fun m (kv : string * State) =>
         let '(state_id, state) := kv in
         if st_is_parallel state then
           let child_regions :=
             map fst
               (filter (fun kv' : string * State =>
                          st_parent (snd kv') = Some state_id) (states m)) in
           set_parallel_regions
             (dict_set state_id child_regions (parallel_regions m)) m
         else m) ->
  forall l acc, states acc = states m0 ->
  states (fold_left f l acc) = states m0
  /\ forall id,
       ((exists s, (id, s) ∈ l /\ st_is_parallel s = true) ->
        assoc id (parallel_regions (fold_left f l acc))
        = Some (map fst (filter (fun kv' : string * State =>
                                   st_parent (snd kv') = Some id) (states m0))))
       /\ ((forall s, (id, s) ∈ l -> st_is_parallel s = false) ->
           assoc id (parallel_regions (fold_left f l acc))
           = assoc id (parallel_regions acc)).
Proof.
  intros Hf. induction l as [|[sid s] l IH]; intros acc Hacc.
  - cbn [fold_left]. split; [assumption |]. intros id. split; [| reflexivity].
    intros (s & H & _). inversion H.
  - cbn [fold_left].
    assert (Hstep : f acc (sid, s)
                    = if st_is_parallel s
                      then set_parallel_regions
                             (dict_set sid
                                (map fst
                                   (filter (fun kv' : string * State =>
                                              st_parent (snd kv') = Some sid)
                                      (states acc)))
                                (parallel_regions acc)) acc
                      else acc) by (now rewrite Hf).
    assert (Hacc' : states (f acc (sid, s)) = states m0).
    { rewrite Hstep. now destruct (st_is_parallel s). }
    destruct (IH _ Hacc') as [Hst Hid]. split; [exact Hst |].
    intros id. destruct (Hid id) as [Hyes Hno]. split.
    + intros (s' & Hin & Hp).
      destruct (classic_later id l) as [Hl | Hl]; [now apply Hyes |].
      rewrite (Hno Hl). apply elem_of_cons in Hin as [Heq | Hin].
      * injection Heq as -> ->. rewrite Hstep, Hp.
        cbn [parallel_regions set_parallel_regions]. rewrite assoc_dict_set_eq.
        now rewrite Hacc.
      * exfalso. specialize (Hl s' Hin). congruence.
    + intros Hall. rewrite Hno by (intros s' Hs'; apply Hall; now right).
      rewrite Hstep. destruct (st_is_parallel s) eqn:Hp; [| reflexivity].
      cbn [parallel_regions set_parallel_regions].
      destruct (String.eqb_spec sid id) as [-> | Hne].
      * specialize (Hall s (list_elem_of_here _ _)). congruence.
      * now apply assoc_dict_set_ne.
Qed.

Lemma compute_regions_spec (m : SCXMLModel) (id : string) :
  ((exists s, (id, s) ∈ states m /\ st_is_parallel s = true) ->
   assoc id (parallel_regions (_compute_parallel_regions m))
   = Some (map fst (filter (fun kv' : string * State =>
                              st_parent (snd kv') = Some id) (states m))))
  /\ ((forall s, (id, s) ∈ states m -> st_is_parallel s = false) ->
      assoc id (parallel_regions (_compute_parallel_regions m))
      = assoc id (parallel_regions m)).
Proof.
  unfold _compute_parallel_regions.
  now apply (regions_fold m _ eq_refl (states m) m eq_refl).
Qed.

End RegionFacts.

Module CollectFacts.
Import PyStr Regex Xml Classifier Model Parser CodeGen Conversions Spec Notions.
Import StrFacts ModelFacts PassFacts EventFacts.

Lemma add_events_fold (l : list string) : forall m e,
  e ∈ events (fold_left (fun m event => add_event event m) l m)
  <-> e ∈ l \/ e ∈ events m.
Proof.
  induction l as [|x l IH]; intros m e; cbn [fold_left].
  - split; [auto |]. intros [H | H]; [inversion H | exact H].
  - rewrite IH, events_add_event, elem_of_cons. tauto.
Qed.

Lemma add_events_only (l : list string) : forall m,
  fold_left (fun m event => add_event event m) l m
  = set_events (events (fold_left (fun m event => add_event event m) l m)) m.
Proof.
  induction l as [|x l IH]; intros m; cbn [fold_left]; [now destruct m |].
  rewrite IH at 1. now destruct m.
Qed.

(** The events a [<send>] to the parent contributes. *)
Lemma parent_events_of_spec (actions : list dict) (e : string) :
  e ∈ parent_events_of actions <->
  exists action, action ∈ actions
    /\ is_str (dict_get "type" action) "send" = true
    /\ is_str (dict_get "target" action) "#_parent" = true
    /\ dict_str "event" action = e /\ e <> "".
Proof.
  unfold parent_events_of. rewrite list_elem_of_omap. split.
  - intros (a & Hin & H). exists a. split; [exact Hin |].
    destruct (is_str (dict_get "type" a) "send"); [| discriminate H].
    destruct (is_str (dict_get "target" a) "#_parent"); [| discriminate H].
    cbn [andb] in H. destruct (dict_str "event" a) as [|c r] eqn:E;
      [discriminate H |].
    injection H as <-. auto.
  - intros (a & Hin & Ht & Hg & He & Hne). exists a. split; [exact Hin |].
    rewrite Ht, Hg, He. cbn [andb]. destruct e; [contradiction | reflexivity].
Qed.

Section WithChildParser.

Variable sibling_path : string -> string -> string.
Variable parse_child : filesystem -> string -> filesystem * result SCXMLModel.
Variable scxml_path : string.

Lemma collect_step_grows (acc : filesystem * SCXMLModel * list string)
  (si : StaticInvoke) :
  events (snd (fst acc)) ⊆ events (snd (fst (collect_step sibling_path
      parse_child scxml_path acc si)))
  /\ snd (fst (collect_step sibling_path parse_child scxml_path acc si))
     = set_events (events (snd (fst (collect_step sibling_path parse_child
         scxml_path acc si)))) (snd (fst acc)).
Proof.
  destruct acc as [[fs m] parsed]. unfold collect_step. cbn [fst snd].
  assert (Hm : m = set_events (events m) m) by now destruct m.
  destruct (negb (truthy (si_child_name si))); [auto |].
  destruct (in_list _ parsed); [auto |].
  destruct (negb (exists_file fs _)); [auto |].
  destruct (parse_child fs _) as [fs' [cm | e]]; cbn [fst snd]; [| auto].
  split; [| apply add_events_only].
  intros e He. apply add_events_fold. now right.
Qed.

Lemma collect_fold_grows (l : list StaticInvoke) :
  forall acc,
  events (snd (fst acc)) ⊆ events (snd (fst (fold_left (collect_step
      sibling_path parse_child scxml_path) l acc)))
  /\ snd (fst (fold_left (collect_step sibling_path parse_child scxml_path) l
      acc))
     = set_events (events (snd (fst (fold_left (collect_step sibling_path
         parse_child scxml_path) l acc))))
         (snd (fst acc)).
Proof.
  induction l as [|si l IH]; intros acc; cbn [fold_left].
  - split; [reflexivity | destruct (snd (fst acc)); reflexivity].
  - pose proof (IH (collect_step sibling_path parse_child scxml_path acc si))
      as [H1 H2].
    pose proof (collect_step_grows acc si) as [H3 H4].
    split; [intros e He; apply H1, H3, He |].
    rewrite H2 at 1. rewrite H4 at 1. reflexivity.
Qed.

Lemma collect_unfold (fs : filesystem) (m : SCXMLModel) :
  snd (_collect_child_to_parent_events sibling_path parse_child scxml_path
         fs m)
  = snd (fst (fold_left (collect_step sibling_path parse_child scxml_path)
      (static_invokes m) (fs, m, []))).
Proof.
  unfold _collect_child_to_parent_events.
  destruct (static_invokes m) as [|si l] eqn:E; [reflexivity |].
  change (fold_left _ (si :: l) (fs, m, []))
    with (fold_left (collect_step sibling_path parse_child scxml_path) (si ::
        l) (fs, m, [])).
  now destruct (fold_left (collect_step sibling_path parse_child scxml_path)
      (si :: l) (fs, m, [])) as [[fs' m'] p].
Qed.

Lemma collect_first (fs fs' : filesystem) (m child_model : SCXMLModel)
  (si : StaticInvoke) (rest : list StaticInvoke) (e : string) :
  static_invokes m = si :: rest ->
  truthy (si_child_name si) = true ->
  exists_file fs (sibling_path scxml_path (si_child_name si +:+ ".scxml"))
  = true ->
  parse_child fs (sibling_path scxml_path (si_child_name si +:+ ".scxml"))
  = (fs', Ok child_model) ->
  e ∈ child_parent_events child_model ->
  e ∈ events (snd (_collect_child_to_parent_events sibling_path parse_child
                     scxml_path fs m)).
Proof.
  intros Hsi Hname Hex Hparse He. rewrite collect_unfold, Hsi.
  cbn [fold_left].
  apply (collect_fold_grows rest).
  unfold collect_step. rewrite Hname, Hex, Hparse. cbn [negb in_list existsb
      fst snd].
  apply add_events_fold. now left.
Qed.

End WithChildParser.

(** The scan covers the entry, exit, transition and initial-transition
    actions of every state of the child. *)
Lemma child_scan_covers (child_model : SCXMLModel) (sid : string)
  (child_state : State) (action : dict) (e : string) :
  (sid, child_state) ∈ states child_model ->
  action ∈ st_on_entry child_state ++ st_on_exit child_state
           ++ List.concat (map tr_actions (st_transitions child_state))
           ++ st_initial_transition_actions child_state ->
  is_str (dict_get "type" action) "send" = true ->
  is_str (dict_get "target" action) "#_parent" = true ->
  dict_str "event" action = e -> e <> "" ->
  e ∈ child_parent_events child_model.
Proof.
  intros Hs Ha Ht Hg He Hne. unfold child_parent_events.
  apply list_elem_of_In, in_concat. eexists. split.
  { apply in_map_iff. exists (sid, child_state). split; [reflexivity |].
    now apply list_elem_of_In. }
  cbn [snd]. apply list_elem_of_In.
  assert (Hp : forall l, action ∈ l -> e ∈ parent_events_of l).
  { intros l Hl. apply parent_events_of_spec. exists action. auto. }
  apply elem_of_app in Ha as [Ha | Ha];
    [| apply elem_of_app in Ha as [Ha | Ha];
       [| apply elem_of_app in Ha as [Ha | Ha]]].
  - apply elem_of_app. left. apply Hp, elem_of_app. now left.
  - apply elem_of_app. left. apply Hp, elem_of_app. now right.
  - apply elem_of_app. right. apply elem_of_app. left.
    apply list_elem_of_In, in_concat.
    apply list_elem_of_In, in_concat in Ha as (l & Hl & Ha).
    apply in_map_iff in Hl as (t & <- & Ht').
    exists (parent_events_of (tr_actions t)). split.
    + apply in_map_iff. now exists t.
    + apply list_elem_of_In, Hp. now apply list_elem_of_In.
  - apply elem_of_app. right. apply elem_of_app. right. now apply Hp.
Qed.

End CollectFacts.

Module InvokeFacts.
Import PyStr Regex Xml Classifier Model Parser CodeGen Conversions Spec Notions.
Import StrFacts ModelFacts PassFacts EventFacts.

Section WithEnvironment.

Variable path_stem : string -> string.
Variable sibling_path : string -> string -> string.
Variable reread : node -> node.
Variable parse_child : filesystem -> string -> filesystem * result SCXMLModel.
Variable scxml_path : string.

(** Once an invoke has raised, the loop of [_process_static_invokes] does
    nothing more. *)
Lemma static_fold_raised (work : list (State * Invoke)) :
  forall (fs : filesystem) (e : py_error),
  snd (fold_left
         (fun (acc : filesystem * result static_pass) (w : State * Invoke) =>
            match snd acc with
            | Raise e => acc
            | Ok sp =>
                match
                  process_static_invoke path_stem sibling_path reread
                    parse_child scxml_path (fst w) (snd w) sp
                with
                | Ok sp' => (sp_fs sp', Ok sp')
                | Raise e => (sp_fs sp, Raise e)
                end
            end) work (fs, Raise e))
  = Raise e.
Proof. induction work as [|w work IH]; intros fs e; [reflexivity | apply IH].
    Qed.

Lemma first_static_invoke_unbound (fs : filesystem) (m : SCXMLModel)
  (sid : string) (s : State) (others : list (string * State))
  (invoke : Invoke) (more : list Invoke) (i : nat) (later : list nat)
  (si : StaticInvoke) :
  states m = (sid, s) :: others ->
  st_invokes s = invoke :: more ->
  iv_is_static invoke = true ->
  default false (iv_has_inline_scxml invoke) = false ->
  truthy (iv_src invoke) = true ->
  st_static_invokes s = i :: later ->
  static_invokes m !! i = Some si ->
  si_src si = iv_src invoke ->
  exists_file fs
    (sibling_path scxml_path
       (path_stem (if startswith (iv_src invoke) "file:"
                   then str_drop 5 (iv_src invoke) else iv_src invoke)
        +:+ ".scxml")) = false ->
  snd (_process_static_invokes path_stem sibling_path reread parse_child
         scxml_path fs m) = Raise UnboundLocalError.
Proof.
  intros Hst Hinv Hstatic Hinline Hsrc Hsis Hsi Hm Hfile.
  unfold _process_static_invokes. rewrite Hst. cbn [map List.concat snd].
  rewrite Hinv. cbn [map app fold_left].
  assert (Hp : process_static_invoke path_stem sibling_path reread parse_child
                 scxml_path s invoke (mkStaticPass fs m [] 0 None)
               = Raise UnboundLocalError).
  { unfold process_static_invoke. rewrite Hstatic. cbn [negb sp_model sp_fs].
    rewrite Hsis, filter_cons, Hsi, Hm, String.eqb_refl.
    rewrite decide_True by reflexivity. cbn [head].
    rewrite Hinline, Hsrc, Hfile. reflexivity. }
  match goal with
  | |- snd (let '(_, _) := fold_left ?F ?work ?acc in _) = _ =>
      pose proof (static_fold_raised work fs UnboundLocalError) as Hr;
      assert (Hacc : acc = (fs, Raise UnboundLocalError))
  end.
  { cbn [snd fst]. now rewrite Hp. }
  rewrite Hacc.
  match goal with
  | |- snd (let '(_, _) := ?x in _) = _ => destruct x as [fs' r]
  end.
  cbn [snd] in *. now rewrite Hr.
Qed.

End WithEnvironment.
End InvokeFacts.

Module ScriptFacts.
Import PyStr Regex Xml Classifier Model Parser CodeGen Conversions Spec Notions.
Import StrFacts ModelFacts PassFacts EventFacts.

(** The lines of a list of actions. *)
Lemma actions_js_lines (actions : list dict) :
  _actions_to_javascript actions
  = option_map (join " ")
      (fold_right
         (fun action rest =>
            lines ← action_js (PDict action); more ← rest;
            Some (lines ++ more))
         (Some []) actions).
Proof. now destruct actions. Qed.

(** The lines of the action the parser builds for an [<if>]: the branches
    are stored under keys the conversion does not read. *)
Lemma if_action_lines (child : node) (m : SCXMLModel) :
  action_js (PDict (fst (parse_if child m)))
  = Some (if truthy (get child "cond" "")
          then ["if (" +:+ get child "cond" "" +:+ ") {"; "}"] else []).
Proof.
  unfold parse_if. destruct (walk_if_children _ _ m) as [w m'].
  cbn [fst]. cbn. destruct (truthy (get child "cond" "")); reflexivity.
Qed.

Lemma walk_actions_same (cs : list node) : forall w m m',
  fst (walk_if_children cs w m) = fst (walk_if_children cs w m').
Proof.
  induction cs as [|c cs IH]; intros w m m'; [reflexivity |].
  cbn [walk_if_children]. destruct (negb (is_element c)); [apply IH |].
  destruct (String.eqb (localname c) "elseif"); [apply IH |].
  destruct (String.eqb (localname c) "else"); [apply IH |].
  assert (E : fst (parse_branch_action c m) = fst (parse_branch_action c m')).
  { unfold parse_branch_action.
    repeat match goal with
           | |- context [if ?b then _ else _] => destruct b
           end; reflexivity. }
  destruct (parse_branch_action c m) as [a m1].
  destruct (parse_branch_action c m') as [a' m1']. cbn [fst] in E. subst a'.
  apply IH.
Qed.

Section WithEnvironment.

Variable tostring : node -> string.
Variable tostring_c14n : node -> string.

Lemma send_params_same (ps : list node) : forall m m',
  fst (parse_send_params ps m) = fst (parse_send_params ps m').
Proof.
  induction ps as [|p ps IH]; intros m m'; [reflexivity |].
  cbn [parse_send_params].
  assert (E : fst (parse_send_param p m) = fst (parse_send_param p m'))
    by reflexivity.
  destruct (parse_send_param p m) as [d m1].
  destruct (parse_send_param p m') as [d' m1']. cbn [fst] in E. subst d'.
  specialize (IH m1 m1').
  destruct (parse_send_params ps m1) as [ds m2].
  destruct (parse_send_params ps m1') as [ds' m2']. cbn [fst] in *.
  now subst ds'.
Qed.

Lemma send_same (child : node) (m m' : SCXMLModel) :
  fst (parse_send tostring child m) = fst (parse_send tostring child m').
Proof.
  unfold parse_send. cbv zeta.
  match goal with
  | |- fst (let '(_, _) := parse_send_params ?ps ?x in _)
       = fst (let '(_, _) := parse_send_params ?ps ?y in _) =>
      pose proof (send_params_same ps x y) as E;
      destruct (parse_send_params ps x) as [ds m1];
      destruct (parse_send_params ps y) as [ds' m1']
  end.
  cbn [fst] in E. subst ds'.
  destruct (ns_findall child "content"); reflexivity.
Qed.

Lemma if_same (child : node) (m m' : SCXMLModel) :
  fst (parse_if child m) = fst (parse_if child m').
Proof.
  unfold parse_if.
  pose proof (walk_actions_same (children_of child) (mkIfWalk [] [] [] InThen)
                m m') as E.
  destruct (walk_if_children _ _ m) as [w m1].
  destruct (walk_if_children _ _ m') as [w' m1']. cbn [fst] in *.
  now subst w'.
Qed.

(** The dictionary of an action does not depend on the model. *)
Lemma flat_action_same (tag : string) (child : node) (m m' : SCXMLModel) :
  fst (parse_flat_action tostring tostring_c14n tag child m)
  = fst (parse_flat_action tostring tostring_c14n tag child m').
Proof.
  unfold parse_flat_action.
  destruct (String.eqb tag "raise"); [reflexivity |].
  destruct (String.eqb tag "send"); [apply send_same |].
  destruct (String.eqb tag "assign"); [reflexivity |].
  destruct (String.eqb tag "if"); [apply if_same |].
  destruct (String.eqb tag "log"); [reflexivity |].
  destruct (String.eqb tag "script"); [reflexivity |].
  destruct (String.eqb tag "cancel"); reflexivity.
Qed.

(** The action of one child, as [_parse_executable_content] builds it. *)
Lemma child_lines (c : node) (m m' : SCXMLModel) :
  action_js
    (PDict
       (fst (if String.eqb (localname c) "foreach" then
               let '(body, m) :=
                 _parse_executable_content tostring tostring_c14n c m in
               ([("type", PStr (localname c));
                 ("array", PStr (get c "array" EmptyString));
                 ("item", PStr (get c "item" EmptyString));
                 ("index", PStr (get c "index" EmptyString));
                 ("actions", PList (map PDict body))],
                raise_flag needs_jsengine m)
             else parse_flat_action tostring tostring_c14n (localname c) c m)))
  = action_js
      (PDict
         (fst (if String.eqb (localname (prune_if c)) "foreach" then
                 let '(body, m) :=
                   _parse_executable_content tostring tostring_c14n
                     (prune_if c) m' in
                 ([("type", PStr (localname (prune_if c)));
                   ("array", PStr (get (prune_if c) "array" EmptyString));
                   ("item", PStr (get (prune_if c) "item" EmptyString));
                   ("index", PStr (get (prune_if c) "index" EmptyString));
                   ("actions", PList (map PDict body))],
                  raise_flag needs_jsengine m)
               else parse_flat_action tostring tostring_c14n
                      (localname (prune_if c)) (prune_if c) m'))).
Proof.
  destruct c as [ns tag attrs text children | t]; [| reflexivity].
  cbn [prune_if localname].
  destruct (String.eqb_spec tag "if") as [-> | Hif].
  - cbn [localname String.eqb Ascii.eqb Bool.eqb].
    unfold parse_flat_action.
    cbn [String.eqb Ascii.eqb Bool.eqb].
    now rewrite !if_action_lines.
  - cbn [localname].
    destruct (String.eqb_spec tag "foreach") as [-> | Hfe].
    + destruct (_parse_executable_content _ _ _ m) as [b1 m1].
      destruct (_parse_executable_content _ _ _ m') as [b2 m2].
      reflexivity.
    + now rewrite (flat_action_same tag _ m m').
Qed.

Lemma prune_is_element (c : node) : is_element (prune_if c) = is_element c.
Proof.
  destruct c as [ns tag attrs text children | t]; [| reflexivity].
  cbn [prune_if]. now destruct (String.eqb tag "if").
Qed.

Lemma pruned_lines (ns tag : string) (attrs : list (string * string))
  (text : string) (cs : list node) : forall m m',
  fold_right
    (fun action rest =>
       lines ← action_js (PDict action); more ← rest; Some (lines ++ more))
    (Some [])
    (fst (_parse_executable_content tostring tostring_c14n
            (Element ns tag attrs text cs) m))
  = fold_right
      (fun action rest =>
         lines ← action_js (PDict action); more ← rest; Some (lines ++ more))
      (Some [])
      (fst (_parse_executable_content tostring tostring_c14n
              (Element ns tag attrs text (map prune_if cs)) m')).
Proof.
  cbn [_parse_executable_content].
  induction cs as [|c cs IH]; intros m m'; [reflexivity |].
  cbn [map]. rewrite prune_is_element.
  destruct (negb (is_element c)); [apply IH |].
  pose proof (child_lines c m m') as Hc.
  match goal with
  | |- context [let '(_, _) := ?x in let '(_, _) := _ in _] =>
      destruct x as [a m1]
  end.
  match goal with
  | |- context [let '(_, _) := ?x in let '(_, _) := _ in _] =>
      destruct x as [a' m1']
  end.
  cbn [fst] in Hc. specialize (IH m1 m1').
  match goal with
  | |- context [let '(_, _) := ?x in (a :: _, _)] => destruct x as [l m2]
  end.
  match goal with
  | |- context [let '(_, _) := ?x in (a' :: _, _)] => destruct x as [l' m2']
  end.
  cbn [fst fold_right] in *. now rewrite Hc, IH.
Qed.

Lemma pruned_script (ns tag : string) (attrs : list (string * string))
  (text : string) (cs : list node) (m m' : SCXMLModel) :
  _actions_to_javascript
    (fst (_parse_executable_content tostring tostring_c14n
            (Element ns tag attrs text cs) m))
  = _actions_to_javascript
      (fst (_parse_executable_content tostring tostring_c14n
              (Element ns tag attrs text (map prune_if cs)) m')).
Proof. rewrite !actions_js_lines. f_equal. apply pruned_lines. Qed.

Lemma lone_if_script (ns tag : string) (attrs : list (string * string))
  (text : string) (child : node) (m : SCXMLModel) :
  is_element child = true -> localname child = "if" ->
  _actions_to_javascript
    (fst (_parse_executable_content tostring tostring_c14n
            (Element ns tag attrs text [child]) m))
  = Some (if truthy (get child "cond" "")
          then "if (" +:+ get child "cond" "" +:+ ") { }" else "").
Proof.
  intros He Hn. rewrite actions_js_lines. cbn [_parse_executable_content].
  rewrite He, Hn. cbn [negb String.eqb Ascii.eqb Bool.eqb].
  unfold parse_flat_action. cbn [String.eqb Ascii.eqb Bool.eqb].
  pose proof (if_action_lines child m) as H.
  destruct (parse_if child m) as [a m1]. cbn [fst fold_right] in *.
  rewrite H. cbn. destruct (truthy (get child "cond" "")); cbn; [| reflexivity].
  f_equal. rewrite !app_assoc. reflexivity.
Qed.

End WithEnvironment.

End ScriptFacts.

Module ClassFacts.
Import PyStr Regex Xml Classifier Model Parser CodeGen Conversions Spec Notions.

Section WithEnvironment.

Variable tostring : node -> string.
Variable tostring_c14n : node -> string.

Lemma parse_invoke_classes (invoke_elem : node) (ps : parser) :
  let invoke := fst (_parse_invoke tostring tostring_c14n invoke_elem ps) in
  iv_is_dynamic_file invoke = false
  /\ iv_is_static invoke && iv_is_hybrid invoke = false
  /\ (iv_is_static invoke = true ->
      iv_srcexpr invoke = "" /\ iv_contentexpr invoke = ""
      /\ (iv_src invoke <> "" \/ iv_has_inline_scxml invoke = Some true))
  /\ (iv_is_hybrid invoke = true ->
      iv_srcexpr invoke <> "" \/ iv_contentexpr invoke <> "")
  /\ iv_id invoke <> "".
Proof.
  unfold _parse_invoke.
  assert (Hid : forall p : string * parser,
            p = (if truthy (get invoke_elem "id" "")
                 then (get invoke_elem "id" "", ps)
                 else ("_invoke_" +:+ pretty (invoke_counter ps),
                       mkParser (model ps) (document_order_counter ps)
                         (S (invoke_counter ps)))) ->
            fst p <> "").
  { intros p ->. destruct (get invoke_elem "id" ""); [discriminate |].
    cbn. discriminate. }
  match goal with
  | |- context [let '(_, _) := ?x in _] =>
      specialize (Hid x eq_refl); destruct x as [invoke_id ps0]
  end.
  cbn [fst] in Hid.
  repeat match goal with
         | |- context [let '(_, _) := ?x in _] => destruct x
         end.
  cbn [fst iv_is_dynamic_file iv_is_static iv_is_hybrid iv_srcexpr
       iv_contentexpr iv_src iv_has_inline_scxml iv_id].
  generalize (is_scxml_type (get invoke_elem "type" "") false).
  generalize (is_scxml_type (get invoke_elem "type" "") true).
  intros t2 t1.
  repeat match goal with
         | |- context [String.eqb ?a ""] =>
             let E := fresh "E" in
             destruct (String.eqb a "") eqn:E;
             [apply String.eqb_eq in E | apply String.eqb_neq in E]
         | |- context [default false ?o] => is_var o; destruct o as [[|]|]
         end;
    destruct t1, t2; cbn [andb orb negb default];
    repeat split; try discriminate; try assumption; try (intros _);
    first [ left; assumption | right; assumption | right; reflexivity ].
Qed.

End WithEnvironment.
End ClassFacts.

Module ParserFacts.
Import PyStr Regex Xml Classifier Model Parser CodeGen Conversions Spec Notions.
Import StrFacts ModelFacts PassFacts ChildrenFacts PipelineFacts EventFacts
    EngineFacts CollectFacts.

Section NodeInduction.

Variable P : node -> Prop.
Hypothesis HElement :
  forall ns tag attrs text children,
    Forall P children -> P (Element ns tag attrs text children).
Hypothesis HSpecial : forall t, P (Special t).

(** Induction on a node, with the property at hand for its children. *)
Fixpoint node_induction (n : node) : P n :=
  match n with
  | Element ns tag attrs text children =>
      HElement ns tag attrs text children
        ((fix all (l : list node) : Forall P l :=
            match l with
            | [] => @List.Forall_nil _ P
            | x :: l' =>
                @List.Forall_cons _ P x l' (node_induction x) (all l')
            end) children)
  | Special t => HSpecial t
  end.

End NodeInduction.

Lemma pstep_refl (m : SCXMLModel) : parser_step m m.
Proof. unfold parser_step. auto. Qed.

Lemma pstep_trans (a b c : SCXMLModel) :
  parser_step a b -> parser_step b c -> parser_step a c.
Proof.
  intros (D1 & J1 & E1 & V1) (D2 & J2 & E2 & V2).
  split; [congruence |]. split; [auto |]. split; [| congruence].
  intros e He. apply E2, E1, He.
Qed.

(** A change of other parts of the model. *)
Lemma pstep_frame (m m' : SCXMLModel) :
  flag_of m' = flag_of m -> events m' = events m ->
  variables m' = variables m -> parser_step m m'.
Proof.
  intros F E V. unfold parser_step. rewrite F, E, V. auto.
Qed.

Lemma pstep_raise (f : flag) (m : SCXMLModel) :
  f <> has_dynamic_file_invoke -> parser_step m (raise_flag f m).
Proof.
  intros H. unfold parser_step, raise_flag.
  cbn [flag_of set_flag_of events variables]. unfold set_flag.
  split; [destruct (decide (has_dynamic_file_invoke = f)); congruence |].
  split; [intros Hj; now destruct (decide (needs_jsengine = f)) |].
  split; reflexivity.
Qed.

Lemma pstep_clear (f : flag) (m : SCXMLModel) :
  f <> has_dynamic_file_invoke -> f <> needs_jsengine ->
  parser_step m (clear_flag f m).
Proof.
  intros H1 H2. unfold parser_step, clear_flag.
  cbn [flag_of set_flag_of events variables]. unfold set_flag.
  split; [destruct (decide (has_dynamic_file_invoke = f)); congruence |].
  split; [intros Hj; destruct (decide (needs_jsengine = f)); congruence |].
  split; reflexivity.
Qed.

Lemma pstep_add_event (e : string) (m : SCXMLModel) :
  parser_step m (add_event e m).
Proof.
  unfold parser_step, add_event. cbn [flag_of events set_events variables].
  split; [reflexivity |]. split; [auto |]. split; [set_solver | reflexivity].
Qed.

Lemma pstep_fold {A : Type} (f : SCXMLModel -> A -> SCXMLModel)
  (l : list A) :
  (forall a m, parser_step m (f m a)) ->
  forall m, parser_step m (fold_left f l m).
Proof.
  intros H. induction l as [|a l IH]; intros m; [apply pstep_refl |].
  cbn [fold_left]. eapply pstep_trans; [apply H | apply IH].
Qed.

(** One layer of a model expression. *)
Ltac pstep_layer :=
  match goal with
  | |- parser_step ?m ?m => apply pstep_refl
  | |- parser_step _ (if ?b then _ else _) => destruct b
  | |- parser_step ?m (raise_flag ?f ?x) =>
      apply (pstep_trans m x); [| apply pstep_raise; discriminate]
  | |- parser_step ?m (clear_flag ?f ?x) =>
      apply (pstep_trans m x); [| apply pstep_clear; discriminate]
  | |- parser_step ?m (add_event ?e ?x) =>
      apply (pstep_trans m x); [| apply pstep_add_event]
  | |- parser_step ?m (set_states ?v ?x) =>
      apply (pstep_trans m x); [| apply pstep_frame; reflexivity]
  | |- parser_step ?m (set_initial ?v ?x) =>
      apply (pstep_trans m x); [| apply pstep_frame; reflexivity]
  | |- parser_step ?m (set_initial_leaf ?v ?x) =>
      apply (pstep_trans m x); [| apply pstep_frame; reflexivity]
  | |- parser_step ?m (set_history_states ?v ?x) =>
      apply (pstep_trans m x); [| apply pstep_frame; reflexivity]
  | |- parser_step ?m (set_history_default_targets ?v ?x) =>
      apply (pstep_trans m x); [| apply pstep_frame; reflexivity]
  | |- parser_step ?m (set_global_scripts ?v ?x) =>
      apply (pstep_trans m x); [| apply pstep_frame; reflexivity]
  | |- parser_step ?m (set_static_invokes ?v ?x) =>
      apply (pstep_trans m x); [| apply pstep_frame; reflexivity]
  | |- parser_step ?m (set_hybrid_invokes ?v ?x) =>
      apply (pstep_trans m x); [| apply pstep_frame; reflexivity]
  | |- parser_step ?m (set_parallel_regions ?v ?x) =>
      apply (pstep_trans m x); [| apply pstep_frame; reflexivity]
  | |- parser_step ?m (map_states ?f ?x) =>
      apply (pstep_trans m x); [| apply pstep_frame; reflexivity]
  end.

Ltac pstep := repeat pstep_layer.

Lemma pstep_requires (expr : string) (m : SCXMLModel) :
  parser_step m (snd (_requires_jsengine expr m)).
Proof. rewrite requires_effect. pstep. Qed.

Lemma pstep_flag_if (expr : string) (m : SCXMLModel) :
  parser_step m (flag_if_requires_jsengine expr m).
Proof.
  unfold flag_if_requires_jsengine. pose proof (pstep_requires expr m) as H.
  destruct (_requires_jsengine expr m) as [r m']. cbn [snd] in H.
  destruct r; [| exact H].
  eapply pstep_trans; [exact H | apply pstep_raise; discriminate].
Qed.

Lemma pstep_send_param (p : node) (m : SCXMLModel) :
  parser_step m (snd (parse_send_param p m)).
Proof. unfold parse_send_param. cbn [snd]. pstep. Qed.

Lemma pstep_send_params (ps : list node) : forall m,
  parser_step m (snd (parse_send_params ps m)).
Proof.
  induction ps as [|p ps IH]; intros m; [apply pstep_refl |].
  cbn [parse_send_params]. pose proof (pstep_send_param p m) as H.
  destruct (parse_send_param p m) as [d m1]. specialize (IH m1).
  destruct (parse_send_params ps m1) as [ds m2]. cbn [snd] in *.
  eapply pstep_trans; eassumption.
Qed.

Section WithEnvironment.

Variable tostring : node -> string.
Variable tostring_c14n : node -> string.

Lemma pstep_send (child : node) (m : SCXMLModel) :
  parser_step m (snd (parse_send tostring child m)).
Proof.
  unfold parse_send. cbv zeta.
  match goal with
  | |- context [parse_send_params ?ps ?x] =>
      pose proof (pstep_send_params ps x) as H;
      assert (H0 : parser_step m x) by pstep;
      destruct (parse_send_params ps x) as [ds m1]
  end.
  cbn [snd] in H. pose proof (pstep_trans _ _ _ H0 H) as H1.
  destruct (ns_findall child "content"); cbn [snd];
    pstep; exact H1.
Qed.

Lemma pstep_assign (child : node) (m : SCXMLModel) :
  parser_step m (snd (parse_assign tostring_c14n child m)).
Proof. unfold parse_assign. cbn [snd]. pstep. Qed.

Lemma pstep_branch_action (elem : node) (m : SCXMLModel) :
  parser_step m (snd (parse_branch_action elem m)).
Proof.
  unfold parse_branch_action. cbv zeta.
  repeat match goal with
         | |- parser_step _ (snd (if ?b then _ else _)) => destruct b
         end; cbn [snd]; pstep.
Qed.

Lemma pstep_walk (cs : list node) : forall w m,
  parser_step m (snd (walk_if_children cs w m)).
Proof.
  induction cs as [|c cs IH]; intros w m; [apply pstep_refl |].
  cbn [walk_if_children]. destruct (negb (is_element c)); [apply IH |].
  destruct (String.eqb (localname c) "elseif"); [apply IH |].
  destruct (String.eqb (localname c) "else"); [apply IH |].
  pose proof (pstep_branch_action c m) as H.
  destruct (parse_branch_action c m) as [a m1]. cbn [snd] in H.
  eapply pstep_trans; [exact H | apply IH].
Qed.

Lemma pstep_if (child : node) (m : SCXMLModel) :
  parser_step m (snd (parse_if child m)).
Proof.
  unfold parse_if.
  pose proof (pstep_walk (children_of child) (mkIfWalk [] [] [] InThen) m) as H.
  destruct (walk_if_children _ _ m) as [w m1]. cbn [snd] in *.
  eapply pstep_trans; [exact H | apply pstep_flag_if].
Qed.

Lemma pstep_flat_action (tag : string) (child : node) (m : SCXMLModel) :
  parser_step m (snd (parse_flat_action tostring tostring_c14n tag child m)).
Proof.
  unfold parse_flat_action.
  destruct (String.eqb tag "raise"); [cbn [snd]; pstep |].
  destruct (String.eqb tag "send"); [apply pstep_send |].
  destruct (String.eqb tag "assign"); [apply pstep_assign |].
  destruct (String.eqb tag "if"); [apply pstep_if |].
  destruct (String.eqb tag "log"); [cbn [snd]; pstep |].
  destruct (String.eqb tag "script"); [cbn [snd]; pstep |].
  destruct (String.eqb tag "cancel"); cbn [snd]; pstep.
Qed.

Lemma pstep_content (parent_elem : node) :
  forall m,
  parser_step m
    (snd (_parse_executable_content tostring tostring_c14n parent_elem m)).
Proof.
  induction parent_elem as [ns tag attrs text children IH | t]
    using node_induction; intros m; [| apply pstep_refl].
  cbn [_parse_executable_content]. revert m.
  induction IH as [|c cs Hc _ IHcs]; intros m; [apply pstep_refl |].
  destruct (negb (is_element c)); [apply IHcs |].
  assert (H : parser_step m
                (snd (if String.eqb (localname c) "foreach" then
                        let '(body, m) :=
                          _parse_executable_content tostring tostring_c14n c m
                              in
                        ([("type", PStr (localname c));
                          ("array", PStr (get c "array" EmptyString));
                          ("item", PStr (get c "item" EmptyString));
                          ("index", PStr (get c "index" EmptyString));
                          ("actions", PList (map PDict body))],
                         raise_flag needs_jsengine m)
                      else parse_flat_action tostring tostring_c14n
                             (localname c) c m))).
  { destruct (String.eqb (localname c) "foreach");
      [| apply pstep_flat_action].
    specialize (Hc m).
    destruct (_parse_executable_content tostring tostring_c14n c m) as [b m1].
    cbn [snd] in *. eapply pstep_trans; [exact Hc |].
    apply pstep_raise. discriminate. }
  match goal with
  | |- context [let '(_, _) := ?x in let '(_, _) := _ in _] =>
      destruct x as [a m1]
  end.
  cbn [snd] in H. specialize (IHcs m1).
  match goal with
  | |- context [let '(_, _) := ?x in (a :: _, _)] => destruct x as [l m2]
  end.
  cbn [snd] in *. eapply pstep_trans; eassumption.
Qed.

Lemma pstep_blocks (elems : list node) : forall m,
  parser_step m (snd (parse_blocks tostring tostring_c14n elems m)).
Proof.
  induction elems as [|e rest IH]; intros m; [apply pstep_refl |].
  cbn [parse_blocks]. pose proof (pstep_content e m) as H.
  destruct (_parse_executable_content tostring tostring_c14n e m) as [a m1].
  specialize (IH m1).
  destruct (parse_blocks tostring tostring_c14n rest m1) as [more m2].
  cbn [snd] in *. eapply pstep_trans; eassumption.
Qed.

Lemma pstep_transition (trans_elem : node) (m : SCXMLModel) :
  parser_step m (snd (_parse_transition tostring tostring_c14n trans_elem m)).
Proof.
  unfold _parse_transition. cbv zeta.
  pose proof (pstep_content trans_elem m) as H.
  destruct (_parse_executable_content tostring tostring_c14n trans_elem m)
    as [a m1].
  cbn [snd] in *. eapply pstep_trans; [exact H |].
  match goal with
  | |- parser_step _ (if ?b then _ else _) => destruct b
  end; [apply pstep_flag_if | apply pstep_refl].
Qed.

Lemma pstep_transition_events (t : Transition) (m : SCXMLModel) :
  parser_step m (collect_transition_events t m).
Proof.
  unfold collect_transition_events.
  match goal with
  | |- parser_step _ (if ?b then _ else _) => destruct b
  end; [| apply pstep_refl].
  apply pstep_fold. intros a m0. pstep.
Qed.

Lemma pstep_transitions (elems : list node) : forall m,
  parser_step m (snd (parse_transitions tostring tostring_c14n elems m)).
Proof.
  induction elems as [|e rest IH]; intros m; [apply pstep_refl |].
  cbn [parse_transitions]. pose proof (pstep_transition e m) as H.
  destruct (_parse_transition tostring tostring_c14n e m) as [t m1].
  pose proof (pstep_transition_events t m1) as H1.
  specialize (IH (collect_transition_events t m1)).
  destruct (parse_transitions tostring tostring_c14n rest
              (collect_transition_events t m1)) as [ts m2].
  cbn [snd] in *.
  eapply pstep_trans; [exact H |]. eapply pstep_trans; eassumption.
Qed.

Lemma pstep_on_model {A : Type} (f : SCXMLModel -> A * SCXMLModel)
  (ps : parser) :
  (forall m, parser_step m (snd (f m))) ->
  parser_step (model ps) (model (snd (on_model f ps))).
Proof.
  intros H. unfold on_model. specialize (H (model ps)).
  destruct (f (model ps)) as [a m]. exact H.
Qed.

Lemma pstep_with_model (f : SCXMLModel -> SCXMLModel) (ps : parser) :
  parser_step (model ps) (f (model ps)) ->
  parser_step (model ps) (model (with_model f ps)).
Proof. intros H. exact H. Qed.

Lemma pstep_invoke (invoke_elem : node) (ps : parser) :
  parser_step (model ps)
    (model (snd (_parse_invoke tostring tostring_c14n invoke_elem ps))).
Proof.
  unfold _parse_invoke.
  match goal with
  | |- context [let '(_, _) := ?x in _] =>
      assert (Hx : model (snd x) = model ps) by
        (destruct (truthy (get invoke_elem "id" "")); reflexivity);
      destruct x as [invoke_id ps0]
  end.
  cbn [snd] in Hx. rewrite <- Hx. clear Hx ps.
  match goal with
  | |- context [let '(_, _) := ?x in _] => destruct x as [[[ce c] sc] hi]
  end.
  match goal with
  | |- context [let '(_, _) := ?x in _] =>
      assert (Hx : parser_step (model ps0) (model (snd x)));
      [| destruct x as [finalize ps1] ]
  end.
  { destruct (ns_find invoke_elem "finalize") as [fe|]; [| apply pstep_refl].
    pose proof (pstep_content fe (model ps0)) as H.
    destruct (_parse_executable_content tostring tostring_c14n fe (model ps0))
      as [acts m]. exact H. }
  cbn [snd] in *. eapply pstep_trans; [exact Hx |]. cbv zeta.
  repeat match goal with
         | |- context [if ?b then with_model _ _ else _] => destruct b
         end; cbn [model with_model]; pstep.
Qed.

Lemma pstep_invokes (state_id : string) (elems : list node) : forall ps,
  parser_step (model ps)
    (model (snd (parse_invokes tostring tostring_c14n state_id elems ps))).
Proof.
  induction elems as [|e rest IH]; intros ps; [apply pstep_refl |].
  cbn [parse_invokes]. pose proof (pstep_invoke e ps) as H.
  destruct (_parse_invoke tostring tostring_c14n e ps) as [invoke ps1].
  cbn [snd] in H. cbv zeta.
  match goal with
  | |- context [let '(_, _) := ?x in _] =>
      assert (Hx : parser_step (model ps1) (model (snd x)));
      [| destruct x as [[si hi] ps2] ]
  end.
  { repeat match goal with
           | |- context [if ?b then _ else _] => destruct b
           end; cbn [snd model with_model]; pstep. }
  cbn [snd] in Hx. specialize (IH ps2).
  destruct (parse_invokes tostring tostring_c14n state_id rest ps2)
    as [[[invokes sis] his] ps3].
  cbn [snd] in *.
  eapply pstep_trans; [exact H |]. eapply pstep_trans; eassumption.
Qed.

(** Destruct the next step on the model, with its lemma. *)
Ltac on_model_step H q :=
  match goal with
  | |- context [let '(_, _) := on_model ?f ?ps in _] =>
      let a := fresh "a" in
      pose proof (pstep_on_model f ps) as H;
      destruct (on_model f ps) as [a q]; cbn [snd] in H
  end.

Lemma pstep_state_elem (state_elem : node) (state_id : string)
  (parent_id : option string) (ps : parser) :
  parser_step (model ps)
    (model (snd (parse_state_elem tostring tostring_c14n state_elem state_id
                   parent_id ps))).
Proof.
  unfold parse_state_elem, next_document_order.
  set (ps0 := mkParser (model ps) (S (document_order_counter ps))
                (invoke_counter ps)).
  change (model ps) with (model ps0) at 1. clearbody ps0.
  on_model_step H1 q1. specialize (H1 (pstep_transitions _)).
  on_model_step H2 q2. specialize (H2 (pstep_blocks _)).
  on_model_step H3 q3. specialize (H3 (pstep_blocks _)).
  cbv zeta.
  match goal with
  | |- context [let '(_, _) := ?x in _] =>
      assert (Hx : parser_step (model q3) (model (snd x)));
      [| destruct x as [[ia si] q4] ]
  end.
  { destruct (ns_find state_elem "initial") as [ie|]; [| apply pstep_refl].
    destruct (ns_find ie "transition") as [it|]; [| apply pstep_refl].
    pose proof (pstep_on_model
                  (_parse_executable_content tostring tostring_c14n it) q3
                  (pstep_content it)) as H.
    destruct (on_model _ q3) as [acts q4]. exact H. }
  cbn [snd] in Hx.
  match goal with
  | |- context [parse_invokes ?a ?b ?c ?d ?e] =>
      pose proof (pstep_invokes c d e) as H4;
      destruct (parse_invokes a b c d e) as [[[invokes sis] his] q5]
  end.
  cbn [snd] in *.
  eapply pstep_trans; [exact H1 |]. eapply pstep_trans; [exact H2 |].
  eapply pstep_trans; [exact H3 |]. eapply pstep_trans; eassumption.
Qed.

Lemma pstep_store (s : State) (ps : parser) :
  parser_step (model ps) (model (store_state s ps)).
Proof. unfold store_state. cbn [model with_model]. pstep. Qed.

Lemma pstep_fill (state : State) (m : SCXMLModel) :
  parser_step m (fill_default_initial state m).
Proof.
  unfold fill_default_initial, mutate_state.
  repeat match goal with
         | |- parser_step _ (if ?b then _ else _) => destruct b
         | |- parser_step _ (match ?x with _ => _ end) => destruct x
         end; pstep.
Qed.

Lemma pstep_final (final_elem : node) (final_id : string)
  (parent_id : option string) (ps : parser) :
  parser_step (model ps)
    (model (parse_final_elem tostring tostring_c14n final_elem final_id
              parent_id ps)).
Proof.
  unfold parse_final_elem, next_document_order.
  set (ps0 := mkParser (model ps) (S (document_order_counter ps))
                (invoke_counter ps)).
  change (model ps) with (model ps0) at 1. clearbody ps0.
  on_model_step H1 q1. specialize (H1 (pstep_blocks _)).
  on_model_step H2 q2. specialize (H2 (pstep_blocks _)).
  cbv zeta.
  eapply pstep_trans; [exact H1 |]. eapply pstep_trans; [exact H2 |].
  apply pstep_store.
Qed.

Lemma pstep_parallel (parallel_elem : node) (parallel_id : string)
  (parent_id : option string) (ps : parser) :
  parser_step (model ps)
    (model (parse_parallel_elem tostring tostring_c14n parallel_elem
              parallel_id parent_id ps)).
Proof.
  unfold parse_parallel_elem, next_document_order.
  set (ps0 := mkParser (model ps) (S (document_order_counter ps))
                (invoke_counter ps)).
  change (model ps) with (model ps0) at 1. clearbody ps0.
  on_model_step H1 q1. specialize (H1 (pstep_transitions _)).
  on_model_step H2 q2. specialize (H2 (pstep_blocks _)).
  on_model_step H3 q3. specialize (H3 (pstep_blocks _)).
  eapply pstep_trans; [exact H1 |]. eapply pstep_trans; [exact H2 |].
  eapply pstep_trans; [exact H3 |].
  unfold store_state. cbn [model with_model]. pstep.
Qed.

Lemma pstep_history_default (elems : list node) : forall m,
  parser_step m (snd (history_default tostring tostring_c14n elems m)).
Proof.
  induction elems as [|e rest IH]; intros m; [apply pstep_refl |].
  cbn [history_default].
  destruct (get_opt e "target") as [target|]; [| apply IH].
  destruct (truthy target); [| apply IH].
  pose proof (pstep_content e m) as H.
  destruct (_parse_executable_content tostring tostring_c14n e m) as [a m1].
  exact H.
Qed.

Lemma pstep_history (history_elem : node) (history_id : string)
  (parent_id : option string) (m : SCXMLModel) :
  parser_step m
    (parse_history_elem tostring tostring_c14n history_elem history_id
       parent_id m).
Proof.
  unfold parse_history_elem. cbv zeta.
  pose proof (pstep_history_default (ns_findall history_elem "transition") m)
    as H.
  destruct (history_default _ _ _ m) as [[[t a]|] m1]; cbn [snd] in H;
    [| exact H].
  eapply pstep_trans; [exact H |]. pstep.
Qed.

Lemma pstep_fold_parser {A : Type} (f : parser -> A -> parser)
  (l : list A) :
  (forall a ps, parser_step (model ps) (model (f ps a))) ->
  forall ps, parser_step (model ps) (model (fold_left f l ps)).
Proof.
  intros H. induction l as [|a l IH]; intros ps; [apply pstep_refl |].
  cbn [fold_left]. eapply pstep_trans; [apply H | apply IH].
Qed.

Lemma pstep_states (parent_elem : node) :
  forall parent_id ps,
  parser_step (model ps)
    (model (_parse_states tostring tostring_c14n parent_elem parent_id ps)).
Proof.
  induction parent_elem as [ns tag attrs text children IH | t]
    using node_induction; intros parent_id ps; [| apply pstep_refl].
  cbn [_parse_states].
  match goal with
  | |- parser_step _ (model (fold_left ?f ?l ?x)) =>
      apply (pstep_trans _ (model x));
        [| apply pstep_fold_parser; intros a ps0;
           destruct (element_id a);
           [apply pstep_history | apply pstep_refl] ]
  end.
  match goal with
  | |- parser_step _ (model (?g children ?x)) =>
      apply (pstep_trans _ (model x))
  end.
  2: { match goal with
       | |- parser_step _ (model (_ _ ?x)) => generalize x
       end.
       induction IH as [|c cs Hc _ IHcs]; intros ps0; [apply pstep_refl |].
       destruct (is_sc "parallel" c); [| apply IHcs].
       destruct (element_id c) as [pid|]; [| apply IHcs].
       eapply pstep_trans; [apply pstep_parallel |].
       eapply pstep_trans; [apply Hc |]. apply IHcs. }
  match goal with
  | |- parser_step _ (model (fold_left ?f ?l ?x)) =>
      apply (pstep_trans _ (model x));
        [| apply pstep_fold_parser; intros a ps0;
           destruct (element_id a);
           [apply pstep_final | apply pstep_refl] ]
  end.
  revert ps.
  induction IH as [|c cs Hc _ IHcs]; intros ps; [apply pstep_refl |].
  destruct (is_sc "state" c); [| apply IHcs].
  destruct (element_id c) as [sid|]; [| apply IHcs].
  pose proof (pstep_state_elem c sid parent_id ps) as H.
  destruct (parse_state_elem tostring tostring_c14n c sid parent_id ps)
    as [state ps1].
  cbn [snd] in H. cbv zeta.
  eapply pstep_trans; [exact H |].
  eapply pstep_trans; [apply (pstep_store state ps1) |].
  eapply pstep_trans; [apply Hc |].
  eapply pstep_trans; [| apply IHcs].
  apply pstep_with_model, pstep_fill.
Qed.

End WithEnvironment.

Lemma pstep_fold_result {A : Type}
  (f : result SCXMLModel -> A -> result SCXMLModel) (l : list A) :
  (forall a e, f (Raise e) a = Raise e) ->
  (forall a m m', f (Ok m) a = Ok m' -> parser_step m m') ->
  forall m m', fold_left f l (Ok m) = Ok m' -> parser_step m m'.
Proof.
  intros Hr Hok. induction l as [|a l IH]; intros m m' H; cbn [fold_left] in H.
  - injection H as <-. apply pstep_refl.
  - destruct (f (Ok m) a) as [m1|e] eqn:E.
    + eapply pstep_trans; [eapply Hok, E | apply IH, H].
    + exfalso. clear -H Hr. induction l as [|b l IHl]; [discriminate |].
      cbn [fold_left] in H. rewrite Hr in H. auto.
Qed.

Lemma pstep_global_scripts
  (load_external_script : string -> string -> option string)
  (scxml_path : string) (root : node) (m m' : SCXMLModel) :
  _parse_global_scripts load_external_script scxml_path root m = Ok m' ->
  parser_step m m'.
Proof.
  unfold _parse_global_scripts. apply pstep_fold_result.
  - reflexivity.
  - intros a m0 m1. cbv zeta.
    match goal with
    | |- context [match ?x with Some _ => _ | None => _ end] =>
        destruct x; [| discriminate]
    end.
    intros H. injection H as <-. pstep.
Qed.

Lemma pstep_detect_features (m : SCXMLModel) :
  parser_step m (_detect_features m).
Proof. unfold _detect_features. pstep. Qed.

Lemma pstep_resolve_deep_initial (m m' : SCXMLModel) :
  _resolve_deep_initial m = Ok m' -> parser_step m m'.
Proof.
  unfold _resolve_deep_initial. cbv zeta.
  repeat match goal with
         | |- context [if ?b then _ else _] => destruct b
         | |- context [match split ?x with _ => _ end] => destruct (split x)
         | |- context [match deep_initial_loop ?a ?b ?c with _ => _ end] =>
             destruct (deep_initial_loop a b c)
         end;
    intros H; try discriminate; injection H as <-; pstep.
Qed.

Lemma pstep_overrides (m : SCXMLModel) :
  parser_step m (_apply_parallel_initial_overrides m).
Proof.
  destruct (overrides_variant m) as (_ & _ & ->). pstep.
Qed.

Lemma pstep_history_targets (m : SCXMLModel) :
  parser_step m (_resolve_history_targets m).
Proof.
  unfold _resolve_history_targets.
  destruct (history_default_targets m); [apply pstep_refl |]. cbv zeta. pstep.
Qed.

Lemma pstep_regions (m : SCXMLModel) :
  parser_step m (_compute_parallel_regions m).
Proof.
  unfold _compute_parallel_regions. apply pstep_fold.
  intros [id s] m0. pstep.
Qed.

Lemma pstep_transition_actions (m : SCXMLModel) :
  parser_step m (_detect_transition_actions m).
Proof. unfold _detect_transition_actions. pstep. Qed.

Lemma pstep_done_events (m : SCXMLModel) :
  parser_step m (_add_done_state_events m).
Proof.
  unfold _add_done_state_events. apply pstep_fold.
  intros [id s] m0. pstep.
Qed.

Lemma pstep_event_flags (m : SCXMLModel) :
  parser_step m (_set_invoke_event_flags m).
Proof.
  unfold _set_invoke_event_flags. cbv zeta. apply pstep_fold.
  intros kv m0.
  match goal with
  | |- parser_step _ (fold_left ?f ?l ?x) =>
      apply (pstep_trans _ x); [| apply pstep_fold; intros; pstep]
  end.
  apply pstep_fold. intros. pstep.
Qed.

Lemma pstep_initial_children (m m' : SCXMLModel) :
  _parse_initial_children m = Ok m' -> parser_step m m'.
Proof.
  intros H. apply parse_initial_children_ok in H as [-> _]. pstep.
Qed.

Section WithFiles.

Variable tostring : node -> string.
Variable tostring_c14n : node -> string.
Variable path_stem : string -> string.
Variable sibling_path : string -> string -> string.
Variable load_external_script : string -> string -> option string.
Variable reread : node -> node.
Variable parse_child : filesystem -> string -> filesystem * result SCXMLModel.
Variable scxml_path : string.

Lemma pstep_generate_id (i : nat) (sp : static_pass) :
  parser_step (sp_model sp) (sp_model (generate_invoke_id i sp)).
Proof.
  unfold generate_invoke_id.
  destruct (static_invokes (sp_model sp) !! i); [| apply pstep_refl].
  destruct (negb _); [| apply pstep_refl].
  cbn [sp_model]. apply pstep_frame; reflexivity.
Qed.

Lemma pstep_update_invoke (i : nat) (f : StaticInvoke -> StaticInvoke)
  (m : SCXMLModel) :
  parser_step m (sp_update_invoke i f m).
Proof. apply pstep_frame; reflexivity. Qed.

Lemma pstep_static_invoke (state : State) (invoke : Invoke)
  (sp sp' : static_pass) :
  process_static_invoke path_stem sibling_path reread parse_child scxml_path
    state invoke sp = Ok sp' ->
  parser_step (sp_model sp) (sp_model sp').
Proof.
  unfold process_static_invoke. cbv zeta.
  destruct (negb (iv_is_static invoke));
    [intros H; injection H as <-; apply pstep_refl |].
  match goal with
  | |- context [match head ?l with _ => _ end] => destruct (head l) as [i|]
  end; [| intros H; injection H as <-; apply pstep_refl].
  destruct (default false (iv_has_inline_scxml invoke)).
  - destruct (iv_content_scxml invoke) as [c|];
      [| intros H; injection H as <-; apply pstep_refl].
    match goal with
    | |- context [let '(_, _) := ?x in _] => destruct x as [cn count]
    end.
    match goal with
    | |- context [parse_child ?a ?b] => destruct (parse_child a b) as [fs r]
    end.
    intros H. injection H as <-.
    eapply pstep_trans; [| apply pstep_generate_id]. cbn [sp_model].
    destruct r; (eapply pstep_trans; [| apply pstep_update_invoke]);
      apply pstep_update_invoke.
  - destruct (truthy (iv_src invoke)).
    + match goal with
      | |- context [let '(_, _) := ?x in _] => destruct x as [[fs n] [v|]]
      end; [| discriminate].
      intros H. injection H as <-.
      eapply pstep_trans; [| apply pstep_generate_id]. cbn [sp_model].
      eapply pstep_trans; [| apply pstep_update_invoke].
      apply pstep_update_invoke.
    + intros H. injection H as <-. apply pstep_generate_id.
Qed.

Lemma pstep_static_invokes (fs : filesystem) (m m' : SCXMLModel) :
  snd (_process_static_invokes path_stem sibling_path reread parse_child
         scxml_path fs m) = Ok m' ->
  parser_step m m'.
Proof.
  unfold _process_static_invokes. cbv zeta.
  match goal with
  | |- context [fold_left ?f ?l (fs, Ok ?sp0)] =>
      assert (H : forall acc sp,
                snd (fold_left f l acc) = Ok sp ->
                exists sp1, snd acc = Ok sp1
                            /\ parser_step (sp_model sp1) (sp_model sp));
      [| specialize (H (fs, Ok sp0));
         destruct (fold_left f l (fs, Ok sp0)) as [fs' [sp|e]] ]
  end.
  { match goal with
    | |- forall acc sp, snd (fold_left _ ?l acc) = _ -> _ => generalize l
    end.
    intros l. induction l as [|w l IH]; intros acc sp H; cbn [fold_left] in H.
    - exists sp. split; [exact H | apply pstep_refl].
    - apply IH in H as (sp1 & H1 & H2).
      destruct (snd acc) as [sp0|e] eqn:E; [| rewrite E in H1; discriminate].
      destruct (process_static_invoke path_stem sibling_path reread
                  parse_child scxml_path (fst w) (snd w) sp0) as [sp'|e] eqn:P;
        cbn [snd] in H1; [| discriminate].
      injection H1 as <-. exists sp0. split; [reflexivity |].
      eapply pstep_trans; [eapply pstep_static_invoke, P | exact H2]. }
  - cbn [snd]. intros Hm. injection Hm as <-.
    destruct (H sp eq_refl) as (sp1 & H1 & H2). cbn [snd] in H1.
    injection H1 as <-. exact H2.
  - discriminate.
Qed.

Lemma pstep_collect (fs : filesystem) (m : SCXMLModel) :
  parser_step m
    (snd (_collect_child_to_parent_events sibling_path parse_child scxml_path
            fs m)).
Proof.
  rewrite collect_unfold.
  destruct (collect_fold_grows sibling_path parse_child scxml_path
              (static_invokes m) (fs, m, [])) as [H1 H2].
  cbn [fst snd] in *. rewrite H2.
  unfold parser_step. cbn [flag_of events set_events variables]. auto.
Qed.

(** Everything [parse_file] does after reading the data model and the
    global scripts. *)
Lemma pstep_root (fs : filesystem) (root : node) (m : SCXMLModel) :
  snd (parse_root tostring tostring_c14n path_stem sibling_path
         load_external_script reread parse_child scxml_path fs root) = Ok m ->
  exists nm init bind dm m1,
    _parse_global_scripts load_external_script scxml_path root
      (_parse_datamodel tostring root (new_model nm init bind dm)) = Ok m1
    /\ parser_step m1 m.
Proof.
  unfold parse_root. cbv zeta. intros H.
  apply and_then_ok in H as (m1 & H1 & H). cbn [fst snd] in H1.
  apply and_then_ok in H as (m2 & H2 & H).
  apply and_then_ok in H as (m3 & H3 & H). cbn [fst snd] in H3.
  match type of H with
  | context [_collect_child_to_parent_events ?a ?b ?c ?d ?e] =>
      pose proof (pstep_collect d e) as H4;
      destruct (_collect_child_to_parent_events a b c d e) as [fs' m4]
  end.
  cbn [snd] in H, H4.
  do 4 eexists. exists m1. split; [exact H1 |].
  eapply pstep_trans;
    [apply (pstep_states tostring tostring_c14n root None (mkParser m1 0 0)) |].
  eapply pstep_trans; [apply pstep_detect_features |].
  eapply pstep_trans; [eapply pstep_static_invokes, H2 |].
  eapply pstep_trans; [eapply pstep_resolve_deep_initial, H3 |].
  eapply pstep_trans; [| eapply pstep_initial_children, H].
  eapply pstep_trans; [| exact H4].
  eapply pstep_trans; [apply pstep_overrides |].
  eapply pstep_trans; [apply pstep_history_targets |].
  eapply pstep_trans; [| apply pstep_event_flags].
  eapply pstep_trans; [| apply pstep_done_events].
  eapply pstep_trans; [| apply pstep_transition_actions].
  eapply pstep_trans; [| apply pstep_regions].
  pstep.
Qed.

End WithFiles.

Lemma datamodel_spec (tostring : node -> string) (root : node)
  (m : SCXMLModel) :
  map dv_id (variables (_parse_datamodel tostring root m))
  = map dv_id (variables m) ++ map (fun data => get_opt data "id") (root_data
      root)
  /\ flag_of (_parse_datamodel tostring root m) has_dynamic_file_invoke
     = flag_of m has_dynamic_file_invoke
  /\ (root_data root <> [] ->
      flag_of (_parse_datamodel tostring root m) needs_jsengine = true).
Proof.
  unfold _parse_datamodel. fold (root_data root).
  generalize (root_data root). intros l. revert m.
  induction l as [|d l IH]; intros m; cbn [fold_left map].
  - rewrite List.app_nil_r. repeat split. congruence.
  - match goal with
    | |- context [fold_left ?f l ?x] => destruct (IH x) as (V & D & J)
    end.
    rewrite V, D. cbn [variables raise_flag set_flag_of set_variables flag_of].
    rewrite map_app, <- List.app_assoc. cbn [map List.app dv_id].
    split; [reflexivity |]. split; [reflexivity |]. intros _.
    destruct l as [|d' l]; [reflexivity | apply J; discriminate].
Qed.

Lemma global_scripts_flag
  (load_external_script : string -> string -> option string)
  (scxml_path : string) (root : node) (m m' : SCXMLModel) :
  _parse_global_scripts load_external_script scxml_path root m = Ok m' ->
  ns_findall root "script" <> [] ->
  flag_of m' needs_jsengine = true.
Proof.
  unfold _parse_global_scripts.
  destruct (ns_findall root "script") as [|a l] using rev_ind;
    [congruence |].
  intros H _. rewrite fold_left_app in H. cbn [fold_left] in H.
  match type of H with
  | match ?r with _ => _ end = _ => destruct r as [m0|e]; [| discriminate]
  end.
  cbv zeta in H.
  match type of H with
  | match ?x with Some _ => _ | None => _ end = _ =>
      destruct x; [| discriminate]
  end.
  injection H as <-. reflexivity.
Qed.

Section WithParser.

Variable tostring : node -> string.
Variable tostring_c14n : node -> string.
Variable path_stem : string -> string.
Variable sibling_path : string -> string -> string.
Variable load_external_script : string -> string -> option string.
Variable reread : node -> node.

(** What a model that [parse_file] returns owes to the root of its file. *)
Lemma parse_file_spec (fuel : nat) (fs : filesystem) (path : string)
  (m : SCXMLModel) :
  snd (parse_file tostring tostring_c14n path_stem sibling_path
         load_external_script reread fuel fs path) = Ok m ->
  exists root,
    fs !! path = Some (XmlFile root)
    /\ flag_of m has_dynamic_file_invoke = false
    /\ map dv_id (variables m)
       = map (fun data => get_opt data "id") (root_data root)
    /\ (root_data root <> [] \/ ns_findall root "script" <> [] ->
        flag_of m needs_jsengine = true).
Proof.
  destruct fuel as [|fuel]; [discriminate |]. cbn [parse_file].
  destruct (fs !! path) as [[root|]|]; try discriminate.
  intros H. apply pstep_root in H as (nm & init & bind & dm & m1 & H1 & H2).
  exists root. split; [reflexivity |].
  pose proof (pstep_global_scripts _ _ _ _ _ H1) as H0.
  pose proof (global_scripts_flag _ _ _ _ _ H1) as HS.
  destruct (pstep_trans _ _ _ H0 H2) as (D & J & _ & V).
  destruct H2 as (_ & J2 & _ & _).
  destruct (datamodel_spec tostring root (new_model nm init bind dm))
    as (V0 & D0 & J0).
  split; [rewrite D, D0; reflexivity |].
  split; [rewrite V, V0; reflexivity |].
  intros [Hd | Hs]; [apply J, J0, Hd | apply J2, HS, Hs].
Qed.

End WithParser.

End ParserFacts.

Module ResolveFacts.
Import PyStr Regex Xml Classifier Model Parser CodeGen Spec.
Import StrFacts ModelFacts ChaseFacts LeafFacts.

(** [n] hops are made when there are [n] to make. *)
Lemma leaf_loop_exact (m : SCXMLModel) (n : nat) (a x : string) :
  hops m n a x -> leaf_loop n m a = x.
Proof.
  induction 1 as [a | n a b c (s & Hs & Ht & Hh & ->) _ IH]; [reflexivity |].
  cbn [leaf_loop]. rewrite Hs, Ht, Hh. exact IH.
Qed.

(** The chase has one result. *)
Lemma leaf_loop_unique (m : SCXMLModel) (n k : nat) (a x : string) :
  k <= n -> hops m k a x -> k = n \/ is_leaf m x -> leaf_loop n m a = x.
Proof.
  intros Hk Hh [-> | Hleaf]; [now apply leaf_loop_exact |].
  now apply (leaf_loop_complete m k).
Qed.

Lemma deep_loop_some (m : SCXMLModel) (n : nat) : forall a,
  has_state m a = true ->
  deep_initial_loop n m a = Some (leaf_loop n m a).
Proof.
  induction n as [|n IH]; intros a Ha; [reflexivity |].
  cbn [deep_initial_loop leaf_loop].
  unfold has_state, dict_mem in Ha. unfold state_of.
  destruct (assoc a (states m)) as [s|]; [| discriminate Ha].
  destruct (truthy (st_initial s) && has_state m (st_initial s)) eqn:E;
    [| reflexivity].
  apply andb_true_iff in E as [_ E]. now apply IH.
Qed.

Lemma deep_loop_none (m : SCXMLModel) (n : nat) (a : string) :
  has_state m a = false -> deep_initial_loop (S n) m a = None.
Proof.
  intros Ha. cbn [deep_initial_loop].
  unfold has_state, dict_mem in Ha. unfold state_of.
  now destruct (assoc a (states m)).
Qed.

(** The chase from a given start. *)
Lemma chase_from (m : SCXMLModel) (start : string) :
  match deep_initial_loop MAX_DEPTH m start with
  | Some leaf => Ok (set_initial leaf m)
  | None => Ok m
  end
  = if has_state m start
    then Ok (set_initial (_resolve_to_leaf_state m start) m)
    else Ok m.
Proof.
  destruct (has_state m start) eqn:E.
  - now rewrite deep_loop_some.
  - unfold MAX_DEPTH. now rewrite deep_loop_none.
Qed.

(** [_resolve_deep_initial], case by case. *)
Lemma resolve_deep_initial_cases (m : SCXMLModel) :
  (truthy (initial m) = false -> _resolve_deep_initial m = Ok m)
  /\ (truthy (initial m) = true -> split (initial m) = [] ->
      _resolve_deep_initial m = Raise IndexError)
  /\ (1 < List.length (split (initial m)) ->
      forallb (has_state m) (split (initial m)) = true ->
      _resolve_deep_initial m = Ok m)
  /\ (forall start, chase_start m start ->
      _resolve_deep_initial m
      = if has_state m start
        then Ok (set_initial (_resolve_to_leaf_state m start) m)
        else Ok m).
Proof.
  unfold _resolve_deep_initial. cbv zeta.
  split; [intros ->; reflexivity |].
  split; [intros -> ->; reflexivity |].
  split.
  - intros Hl Hall. destruct (truthy (initial m)); [| reflexivity].
    apply Nat.ltb_lt in Hl. cbn [negb]. now rewrite Hl, Hall.
  - intros start [Ht [Hs | (Hl & Hall & ->)]]; rewrite Ht; cbn [negb].
    + rewrite Hs. cbn [List.length Nat.ltb Nat.leb]. apply chase_from.
    + apply Nat.ltb_lt in Hl. rewrite Hl, Hall. apply chase_from.
Qed.

(** The only error of [_resolve_deep_initial]. *)
Lemma resolve_deep_initial_error (m : SCXMLModel) (e : py_error) :
  _resolve_deep_initial m = Raise e ->
  e = IndexError /\ truthy (initial m) = true /\ split (initial m) = [].
Proof.
  unfold _resolve_deep_initial. cbv zeta.
  destruct (truthy (initial m)); [| discriminate]. cbn [negb].
  assert (H : forall start,
            match deep_initial_loop MAX_DEPTH m start with
            | Some leaf => Ok (set_initial leaf m)
            | None => Ok m
            end <> Raise e).
  { intros start. now destruct (deep_initial_loop MAX_DEPTH m start). }
  destruct (split (initial m)) as [|a l].
  - cbn [List.length Nat.ltb Nat.leb]. intros [= <-]. auto.
  - destruct (Nat.ltb 1 (List.length (a :: l)));
      [destruct (forallb (has_state m) (a :: l)); [discriminate |] |];
      intros H0; now apply H in H0.
Qed.

(** The leaves [_resolve_history_targets] records. *)
Lemma history_targets_leaves (m : SCXMLModel) :
  (history_default_targets m = [] -> _resolve_history_targets m = m)
  /\ (history_default_targets m <> [] ->
      map fst (history_states (_resolve_history_targets m))
      = map fst (history_states m)
      /\ Forall
           (fun kv : string * HistoryInfo =>
              h_leaf_target (snd kv)
              = Some (_resolve_to_leaf_state m (h_default_target (snd kv))))
           (history_states (_resolve_history_targets m))).
Proof.
  unfold _resolve_history_targets.
  destruct (history_default_targets m) as [|d ds];
    [split; [reflexivity | congruence] |].
  split; [discriminate |]. intros _. cbv zeta.
  cbn [history_states map_states set_states set_history_states].
  split.
  - rewrite map_map. reflexivity.
  - apply Forall_map. apply Forall_forall. intros kv _. reflexivity.
Qed.

End ResolveFacts.

(** ** Checks: the embedding on the examples of the source and of the
    specification *)

Module Checks.
Import PyStr Regex Xml Classifier Model Parser CodeGen Scenarios Spec.

Example pure_in_1 : _is_pure_in_predicate "In('s1')" = true.
Proof. reflexivity. Qed.
Example pure_in_2 : _is_pure_in_predicate "In('s1') && In('s2')" = true.
Proof. reflexivity. Qed.
Example pure_in_3 : _is_pure_in_predicate "In('s1') || In('s2')" = true.
Proof. reflexivity. Qed.
Example pure_in_4 :
  _is_pure_in_predicate "In('s1') && typeof x !== 'undefined'" = false.
Proof. reflexivity. Qed.
Example pure_in_5 : _is_pure_in_predicate "In(stateName)" = false.
Proof. reflexivity. Qed.
Example pure_in_6 :
  _is_pure_in_predicate ("In(" +:+ dq "s1" +:+ ")") = false.
Proof. reflexivity. Qed.
Example pure_in_7 :
  _is_pure_in_predicate "In('s1') &amp;&amp; In('s2')" = true.
Proof. reflexivity. Qed.
Example static_1 : _is_static_string_literal "'test'" = true.
Proof. reflexivity. Qed.
Example static_2 : _is_static_string_literal (dq "test") = true.
Proof. reflexivity. Qed.
Example static_3 : _is_static_string_literal "2" = false.
Proof. reflexivity. Qed.
Example static_4 : _is_static_string_literal "'a' + 'b'" = false.
Proof. reflexivity. Qed.
Example extract_1 : _extract_static_string_literal " 'test' " = "test".
Proof. reflexivity. Qed.
Example extract_2 : _extract_static_string_literal (dq "te'st") = "te'st".
Proof. reflexivity. Qed.
Example split_1 : split "  s2p112   s2p122 " = ["s2p112"; "s2p122"].
Proof. reflexivity. Qed.
Example replace_1 : replace "aa" "b" "aaaaa" = "bba".
Proof. reflexivity. Qed.
Example strip_1 : strip "  a b  " = "a b".
Proof. reflexivity. Qed.
Example sysid_1 : search_system_identifier false "x + _name" = true.
Proof. reflexivity. Qed.
Example sysid_2 : search_system_identifier false "a_b" = false.
Proof. reflexivity. Qed.


Example deep_initial_resolved :
  let r := parse (one_file "d.scxml" deep_initial_doc) "d.scxml" in
  initial_of r = Some "s01a" /\ initial_leaf_of r = Some "s01a".
Proof. vm_compute. split; reflexivity. Qed.

Example parallel_scenario_overrides :
  let r := parse (one_file "p.scxml" parallel_initial_doc) "p.scxml" in
  state_initial_of r "s2p11" = Some "s2p112"
  /\ state_initial_of r "s2p12" = Some "s2p122"
  /\ match r with
     | Ok m => assoc "s2p1" (parallel_regions m) = Some ["s2p11"; "s2p12"]
     | Raise _ => False
     end.
Proof. vm_compute. repeat split; reflexivity. Qed.

Example history_initial_marked :
  match parse (one_file "h.scxml" history_doc) "h.scxml" with
  | Ok m =>
      match state_of m "s1" with
      | Some s =>
          st_initial_history_id s = "h1"
          /\ st_initial_history_default_target s = "s11a"
          /\ st_initial s = "s11a"
      | None => False
      end
  | Raise _ => False
  end.
Proof. vm_compute. repeat split; reflexivity. Qed.

Example child_event_collected :
  has_event (parse closure_files "p.scxml") "failure" = true.
Proof. vm_compute. reflexivity. Qed.

Example pure_in_guard_needs_no_engine :
  let r := parse (one_file "g.scxml" pure_in_doc) "g.scxml" in
  flag_in r needs_jsengine = Some false
  /\ flag_in r uses_in_predicate = Some true
  /\ match r with
     | Ok m =>
         option_map (fun s => map tr_is_pure_in_predicate (st_transitions s))
           (state_of m "s1") = Some [true]
     | Raise _ => False
     end.
Proof. vm_compute. repeat split; reflexivity. Qed.

Example prefix_scenario :
  option_map (fun P => (bool_decide ("error" ∈ P),
                        bool_decide ("error.execution" ∈ P),
                        bool_decide ("foo" ∈ P), List.length P))
    (tr_prefix_matching_events prefix_transition)
  = Some (true, true, false, 2).
Proof. vm_compute. reflexivity. Qed.

End Checks.

(** ** Properties of the specification *)

Import PyStr Regex Xml Classifier Model Parser CodeGen Scenarios Spec.
Import StrFacts RegexFacts LiteralFacts ShapeFacts CleanFacts ModelFacts
  PrefixFacts OverrideFacts ChaseFacts RootFacts IdentifierFacts
  ResolveFacts.

(** C1, at the input where the code departs from it: a [<foreach>] inside
    the [<if>] of an entry block, in a document without data and with a
    pure [In()] guard, leaves [needs_jsengine] false to the end of
    [generate], although the feature scan sees the [<foreach>]
    ([needs_foreach]); the same [<foreach>] directly in the entry block
    sets the flag. *)
Theorem nested_foreach_leaves_engine_flag_unset :
  final_flag (run (one_file "n.scxml" nested_foreach_doc) "n.scxml")
    needs_jsengine = Some false
  /\ final_flag (run (one_file "n.scxml" nested_foreach_doc) "n.scxml")
       needs_foreach = Some true
  /\ final_flag (run (one_file "n.scxml" plain_foreach_doc) "n.scxml")
       needs_jsengine = Some true.
Proof. vm_compute. repeat split; reflexivity. Qed.

(** C2: in the model [generate] hands to the emitter, every transition with
    a non-empty event descriptor [D] that is no wildcard has a prefix-match
    list [P], and an event [e] of the final events set is in [P] exactly
    when [e] is [D] or starts with [D] followed by a dot. *)
Theorem prefix_matches_exact (as_child : bool) (m0 : SCXMLModel)
  (sid : string) (s : State) (t : Transition) :
  state_of (prepare as_child m0) sid = Some s ->
  t ∈ st_transitions s ->
  tr_event t <> "" ->
  is_wildcard (tr_event t) = false ->
  exists P, tr_prefix_matching_events t = Some P
    /\ forall e, e ∈ events (prepare as_child m0) ->
         (e ∈ P <-> (e = tr_event t \/ startswith e (tr_event t +:+ ".") = true)).
Proof.
  unfold prepare. cbv zeta. rewrite build_prefix_matching_events.
  apply build_prefix_matching_exact.
Qed.

(** The transition on [error] of the prefix-match scenario. *)
Lemma prefix_matches_exact_witness :
  exists P, tr_prefix_matching_events prefix_transition = Some P
    /\ forall e, e ∈ events (prepare false prefix_model) ->
         (e ∈ P <-> (e = tr_event prefix_transition
                     \/ startswith e (tr_event prefix_transition +:+ ".") = true)).
Proof.
  apply (prefix_matches_exact false prefix_model "s" prefix_state
           prefix_transition).
  - vm_compute. reflexivity.
  - vm_compute. left.
  - vm_compute. discriminate.
  - vm_compute. reflexivity.
Defined.

(** C3, at the input where the code departs from it: the document-level
    initial lists [a] and [b], and the document has no state [b].  The
    parser collapses the initial to [a] before the wrapper check runs, so
    the document is generated on the static track; the same check on the
    model with the document-level initial put back elects the wrapper. *)
Theorem missing_parallel_initial_stays_static :
  track_of (run (one_file "m.scxml" missing_initial_doc) "m.scxml")
  = Some StaticTemplate
  /\ state_ids_of (parse (one_file "m.scxml" missing_initial_doc) "m.scxml")
     = Some ["a"]
  /\ initial_of (parse (one_file "m.scxml" missing_initial_doc) "m.scxml")
     = Some "a"
  /\ option_map
       (fun tm => _needs_interpreter_wrapper (set_initial "a b" (snd tm)))
       (run (one_file "m.scxml" missing_initial_doc) "m.scxml")
     = Some true.
Proof. vm_compute. repeat split; reflexivity. Qed.

(** C4, at the inputs where the code departs from it: the classifier
    answers true for two atoms with a single [&] between them, which the
    claim excludes, for two atoms with nothing between them and for an atom
    followed by a dangling [&&].  The pattern allows any run of the
    characters of the operators between the atoms.  The guard written for
    the last two is no C++ expression. *)
Theorem lone_ampersand_is_accepted :
  _is_pure_in_predicate "In('a') & In('b')" = true
  /\ claimed_pure_in "In('a') & In('b')" = false
  /\ _is_pure_in_predicate "In('a')In('b')" = true
  /\ Conversions._convert_in_to_cpp "In('a')In('b')"
     = Conversions.is_state_active "a" +:+ Conversions.is_state_active "b"
  /\ _is_pure_in_predicate "In('a') &&" = true
  /\ Conversions._convert_in_to_cpp "In('a') &&"
     = Conversions.is_state_active "a" +:+ " &&".
Proof. vm_compute. repeat split; reflexivity. Qed.

(** C5, at the input where the code departs from it: the child sends
    [childDone] to its parent from inside a [<foreach>] and [childReady]
    from inside an [<if>]; the parent is parsed, and neither event is in
    its events set, after parsing or at the end of [generate].  The send
    directly in the entry block of the closure scenario is collected. *)
Theorem nested_parent_sends_not_collected :
  state_ids_of (parse nested_send_files "p.scxml") = Some ["p0"; "fail"]
  /\ has_event (parse nested_send_files "p.scxml") "childDone" = false
  /\ has_event (parse nested_send_files "p.scxml") "childReady" = false
  /\ final_has_event (run nested_send_files "p.scxml") "childDone"
     = Some false
  /\ has_event (parse nested_send_files "c.scxml") "childDone" = true
  /\ has_event (parse closure_files "p.scxml") "failure" = true.
Proof. vm_compute. repeat split; reflexivity. Qed.

(** C6 as stated fails: the document-level initial of the parallel scenario
    lists two states, and the parsed model keeps the first only. *)
Lemma parallel_initial_not_preserved :
  get parallel_initial_doc "initial" "" = "s2p112 s2p122"
  /\ initial_of (parse (one_file "p.scxml" parallel_initial_doc) "p.scxml")
     = Some "s2p112".
Proof. vm_compute. split; reflexivity. Qed.

(** C6, amended: when the initial of the model lists two or more ids and
    every one is a state, [_resolve_deep_initial] leaves the model as it is,
    and [_apply_parallel_initial_overrides] sets the initial of the model to
    the first id and, for every listed id [x] whose parent [p] is a named
    state of the model, sets the initial of [p] to [x], unless a later
    listed id has the same parent. *)
Theorem listed_initials_override_parents (m : SCXMLModel) (first second : string)
  (rest : list string) :
  split (initial m) = first :: second :: rest ->
  Forall (fun id => has_state m id = true) (first :: second :: rest) ->
  _resolve_deep_initial m = Ok m
  /\ initial (_apply_parallel_initial_overrides m) = first
  /\ forall pre x post p sp,
       first :: second :: rest = pre ++ x :: post ->
       parent_of m x = Some (Some p) -> p <> "" -> state_of m p = Some sp ->
       Forall (fun y => parent_of m y <> Some (Some p)) post ->
       exists sp',
         state_of (_apply_parallel_initial_overrides m) p = Some sp'
         /\ st_initial sp' = x.
Proof.
  intros Hsplit Hall.
  assert (Htruthy : truthy (initial m) = true).
  { destruct (initial m); [discriminate Hsplit | reflexivity]. }
  split; [| split].
  - unfold _resolve_deep_initial. rewrite Htruthy, Hsplit. simpl.
    assert (forallb (has_state m) (first :: second :: rest) = true) as E.
    { apply forallb_forall. intros id Hid. rewrite Forall_forall in Hall.
      apply Hall, list_elem_of_In, Hid. }
    simpl in E. rewrite E. reflexivity.
  - unfold _apply_parallel_initial_overrides. rewrite Htruthy, Hsplit.
    reflexivity.
  - intros pre x post p sp Hids Hx Hp Hsp Hpost.
    unfold _apply_parallel_initial_overrides. rewrite Htruthy, Hsplit, Hids.
    destruct (pre ++ x :: post) as [|a [|b l]] eqn:E;
      [discriminate Hids | discriminate Hids |].
    rewrite <- E.
    change (state_of (set_initial a ?m') p) with (state_of m' p).
    apply (fold_last_wins pre post x p m sp); assumption.
Qed.

(** Two regions, one listed child each. *)
Lemma listed_initials_override_parents_witness :
  _resolve_deep_initial regions_model = Ok regions_model
  /\ initial (_apply_parallel_initial_overrides regions_model) = "a2"
  /\ (exists sp',
        state_of (_apply_parallel_initial_overrides regions_model) "r1"
        = Some sp' /\ st_initial sp' = "a2")
  /\ (exists sp',
        state_of (_apply_parallel_initial_overrides regions_model) "r2"
        = Some sp' /\ st_initial sp' = "b2").
Proof.
  destruct (listed_initials_override_parents regions_model "a2" "b2" [])
    as (H1 & H2 & H3).
  - reflexivity.
  - repeat constructor.
  - split; [exact H1 |]. split; [exact H2 |]. split.
    + apply (H3 [] "a2" ["b2"] "r1" (snd (region_state "r1" "p" "a1")));
        [reflexivity | reflexivity | discriminate | reflexivity |].
      repeat constructor. discriminate.
    + apply (H3 ["a2"] "b2" [] "r2" (snd (region_state "r2" "p" "b1")));
        [reflexivity | reflexivity | discriminate | reflexivity |].
      constructor.
Defined.

(** C7 as stated fails: the bare identifier [Var1] is neither a pure [In()]
    predicate nor a static string literal, and the classifier answers that
    it does not require the script engine; a document whose only guard is
    [Var1] ends [generate] with [needs_jsengine] false. *)
Lemma bare_identifier_not_flagged :
  fst (_requires_jsengine "Var1" (new_model "m" "s" "early" "ecmascript"))
  = false
  /\ _is_pure_in_predicate "Var1" = false
  /\ _is_static_string_literal "Var1" = false
  /\ final_flag (run (one_file "b.scxml" bare_guard_doc) "b.scxml")
       needs_jsengine = Some false.
Proof. vm_compute. repeat split; reflexivity. Qed.

(** C7, amended: classification is a total function, and what none of its
    tests matches defaults to not requiring the script engine.  A bare
    identifier (an ASCII letter followed by ASCII letters, digits and
    underscores) that contains neither [typeof] nor [function] and is no
    C++ reserved word is classified as not requiring the script engine,
    the model is left as it is, and the identifier is neither a pure [In()]
    predicate nor a static string literal. *)
Theorem bare_identifier_needs_no_engine (expr : string) (m : SCXMLModel) :
  is_identifier expr = true ->
  contains "typeof" expr = false ->
  contains "function" expr = false ->
  in_list expr cpp_reserved = false ->
  _requires_jsengine expr m = (false, m)
  /\ _is_pure_in_predicate expr = false
  /\ _is_static_string_literal expr = false.
Proof.
  intros Hid Htypeof Hfunction Hreserved.
  pose proof (identifier_chars expr Hid) as Hchars.
  assert (Hno : forall sub, all_chars identifier_char sub = false ->
                            contains sub expr = false)
    by (intros sub; apply contains_all_chars; exact Hchars).
  assert (Htruthy : truthy expr = true)
    by (destruct expr; [discriminate Hid | reflexivity]).
  split; [| split].
  - unfold _requires_jsengine. rewrite Htruthy. cbn [negb].
    rewrite (Hno "In(") by reflexivity.
    unfold js_features. cbn [existsb].
    rewrite Htypeof, Hfunction, !Hno by reflexivity. cbn [orb].
    rewrite (identifier_no_system_identifier expr Hid).
    unfold ecmascript_operators. cbn [existsb].
    rewrite !Hno by reflexivity. cbn [orb].
    unfold search_quote.
    rewrite (any_char_none identifier_char _ expr identifier_char_not_quote Hchars).
    unfold EVENT_METADATA_FIELDS. cbn [existsb].
    rewrite !Hno by reflexivity. cbn [orb].
    rewrite (strip_identifier expr Hchars).
    rewrite (existsb_ext_in _ (String.eqb expr) cpp_reserved
               (fun k => reserved_hit_identifier expr k Hchars)).
    unfold in_list in Hreserved. rewrite Hreserved. reflexivity.
  - unfold _is_pure_in_predicate. rewrite Htruthy, (Hno "In(") by reflexivity.
    reflexivity.
  - unfold _is_static_string_literal. rewrite Htruthy. cbn [negb].
    rewrite (strip_identifier expr Hchars).
    destruct expr as [|c rest]; [discriminate Hid |].
    simpl in Hid. apply andb_prop in Hid as [Hc _].
    destruct (letter_not_quote c Hc) as [E1 E2].
    unfold re_match_anchored, quoted_pattern, Lit.
    cbn [accepts deriv nullable endswith drop_last].
    rewrite E1, E2.
    assert (Hvoid : forall r s, accepts (Cat Void r) s = false).
    { intros r s. revert r. induction s as [|x s IH]; intros r; [reflexivity |].
      simpl. apply IH. }
    rewrite !Hvoid.
    destruct rest as [|d rest']; cbn [drop_last accepts deriv nullable];
      rewrite ?E1, ?E2, ?Hvoid, ?andb_false_r; reflexivity.
Qed.

(** The identifier [Var1]. *)
Lemma bare_identifier_needs_no_engine_witness :
  _requires_jsengine "Var1" (new_model "m" "s" "early" "ecmascript")
  = (false, new_model "m" "s" "early" "ecmascript")
  /\ _is_pure_in_predicate "Var1" = false
  /\ _is_static_string_literal "Var1" = false.
Proof.
  apply (bare_identifier_needs_no_engine "Var1"); reflexivity.
Defined.

(** C8 as stated fails: a document whose root is [<html>], in no namespace,
    is parsed into a model without states, and [generate] goes on to emit
    the interpreter wrapper for it. *)
Lemma foreign_root_is_parsed :
  state_ids_of (parse (one_file "x.scxml" foreign_root_doc) "x.scxml")
  = Some []
  /\ track_of (run (one_file "x.scxml" foreign_root_doc) "x.scxml")
     = Some InterpreterWrapper.
Proof. vm_compute. split; reflexivity. Qed.

(** C8, amended: [parse_file] never looks at the name or the namespace of
    the root element.  A document is parsed exactly as the document with
    the same attributes, text and children under an [<scxml>] root of the
    SCXML namespace; when the root has no [initial] attribute and no child
    element in the SCXML namespace, the result is a model without states,
    with an empty initial, named after the file. *)
Theorem root_element_never_checked
  (tostring tostring_c14n : node -> string) (path_stem : string -> string)
  (sibling_path : string -> string -> string)
  (load_external_script : string -> string -> option string)
  (reread : node -> node)
  (fuel : nat) (fs : filesystem) (path ns tag : string)
  (attrs : list (string * string)) (text : string) (children : list node) :
  fs !! path = Some (XmlFile (Element ns tag attrs text children)) ->
  let parse :=
    parse_file tostring tostring_c14n path_stem sibling_path
      load_external_script reread in
  parse (S fuel) fs path
  = parse_root tostring tostring_c14n path_stem sibling_path
      load_external_script reread (parse fuel) path fs
      (Element SCXML_NS "scxml" attrs text children)
  /\ (assoc "initial" attrs = None ->
      forallb (fun c => negb (in_scxml_namespace c)) children = true ->
      exists m, snd (parse (S fuel) fs path) = Ok m
                /\ states m = [] /\ initial m = ""
                /\ name m = path_stem path).
Proof.
  intros Hfile parse. split.
  - unfold parse. cbn [parse_file]. rewrite Hfile. reflexivity.
  - intros Hinit Hforeign. unfold parse. cbn [parse_file]. rewrite Hfile.
    unfold parse_root.
    rewrite !(ns_find_foreign _ _ _ _ _ Hforeign).
    unfold _parse_datamodel, _parse_global_scripts.
    rewrite !(ns_findall_foreign _ _ _ _ _ Hforeign).
    unfold get, get_opt. cbn [attrs_of]. rewrite Hinit.
    cbn [default truthy is_empty negb map List.concat fold_left and_then snd fst].
    rewrite (parse_states_foreign _ _ _ _ _ _ _ Hforeign).
    eexists. split; [reflexivity |]. repeat split.
Qed.

(** An [<html/>] root. *)
Lemma root_element_never_checked_witness :
  exists m,
    snd (parse_file Scenarios.tag_only Scenarios.tag_only Scenarios.flat_stem
           Scenarios.flat_sibling Scenarios.no_script id 1
           (Scenarios.one_file "page.scxml" (Element "" "html" [] "" []))
           "page.scxml") = Ok m
    /\ states m = [] /\ initial m = "" /\ name m = "page".
Proof.
  apply (root_element_never_checked Scenarios.tag_only Scenarios.tag_only
           Scenarios.flat_stem Scenarios.flat_sibling Scenarios.no_script id 0
           (Scenarios.one_file "page.scxml" (Element "" "html" [] "" []))
           "page.scxml" "" "html" [] "" []);
    reflexivity.
Defined.

(** C9 as stated fails: a cyclic initial chain and a chain of 25 nested
    compound states are both parsed into a model.  The chase stops after 20
    hops: at [s0] on the cycle, also for the default of the history state,
    and at the 21st state of the nested chain. *)
Lemma initial_cycle_is_parsed :
  initial_of (parse (one_file "c.scxml" cyclic_initial_doc) "c.scxml")
  = Some "s0"
  /\ initial_leaf_of (parse (one_file "c.scxml" cyclic_initial_doc) "c.scxml")
     = Some "s0"
  /\ history_leaf_of (parse (one_file "c.scxml" cyclic_initial_doc) "c.scxml")
       "h" = Some "s0"
  /\ track_of (run (one_file "c.scxml" cyclic_initial_doc) "c.scxml")
     = Some StaticTemplate
  /\ initial_of (parse (one_file "d.scxml" deep_chain_doc) "d.scxml")
     = Some "xxxxxxxxxxxxxxxxxxxxx".
Proof. vm_compute. repeat split; reflexivity. Qed.

(** C9, amended: the chase along [initial] never raises on a chain, however
    long or cyclic.  [_resolve_to_leaf_state] returns the one state that is
    reached from its argument by at most [MAX_DEPTH] hops and is a leaf or
    lies exactly [MAX_DEPTH] hops away.  [_resolve_deep_initial] leaves the
    model as it is when the initial is empty, when it lists several ids that
    are all states, or when the id the chase starts from is no state; it
    sets the initial to what [_resolve_to_leaf_state] returns for the start
    otherwise; and it raises only [IndexError], on an initial made of
    whitespace.  [_resolve_history_targets] records for every history state
    what [_resolve_to_leaf_state] returns for its default target. *)
Theorem initial_chase_stops_at_depth_limit (m : SCXMLModel) :
  (forall id,
      (exists k,
          k <= MAX_DEPTH
          /\ hops m k id (_resolve_to_leaf_state m id)
          /\ (k = MAX_DEPTH \/ is_leaf m (_resolve_to_leaf_state m id)))
      /\ (forall k x,
            k <= MAX_DEPTH -> hops m k id x ->
            k = MAX_DEPTH \/ is_leaf m x ->
            _resolve_to_leaf_state m id = x))
  /\ (truthy (initial m) = false -> _resolve_deep_initial m = Ok m)
  /\ (truthy (initial m) = true -> split (initial m) = [] ->
      _resolve_deep_initial m = Raise IndexError)
  /\ (1 < List.length (split (initial m)) ->
      forallb (has_state m) (split (initial m)) = true ->
      _resolve_deep_initial m = Ok m)
  /\ (forall start,
        chase_start m start ->
        _resolve_deep_initial m
        = if has_state m start
          then Ok (set_initial (_resolve_to_leaf_state m start) m)
          else Ok m)
  /\ (forall e,
        _resolve_deep_initial m = Raise e ->
        e = IndexError /\ truthy (initial m) = true
        /\ split (initial m) = [])
  /\ (history_default_targets m = [] -> _resolve_history_targets m = m)
  /\ (history_default_targets m <> [] ->
      map fst (history_states (_resolve_history_targets m))
      = map fst (history_states m)
      /\ Forall
           (fun kv : string * HistoryInfo =>
              h_leaf_target (snd kv)
              = Some (_resolve_to_leaf_state m (h_default_target (snd kv))))
           (history_states (_resolve_history_targets m))).
Proof.
  split.
  { intros id. split; [apply leaf_loop_hops |].
    intros k x Hk Hh Hend. now apply (leaf_loop_unique m MAX_DEPTH k). }
  destruct (resolve_deep_initial_cases m) as (H1 & H2 & H3 & H4).
  destruct (history_targets_leaves m) as (H5 & H6).
  repeat (split; [assumption |]).
  split; [apply resolve_deep_initial_error |].
  split; assumption.
Qed.

(** C10: for a string [s] without a backslash, if [s] has no single quote
    then [s] between single quotes is a static string literal and the
    extractor returns [s]; if [s] has no double quote, the same holds for
    [s] between double quotes. *)
Theorem static_string_literal_roundtrip (s : string) :
  contains (String backslash "") s = false ->
  (contains (String squote "") s = false ->
   _is_static_string_literal (quote_with squote s) = true
   /\ _extract_static_string_literal (quote_with squote s) = s)
  /\
  (contains (String dquote "") s = false ->
   _is_static_string_literal (quote_with dquote s) = true
   /\ _extract_static_string_literal (quote_with dquote s) = s).
Proof.
  intros Hb. split; intros Hq.
  - pose proof (plain_chars _ _ Hq Hb) as Hp. split.
    + unfold _is_static_string_literal.
      rewrite static_literal_accepted by (reflexivity || assumption).
      reflexivity.
    + unfold _extract_static_string_literal.
      rewrite strip_quoted by reflexivity.
      unfold quote_with, match_quoted. rewrite Ascii.eqb_refl.
      rewrite quoted_group_snoc by assumption. reflexivity.
  - pose proof (plain_chars _ _ Hq Hb) as Hp. split.
    + unfold _is_static_string_literal.
      rewrite (static_literal_accepted dquote) by (reflexivity || assumption).
      rewrite orb_true_r. reflexivity.
    + unfold _extract_static_string_literal.
      rewrite strip_quoted by reflexivity.
      unfold quote_with, match_quoted.
      change (Ascii.eqb dquote squote) with false. cbv iota.
      rewrite Ascii.eqb_refl.
      rewrite quoted_group_snoc by assumption. reflexivity.
Qed.

(** The string [te st]. *)
Lemma static_string_literal_roundtrip_witness :
  (_is_static_string_literal (quote_with squote "te st") = true
   /\ _extract_static_string_literal (quote_with squote "te st") = "te st")
  /\ (_is_static_string_literal (quote_with dquote "te st") = true
   /\ _extract_static_string_literal (quote_with dquote "te st") = "te st").
Proof.
  destruct (static_string_literal_roundtrip "te st") as [H1 H2];
    [reflexivity |].
  split; [apply H1 | apply H2]; reflexivity.
Defined.

(** ** Further properties of the code *)

Import Conversions Notions Samples.
Import EscapeFacts QuoteFacts GuardFacts EngineFacts ConvertFacts PassFacts
  LeafFacts ChildrenFacts PipelineFacts EventFacts AnalysisFacts PrepareFacts
  TrackFacts RegionFacts CollectFacts InvokeFacts ScriptFacts ClassFacts
  ParserFacts.

(** X1: [_is_static_string_literal] answers true exactly when the stripped
    expression is a single or a double quote, a text that holds neither
    that quote nor a backslash, and the same quote again. *)
Theorem static_string_literal_characterised (expr : string) :
  _is_static_string_literal expr = true <->
  exists (q : ascii) (s : string),
    (q = squote \/ q = dquote)
    /\ strip expr = quote_with q s
    /\ contains (String q "") s = false
    /\ contains (String backslash "") s = false.
Proof.
  rewrite literal_shape. split.
  - intros (q & g & Hq & E & Hg). exists q, g.
    destruct (plain_chars_inv _ _ Hg). auto.
  - intros (q & g & Hq & E & H1 & H2). exists q, g.
    split; [exact Hq |]. split; [exact E |]. now apply plain_chars.
Qed.

(** X2: on an expression the detector accepts,
    [_extract_static_string_literal] returns the text between the quotes,
    so that quoting it again gives the stripped expression; on any other
    expression, the empty one included, it returns the stripped expression
    itself. *)
Theorem extract_static_string_literal_total (expr : string) :
  (_is_static_string_literal expr = true ->
   exists q : ascii,
     (q = squote \/ q = dquote)
     /\ strip expr = quote_with q (_extract_static_string_literal expr))
  /\ (_is_static_string_literal expr = false ->
      _extract_static_string_literal expr = strip expr).
Proof.
  split.
  - intros H. apply literal_shape in H as (q & g & Hq & E & Hg).
    exists q. split; [exact Hq |]. rewrite E at 1. f_equal.
    unfold _extract_static_string_literal.
    assert (Hm : match_quoted q (strip expr) = Some g).
    { apply match_quoted_spec; [apply strip_no_final_newline | auto]. }
    destruct Hq as [-> | ->]; [now rewrite Hm |].
    rewrite Hm. rewrite E. reflexivity.
  - intros H. unfold _extract_static_string_literal.
    unfold _is_static_string_literal in H.
    destruct expr as [|c expr]; [reflexivity |].
    cbn [truthy is_empty negb] in H.
    destruct (re_match_anchored (quoted_pattern squote) _) eqn:E1;
      [discriminate H |].
    destruct (re_match_anchored (quoted_pattern dquote) _) eqn:E2;
      [discriminate H |].
    now rewrite (match_quoted_none _ _ E1), (match_quoted_none _ _ E2).
Qed.

(** X3: an expression that is a static string literal always requires the
    script engine, also when the literal holds the text of an [In()]
    predicate. *)
Theorem static_literal_requires_engine (expr : string) (m : SCXMLModel) :
  _is_static_string_literal expr = true ->
  fst (_requires_jsengine expr m) = true.
Proof. apply literal_requires. Qed.

(** The literal ['foo']. *)
Lemma static_literal_requires_engine_witness :
  fst (_requires_jsengine "'foo'" (new_model "m" "s" "early" "ecmascript"))
  = true.
Proof.
  apply (static_literal_requires_engine "'foo'"). reflexivity.
Defined.

(** X4: a pure [In()] predicate does not require the script engine; the
    classifier records the use of [In()] in the model and changes nothing
    else; and a pure predicate is never a static string literal. *)
Theorem pure_in_predicate_skips_engine (expr : string) (m : SCXMLModel) :
  _is_pure_in_predicate expr = true ->
  _requires_jsengine expr m = (false, raise_flag uses_in_predicate m)
  /\ _is_static_string_literal expr = false.
Proof.
  intros H. split; [now apply pure_requires |].
  apply not_true_is_false. intros Hl. apply literal_not_pure in Hl. congruence.
Qed.

(** The guard [In('s1')]. *)
Lemma pure_in_predicate_skips_engine_witness :
  _requires_jsengine "In('s1')" (new_model "m" "s" "early" "ecmascript")
  = (false,
     raise_flag uses_in_predicate (new_model "m" "s" "early" "ecmascript"))
  /\ _is_static_string_literal "In('s1')" = false.
Proof.
  apply (pure_in_predicate_skips_engine "In('s1')"). reflexivity.
Defined.

(** X5: the only mark [_requires_jsengine] leaves on the model is
    [uses_in_predicate], raised when the expression is not empty and
    contains [In(].  It never sets [has_event_metadata]: an expression that
    contains one of [EVENT_METADATA_FIELDS] contains [_event.] and is
    answered by the loop over the features before. *)
Theorem requires_jsengine_model_effect (expr : string) (m : SCXMLModel) :
  snd (_requires_jsengine expr m)
  = if truthy expr && contains "In(" expr
    then raise_flag uses_in_predicate m else m.
Proof. apply requires_effect. Qed.

(** X6: on a pure [In()] predicate, [_convert_in_to_cpp] replaces every atom
    [In('id')] by a call of [isStateActive] on [id] between double quotes,
    and copies the separators: the expression with its escaped operators
    replaced is a run of separators and a list of atoms with their
    separators, and the result is the same run and the same list with the
    atoms converted. *)
Theorem convert_in_to_cpp_on_pure_predicate (expr : string) :
  _is_pure_in_predicate expr = true ->
  exists (lead : string) (parts : list (string * string)),
    parts <> []
    /\ separators lead
    /\ Forall part_ok parts
    /\ replace "&amp;|" "||" (replace "&amp;&amp;" "&&" expr)
       = lead +:+ flatten (map part_text parts)
    /\ _convert_in_to_cpp expr = lead +:+ flatten (map cpp_part parts).
Proof.
  intros H. apply pure_shape in H. unfold clean_expr in H.
  unfold _convert_in_to_cpp.
  set (X := replace "&amp;|" "||" (replace "&amp;&amp;" "&&" expr)) in *.
  destruct (strip_split X) as (l & r & E & Hl & Hr).
  destruct (shape_padded l (strip X) r H Hl Hr)
    as (lead & parts & Hne & Hlead & Hparts & Es).
  rewrite <- E in Es. exists lead, parts.
  split; [exact Hne |]. split; [exact Hlead |]. split; [exact Hparts |].
  split; [exact Es |]. rewrite Es. now apply convert_shape.
Qed.

(** The guard of the scenario with escaped ampersands. *)
Lemma convert_in_to_cpp_on_pure_predicate_witness :
  exists (lead : string) (parts : list (string * string)),
    parts <> []
    /\ separators lead
    /\ Forall part_ok parts
    /\ replace "&amp;|" "||"
         (replace "&amp;&amp;" "&&" "In('s1') &amp;&amp; In('s2')")
       = lead +:+ flatten (map part_text parts)
    /\ _convert_in_to_cpp "In('s1') &amp;&amp; In('s2')"
       = lead +:+ flatten (map cpp_part parts).
Proof.
  apply (convert_in_to_cpp_on_pure_predicate "In('s1') &amp;&amp; In('s2')").
  reflexivity.
Defined.

(** X7: [_escape_cpp_string] works character by character: the escaped
    text of a concatenation is the concatenation of the escaped texts; a
    backslash, a double quote, a newline, a carriage return and a tab
    become a backslash followed by a backslash, a double quote, [n], [r]
    and [t]; any other character is copied; so a text without these five
    characters is returned as it is. *)
Theorem escape_cpp_string_by_character :
  (forall a b : string,
     _escape_cpp_string (a +:+ b)
     = _escape_cpp_string a +:+ _escape_cpp_string b)
  /\ (forall c : ascii, _escape_cpp_string (char_str c) = escape_char c)
  /\ (forall s : string,
        any_char needs_escape s = false -> _escape_cpp_string s = s).
Proof.
  split; [| split].
  - intros a b. rewrite !escape_is_expand. apply expand_app.
  - intros c. rewrite escape_is_expand. cbn [char_str expand].
    apply StrFacts.app_nil_r.
  - intros s H. rewrite escape_is_expand. now apply expand_plain.
Qed.

(** X8: the text [_escape_cpp_string] returns holds no newline, no carriage
    return and no tab. *)
Theorem escape_cpp_string_single_line (text : string) :
  contains (char_str newline) (_escape_cpp_string text) = false
  /\ contains (char_str carriage_return) (_escape_cpp_string text) = false
  /\ contains (char_str tab) (_escape_cpp_string text) = false.
Proof.
  rewrite escape_is_expand.
  assert (H : forall x : ascii,
            (forall c, all_chars (fun y => negb (Ascii.eqb y x))
                         (escape_char c) = true) ->
            contains (char_str x) (expand escape_char text) = false).
  { intros x Hx. apply contains_char.
    induction text as [|c text IH]; [reflexivity |].
    cbn [expand]. now rewrite all_chars_app, Hx, IH. }
  repeat split; apply H; intros c; by_cases_on c.
Qed.

(** X9: [_escape_cpp_string] is injective: two texts with the same escaped
    text are the same text. *)
Theorem escape_cpp_string_injective (a b : string) :
  _escape_cpp_string a = _escape_cpp_string b <-> a = b.
Proof.
  split; [| now intros ->]. rewrite !escape_is_expand.
  apply expand_escape_inj.
Qed.

(** X10: the JavaScript [_actions_to_javascript] writes for the parsed
    content of an element never shows what is inside an [<if>]: the parser
    stores the branches under [then_actions], [elseif_branches] and
    [else_actions], and the conversion reads [then], [elseif] and [else].
    The script is the same with the children of every [<if>] removed,
    whatever the model; for a lone [<if>] it is the empty block under the
    condition, or nothing when the condition is empty. *)
Theorem script_ignores_if_bodies
  (tostring tostring_c14n : node -> string) (ns tag : string)
  (attrs : list (string * string)) (text : string) :
  (forall (cs : list node) (m m' : SCXMLModel),
     _actions_to_javascript
       (fst (_parse_executable_content tostring tostring_c14n
               (Element ns tag attrs text cs) m))
     = _actions_to_javascript
         (fst (_parse_executable_content tostring tostring_c14n
                 (Element ns tag attrs text (map prune_if cs)) m')))
  /\ (forall (child : node) (m : SCXMLModel),
        is_element child = true -> localname child = "if" ->
        _actions_to_javascript
          (fst (_parse_executable_content tostring tostring_c14n
                  (Element ns tag attrs text [child]) m))
        = Some (if truthy (get child "cond" "")
                then "if (" +:+ get child "cond" "" +:+ ") { }" else "")).
Proof.
  split.
  - intros cs m m'. apply pruned_script.
  - intros child m. apply lone_if_script.
Qed.

(** X11: [_apply_parallel_initial_overrides] keeps the states of the model
    and their order; a state comes out as it went in but for its [initial];
    and of the model nothing changes but the states and the initial. *)
Theorem overrides_touch_initial_only (m : SCXMLModel) :
  map fst (states (_apply_parallel_initial_overrides m)) = map fst (states m)
  /\ (forall (id : string) (s' : State),
        state_of (_apply_parallel_initial_overrides m) id = Some s' ->
        exists s, state_of m id = Some s
                  /\ s' = set_st_initial (st_initial s') s)
  /\ _apply_parallel_initial_overrides m
     = set_initial (initial (_apply_parallel_initial_overrides m))
         (set_states (states (_apply_parallel_initial_overrides m)) m).
Proof. apply overrides_variant. Qed.

(** X12: when a chain of at most [MAX_DEPTH] initial links leads from a
    state to a leaf, [_resolve_to_leaf_state] returns that leaf; and
    [_resolve_deep_initial], on a model whose initial is that one state and
    whose leaf is a state of the model, sets the initial to the leaf. *)
Theorem short_chain_reaches_leaf (m : SCXMLModel) (k : nat)
  (id leaf : string) :
  hops m k id leaf -> is_leaf m leaf -> k <= MAX_DEPTH ->
  _resolve_to_leaf_state m id = leaf
  /\ (has_state m leaf = true -> split (initial m) = [id] ->
      _resolve_deep_initial m = Ok (set_initial leaf m)).
Proof.
  intros Hh Hl Hk. split.
  - now apply (leaf_loop_complete m k).
  - intros Hex Hsplit. unfold _resolve_deep_initial.
    assert (Ht : truthy (initial m) = true).
    { destruct (initial m); [discriminate Hsplit | reflexivity]. }
    rewrite Ht, Hsplit. cbn [negb List.length Nat.ltb Nat.leb].
    now rewrite (deep_loop_complete m k id leaf Hh Hl Hex MAX_DEPTH Hk).
Qed.

(** One hop, from the region [r1] to its first child. *)
Lemma short_chain_reaches_leaf_witness :
  _resolve_to_leaf_state region_entry_model "r1" = "a1"
  /\ (has_state region_entry_model "a1" = true ->
      split (initial region_entry_model) = ["r1"] ->
      _resolve_deep_initial region_entry_model
      = Ok (set_initial "a1" region_entry_model)).
Proof.
  apply (short_chain_reaches_leaf region_entry_model 1 "r1" "a1").
  - apply (hops_next _ 0 "r1" "a1" "a1"); [| apply hops_here].
    exists (snd (region_state "r1" "p" "a1")). repeat split.
  - intros b (s & Hs & Ht & _). vm_compute in Hs. injection Hs as <-.
    discriminate Ht.
  - unfold MAX_DEPTH. lia.
Defined.

(** X13: [_parse_initial_children] succeeds exactly on the models in which
    every id listed in the [initial] of a state is a state.  It then gives
    every state the split of its [initial] as [initial_children] and
    changes nothing else; otherwise it raises a [ValueError] for a listed id
    that is no state. *)
Theorem parse_initial_children_validates (m : SCXMLModel) :
  match _parse_initial_children m with
  | Ok m' =>
      m' = map_states
             (fun s => set_st_initial_children (split (st_initial s)) s) m
      /\ Forall (fun kv : string * State =>
                   Forall (fun c => has_state m c = true)
                     (split (st_initial (snd kv)))) (states m)
  | Raise e =>
      exists (id : string) (s : State) (c msg : string),
        (id, s) ∈ states m /\ c ∈ split (st_initial s)
        /\ has_state m c = false /\ e = ValueError msg
  end.
Proof.
  destruct (_parse_initial_children m) as [m' | e] eqn:E.
  - now apply parse_initial_children_ok.
  - now apply parse_initial_children_raise.
Qed.

(** X14: in every model [parse_file] returns, the [initial_children] of a
    state are the ids listed in its [initial], and each of them is a state
    of the model. *)
Theorem parsed_initial_children_exist
  (tostring tostring_c14n : node -> string) (path_stem : string -> string)
  (sibling_path : string -> string -> string)
  (load_external_script : string -> string -> option string)
  (reread : node -> node)
  (fuel : nat) (fs : filesystem) (path : string) (m : SCXMLModel) :
  snd (parse_file tostring tostring_c14n path_stem sibling_path
         load_external_script reread fuel fs path) = Ok m ->
  Forall (fun kv : string * State =>
            st_initial_children (snd kv) = split (st_initial (snd kv))
            /\ Forall (fun c => has_state m c = true)
                 (st_initial_children (snd kv)))
         (states m).
Proof.
  intros H. apply parse_file_last in H as (m0 & H).
  now apply (initial_children_checked m0).
Qed.

(** The deep-initial document of the scenarios. *)
Lemma parsed_initial_children_exist_witness :
  Forall (fun kv : string * State =>
            st_initial_children (snd kv) = split (st_initial (snd kv))
            /\ Forall (fun c => has_state parsed_deep_initial c = true)
                 (st_initial_children (snd kv)))
         (states parsed_deep_initial).
Proof.
  apply (parsed_initial_children_exist Scenarios.tag_only Scenarios.tag_only
           Scenarios.flat_stem Scenarios.flat_sibling Scenarios.no_script id 8
           (Scenarios.one_file "d.scxml" Scenarios.deep_initial_doc)
           "d.scxml" parsed_deep_initial).
  vm_compute. reflexivity.
Defined.

(** X15: after [_add_done_state_events] the events of the model are those
    it had and, for every state that is not parallel and is the parent of a
    final state, the event [done.state.] followed by its id. *)
Theorem done_state_events_added (m : SCXMLModel) (e : string) :
  e ∈ events (_add_done_state_events m) <->
  e ∈ events m
  \/ exists (id : string) (s : State),
       (id, s) ∈ states m /\ st_is_parallel s = false
       /\ has_final_child m id /\ e = "done.state." +:+ id.
Proof. unfold _add_done_state_events. apply done_state_fold. Qed.

(** X16: [_compute_parallel_regions] gives every parallel state the ids of
    the states whose parent it is, in the order of [model.states], and
    leaves the entry of any other id as it was. *)
Theorem parallel_regions_are_children (m : SCXMLModel) (id : string) :
  ((exists s, (id, s) ∈ states m /\ st_is_parallel s = true) ->
   assoc id (parallel_regions (_compute_parallel_regions m))
   = Some (map fst (filter (fun kv' : string * State =>
                              st_parent (snd kv') = Some id) (states m))))
  /\ ((forall s, (id, s) ∈ states m -> st_is_parallel s = false) ->
      assoc id (parallel_regions (_compute_parallel_regions m))
      = assoc id (parallel_regions m)).
Proof. apply compute_regions_spec. Qed.

(** X17: in the model [generate] prepares, the prefix-match list of a
    transition has no duplicates when the model has no static invoke.  When
    it has one, [generate] has added [done.invoke], [cancel.invoke] and
    [error.execution] to the events and [_build_prefix_matching] appends
    them once more, so a transition whose descriptor matches one of the
    three lists it twice. *)
Theorem prefix_list_duplicates (as_child : bool) (m : SCXMLModel)
  (sid : string) (s : State) (t : Transition) :
  state_of (prepare as_child m) sid = Some s ->
  t ∈ st_transitions s ->
  tr_event t <> "" ->
  is_wildcard (tr_event t) = false ->
  exists P,
    tr_prefix_matching_events t = Some P
    /\ (static_invokes m = [] -> NoDup P)
    /\ (static_invokes m <> [] ->
        forall e, e ∈ invoke_events ->
                  prefix_match (tr_event t) e = true -> ~ NoDup P).
Proof. apply prepare_prefix_list. Qed.

(** A transition on [done.invoke] in a model with a static invoke. *)
Lemma prefix_list_duplicates_witness :
  exists P,
    tr_prefix_matching_events waiting_transition = Some P
    /\ (static_invokes waiting_model = [] -> NoDup P)
    /\ (static_invokes waiting_model <> [] ->
        forall e, e ∈ invoke_events ->
                  prefix_match (tr_event waiting_transition) e = true ->
                  ~ NoDup P).
Proof.
  apply (prefix_list_duplicates false waiting_model "s"
           waiting_prepared_state waiting_transition).
  - vm_compute. reflexivity.
  - vm_compute. left.
  - vm_compute. discriminate.
  - vm_compute. reflexivity.
Defined.

(** X18: [_analyze_model_features] only adds events; when it returns a model
    that needs the script engine, [error.execution] is among the events;
    and when the model needed the engine before, the helpers for events,
    assignments, [foreach] and guards are all switched on. *)
Theorem analysis_engine_events (m : SCXMLModel) :
  events m ⊆ events (_analyze_model_features m)
  /\ (flag_of (_analyze_model_features m) needs_jsengine = true ->
      "error.execution" ∈ events (_analyze_model_features m))
  /\ (flag_of m needs_jsengine = true ->
      forall f : flag,
        f ∈ [needs_jsengine; needs_event_type_helper; needs_assign_helper;
             needs_foreach; needs_guard_helper] ->
        flag_of (_analyze_model_features m) f = true).
Proof.
  split; [apply features_events_grow |].
  split; [apply features_engine_event |].
  intros H f Hf. now apply features_engine_helpers.
Qed.

(** X19: the choice between the interpreter wrapper and the static track is
    made on the parsed model: classifying the variables, analysing the
    features, adding the events and building the prefix lists do not change
    what [_needs_interpreter_wrapper] answers. *)
Theorem track_is_decided_by_parsed_model (as_child : bool) (m : SCXMLModel) :
  _needs_interpreter_wrapper (prepare as_child m)
  = _needs_interpreter_wrapper m.
Proof. apply prepare_keeps_track. Qed.

(** X20: [_collect_child_to_parent_events] adds to the events of the parent
    the event of every [<send>] to [#_parent] that stands directly in an entry
    block, an exit block, a transition or an initial transition of a state
    of the child of its first static invoke, when the file of that child is
    there and is parsed. *)
Theorem first_child_events_collected
  (sibling_path : string -> string -> string)
  (parse_child : filesystem -> string -> filesystem * result SCXMLModel)
  (scxml_path : string) (fs fs' : filesystem) (m child_model : SCXMLModel)
  (si : StaticInvoke) (rest : list StaticInvoke)
  (sid : string) (child_state : State) (action : dict) (e : string) :
  static_invokes m = si :: rest ->
  truthy (si_child_name si) = true ->
  exists_file fs (sibling_path scxml_path (si_child_name si +:+ ".scxml"))
  = true ->
  parse_child fs (sibling_path scxml_path (si_child_name si +:+ ".scxml"))
  = (fs', Ok child_model) ->
  (sid, child_state) ∈ states child_model ->
  action ∈ st_on_entry child_state ++ st_on_exit child_state
           ++ List.concat (map tr_actions (st_transitions child_state))
           ++ st_initial_transition_actions child_state ->
  is_str (dict_get "type" action) "send" = true ->
  is_str (dict_get "target" action) "#_parent" = true ->
  dict_str "event" action = e -> e <> "" ->
  e ∈ events (snd (_collect_child_to_parent_events sibling_path parse_child
                     scxml_path fs m)).
Proof.
  intros Hsi Hname Hex Hparse Hs Ha Ht Hg He Hne.
  apply (collect_first sibling_path parse_child scxml_path fs fs' m
           child_model si rest e Hsi Hname Hex Hparse).
  now apply (child_scan_covers child_model sid child_state action).
Qed.

(** The child of the closure scenario sends [failure]. *)
Lemma first_child_events_collected_witness :
  "failure"
  ∈ events (snd (_collect_child_to_parent_events Scenarios.flat_sibling
                   scenario_child_parser "p.scxml" Scenarios.closure_files
                   waiting_model)).
Proof.
  apply (first_child_events_collected Scenarios.flat_sibling
           scenario_child_parser "p.scxml" Scenarios.closure_files
           (fst (scenario_child_parser Scenarios.closure_files "c.scxml"))
           waiting_model closure_child_model
           (mkStaticInvoke "i" "c" "s" false "c.scxml" [] EmptyString
              EmptyString None None None) []
           "c0" closure_child_state closure_send "failure").
  - reflexivity.
  - reflexivity.
  - vm_compute. reflexivity.
  - vm_compute. reflexivity.
  - vm_compute. left.
  - vm_compute. left.
  - vm_compute. reflexivity.
  - vm_compute. reflexivity.
  - vm_compute. reflexivity.
  - discriminate.
Defined.

(** X21: [_process_static_invokes] raises [UnboundLocalError] when the first
    invoke it meets is static, has a source and no inline child, and the
    file of the child is not there: the variable [child_datamodel_vars] is
    read before any branch has assigned it. *)
Theorem absent_child_file_raises
  (path_stem : string -> string) (sibling_path : string -> string -> string)
  (reread : node -> node)
  (parse_child : filesystem -> string -> filesystem * result SCXMLModel)
  (scxml_path : string) (fs : filesystem) (m : SCXMLModel)
  (sid : string) (s : State) (others : list (string * State))
  (invoke : Invoke) (more : list Invoke) (i : nat) (later : list nat)
  (si : StaticInvoke) :
  states m = (sid, s) :: others ->
  st_invokes s = invoke :: more ->
  iv_is_static invoke = true ->
  default false (iv_has_inline_scxml invoke) = false ->
  truthy (iv_src invoke) = true ->
  st_static_invokes s = i :: later ->
  static_invokes m !! i = Some si ->
  si_src si = iv_src invoke ->
  exists_file fs
    (sibling_path scxml_path
       (path_stem (if startswith (iv_src invoke) "file:"
                   then str_drop 5 (iv_src invoke) else iv_src invoke)
        +:+ ".scxml")) = false ->
  snd (_process_static_invokes path_stem sibling_path reread parse_child
         scxml_path fs m) = Raise UnboundLocalError.
Proof. apply first_static_invoke_unbound. Qed.

(** An invoke of [gone.scxml] in an empty directory. *)
Lemma absent_child_file_raises_witness :
  snd (_process_static_invokes Scenarios.flat_stem Scenarios.flat_sibling id
         scenario_child_parser "p.scxml" ∅ absent_child_model)
  = Raise UnboundLocalError.
Proof.
  apply (absent_child_file_raises Scenarios.flat_stem Scenarios.flat_sibling
           id scenario_child_parser "p.scxml" ∅ absent_child_model
           "s" absent_child_state [] absent_child_invoke [] 0 []
           absent_child_entry); reflexivity.
Defined.

(** X22: the invoke [_parse_invoke] returns has an id that is not empty, is
    never marked as a dynamic file invoke and is never both static and
    hybrid.  A static one has no [srcexpr] and no content expression, and
    has a [src] or an inline document; a hybrid one has a [srcexpr] or a
    content expression. *)
Theorem invoke_classes_exclusive (tostring tostring_c14n : node -> string)
  (invoke_elem : node) (ps : parser) :
  let invoke := fst (_parse_invoke tostring tostring_c14n invoke_elem ps) in
  iv_is_dynamic_file invoke = false
  /\ iv_is_static invoke && iv_is_hybrid invoke = false
  /\ (iv_is_static invoke = true ->
      iv_srcexpr invoke = "" /\ iv_contentexpr invoke = ""
      /\ (iv_src invoke <> "" \/ iv_has_inline_scxml invoke = Some true))
  /\ (iv_is_hybrid invoke = true ->
      iv_srcexpr invoke <> "" \/ iv_contentexpr invoke <> "")
  /\ iv_id invoke <> "".
Proof. apply parse_invoke_classes. Qed.

(** X23: no model that [parse_file] returns has [has_dynamic_file_invoke]
    set, whatever the document and the files around it: no phase of the
    parser raises the flag. *)
Theorem parsed_model_has_no_dynamic_file_invoke
  (tostring tostring_c14n : node -> string) (path_stem : string -> string)
  (sibling_path : string -> string -> string)
  (load_external_script : string -> string -> option string)
  (reread : node -> node)
  (fuel : nat) (fs : filesystem) (path : string) (m : SCXMLModel) :
  snd (parse_file tostring tostring_c14n path_stem sibling_path
         load_external_script reread fuel fs path) = Ok m ->
  flag_of m has_dynamic_file_invoke = false.
Proof.
  intros H. apply parse_file_spec in H as (root & _ & H & _). exact H.
Qed.

(** The deep-initial document of the scenarios. *)
Lemma parsed_model_has_no_dynamic_file_invoke_witness :
  flag_of parsed_deep_initial has_dynamic_file_invoke = false.
Proof.
  apply (parsed_model_has_no_dynamic_file_invoke Scenarios.tag_only
           Scenarios.tag_only Scenarios.flat_stem Scenarios.flat_sibling
           Scenarios.no_script id 8
           (Scenarios.one_file "d.scxml" Scenarios.deep_initial_doc)
           "d.scxml" parsed_deep_initial).
  vm_compute. reflexivity.
Defined.

(** X24: the ids of the variables of a model that [parse_file] returns are
    the [id] attributes of the [<data>] elements in the [<datamodel>]
    children of the root, in document order, absent and repeated ones
    included: no phase after [_parse_datamodel] adds, drops or reorders a
    variable, and the data of the states are not among them. *)
Theorem parsed_variables_are_root_data
  (tostring tostring_c14n : node -> string) (path_stem : string -> string)
  (sibling_path : string -> string -> string)
  (load_external_script : string -> string -> option string)
  (reread : node -> node)
  (fuel : nat) (fs : filesystem) (path : string) (root : node)
  (m : SCXMLModel) :
  fs !! path = Some (XmlFile root) ->
  snd (parse_file tostring tostring_c14n path_stem sibling_path
         load_external_script reread fuel fs path) = Ok m ->
  map dv_id (variables m)
  = map (fun data => get_opt data "id") (root_data root).
Proof.
  intros Hf H. apply parse_file_spec in H as (root' & Hf' & _ & H & _).
  rewrite Hf in Hf'. injection Hf' as <-. exact H.
Qed.

(** A document with two variables. *)
Lemma parsed_variables_are_root_data_witness :
  map dv_id (variables parsed_variables)
  = map (fun data => get_opt data "id") (root_data variables_doc).
Proof.
  apply (parsed_variables_are_root_data Scenarios.tag_only
           Scenarios.tag_only Scenarios.flat_stem Scenarios.flat_sibling
           Scenarios.no_script id 8
           (Scenarios.one_file "v.scxml" variables_doc)
           "v.scxml" variables_doc parsed_variables).
  - vm_compute. reflexivity.
  - vm_compute. reflexivity.
Defined.

(** X25: a model that [parse_file] returns for a document whose root has a
    [<data>] element in a [<datamodel>] child, or a [<script>] child, has
    [needs_jsengine] set: no later phase of the parser clears the flag. *)
Theorem root_data_or_script_needs_engine
  (tostring tostring_c14n : node -> string) (path_stem : string -> string)
  (sibling_path : string -> string -> string)
  (load_external_script : string -> string -> option string)
  (reread : node -> node)
  (fuel : nat) (fs : filesystem) (path : string) (root : node)
  (m : SCXMLModel) :
  fs !! path = Some (XmlFile root) ->
  snd (parse_file tostring tostring_c14n path_stem sibling_path
         load_external_script reread fuel fs path) = Ok m ->
  root_data root <> [] \/ ns_findall root "script" <> [] ->
  flag_of m needs_jsengine = true.
Proof.
  intros Hf H. apply parse_file_spec in H as (root' & Hf' & _ & _ & H).
  rewrite Hf in Hf'. injection Hf' as <-. exact H.
Qed.

(** A document with two variables. *)
Lemma root_data_or_script_needs_engine_witness :
  flag_of parsed_variables needs_jsengine = true.
Proof.
  apply (root_data_or_script_needs_engine Scenarios.tag_only
           Scenarios.tag_only Scenarios.flat_stem Scenarios.flat_sibling
           Scenarios.no_script id 8
           (Scenarios.one_file "v.scxml" variables_doc)
           "v.scxml" variables_doc parsed_variables).
  - vm_compute. reflexivity.
  - vm_compute. reflexivity.
  - left. vm_compute. discriminate.
Defined.


